(** * Waterworks: reversible pipelines

    A shallow embedding of the graph engine of [reversible_transforms]
    ([waterworks/waterwork.py], [waterworks/slot.py]) and of the fitting step
    of [transforms/datetime_transform.py], with the properties of the
    specification stated over it.

    Python objects live in a store ([World]) and are named by references, so
    that the aliasing between the dictionaries of a Waterwork and the links of
    its slots and tubes is the one of the program. Python's [None] is the
    [None] of [option]. *)

From Stdlib Require Import ZArith String Ascii List Floats Uint63 FunctionalExtensionality.
From stdpp Require Import gmap strings list fin_maps.

Open Scope string_scope.

(** ** The Python runtime the engine relies on *)

Module Py.

(** [posixpath.join(a, b)]. *)
Definition path_join (a b : string) : string :=
  if String.prefix "/" b then b
  else if (String.eqb a "" || String.eqb (String.substring (String.length a - 1) 1 a) "/")%bool
       then a ++ b
       else a ++ "/" ++ b.

Definition squote : ascii := ascii_of_nat 39.
Definition dquote : ascii := ascii_of_nat 34.
Definition backslash : ascii := ascii_of_nat 92.

Fixpoint contains_char (c : ascii) (s : string) : bool :=
  match s with
  | EmptyString => false
  | String d s' => (Ascii.eqb c d || contains_char c s')%bool
  end.

Definition hex_digit (n : nat) : ascii :=
  if (n <? 10)%nat then ascii_of_nat (48 + n) else ascii_of_nat (87 + n).

(** The body of [repr] of a byte string: the quote in use and the backslash
    are escaped, control and non-ASCII bytes are written in hexadecimal. *)
Fixpoint repr_body (quote : ascii) (s : string) : string :=
  match s with
  | EmptyString => EmptyString
  | String c s' =>
      let n := nat_of_ascii c in
      let rest := repr_body quote s' in
      if (Ascii.eqb c quote || Ascii.eqb c backslash)%bool then String backslash (String c rest)
      else if (n =? 9)%nat then String backslash (String "t" rest)
      else if (n =? 10)%nat then String backslash (String "n" rest)
      else if (n =? 13)%nat then String backslash (String "r" rest)
      else if ((n <? 32) || (127 <=? n))%nat%bool
           then String backslash (String "x" (String (hex_digit (n / 16)) (String (hex_digit (n mod 16)) rest)))
           else String c rest
  end.

(** [repr(s)] for a [str]: single quotes unless the string holds a single
    quote and no double quote. *)
Definition repr_str (s : string) : string :=
  let quote := if (contains_char squote s && negb (contains_char dquote s))%bool then dquote else squote in
  String quote (repr_body quote s ++ String quote EmptyString).

(** [str((a, b))] for two strings. *)
Definition str_tuple (a b : string) : string :=
  "(" ++ repr_str a ++ ", " ++ repr_str b ++ ")".

(** [cmp(a, b)] on strings: negative, zero or positive. *)
Definition cmp_str (a b : string) : Z :=
  match String.compare a b with
  | Lt => (-1)%Z
  | Eq => 0%Z
  | Gt => 1%Z
  end.

(** *** [sorted(l, cmp=f)]

    CPython's [listsort] on a list of fewer than 64 elements ([minrun] is
    then the length of the list): [count_run] finds the run the list starts
    with, a strictly descending run is reversed in place, and [binarysort]
    inserts the remaining elements one by one. Every comparison is
    [islt x y], that is [f(x, y) < 0]. Longer lists are cut into several runs
    that are merged; that part is not modelled, and [listsort] is only used
    below on lists of fewer than 64 elements. *)
Section ListSort.
Context {A : Type} (cmp : A -> A -> Z).

Definition islt (x y : A) : bool := (cmp x y <? 0)%Z.

(** How many further elements continue a strictly descending run. *)
Fixpoint run_descending (prev : A) (l : list A) : nat :=
  match l with
  | [] => 0
  | x :: l' => if islt x prev then S (run_descending x l') else 0
  end.

(** How many further elements continue a non-descending run. *)
Fixpoint run_ascending (prev : A) (l : list A) : nat :=
  match l with
  | [] => 0
  | x :: l' => if islt x prev then 0 else S (run_ascending x l')
  end.

(** [count_run]: the length of the first run, and whether it descends. *)
Definition count_run (l : list A) : nat * bool :=
  match l with
  | [] => (0, false)
  | [x] => (1, false)
  | x :: y :: l' =>
      if islt y x then (2 + run_descending y l', true)
      else (2 + run_ascending y l', false)
  end.

(** The loop of [binarysort] that finds where [pivot] goes in the sorted
    prefix [a], between [l] and [r]. *)
Fixpoint bisect (fuel : nat) (pivot : A) (a : list A) (l r : nat) : nat :=
  match fuel with
  | 0 => l
  | S fuel' =>
      if (l <? r)%nat then
        let p := (l + (r - l) / 2)%nat in
        match a !! p with
        | Some ap => if islt pivot ap then bisect fuel' pivot a l p
                     else bisect fuel' pivot a (p + 1) r
        | None => l
        end
      else l
  end.

Definition insert_at (i : nat) (x : A) (a : list A) : list A :=
  take i a ++ x :: drop i a.

Fixpoint binarysort (sorted rest : list A) : list A :=
  match rest with
  | [] => sorted
  | pivot :: rest' =>
      let i := bisect (S (length sorted)) pivot sorted 0 (length sorted) in
      binarysort (insert_at i pivot sorted) rest'
  end.

Definition listsort (l : list A) : list A :=
  if (length l <? 2)%nat then l
  else
    let '(n, descending) := count_run l in
    let run := take n l in
    binarysort (if descending then rev run else run) (drop n l).

End ListSort.

End Py.

(** ** Values and graph parts *)

(** A payload is opaque to the engine; a few kinds are enough to run it. A
    value is a payload or Python's [None]. *)
Inductive payload :=
| PInt (n : Z)
| PBool (b : bool)
| PStr (s : string)
| PArray (l : list Z).

Abbreviation val := (option payload).

(** Objects are named by references: a Tank, a Placeholder and a Waterwork
    by an identifier, a Slot and a Tube by their tank and key (as
    [Slot.__eq__] and [Slot.__hash__] compare them). *)
Definition tank_id := nat.
Definition ph_id := nat.
Definition ww_id := nat.
Abbreviation slot_ref := (tank_id * string)%type.
Abbreviation tube_obj := (tank_id * string)%type.

(** What a slot may be linked to: a Tube or a Placeholder. *)
Inductive tube_ref :=
| OfTank (t : tank_id) (key : string)
| OfPlaceholder (p : ph_id).

Record Slot := {
  slot_tube : option tube_ref;
  slot_val : val;
  slot_name : string;
  slot_waterwork : ww_id
}.

Record Tube := {
  tube_slot : option slot_ref;
  tube_val : val;
  tube_name : string;
  tube_waterwork : ww_id
}.

Record Placeholder := {
  ph_slot : option slot_ref;
  ph_val : val;
  ph_name : string;
  ph_val_type : string;
  ph_val_dtype : option string
}.

(** The kind of a tank: its two directions, opaque to the engine. [None] is
    an exception raised by the tank. *)
Record TankClass := {
  cls_name : string;
  _pour : gmap string val -> option (gmap string val);
  _pump : gmap string val -> option (gmap string val)
}.

(** [tank_slots] and [tank_tubes] are the keys of [tank.slots] and
    [tank.tubes]; the Slot of key [k] of tank [t] is the object [(t, k)]. *)
Record Tank := {
  tank_name : string;
  tank_class : TankClass;
  tank_slots : list string;
  tank_tubes : list string
}.

Record Waterwork := {
  funnels : gmap string slot_ref;
  tubes : gmap string tube_obj;
  slots : gmap string slot_ref;
  tanks : gmap string tank_id;
  taps : gmap string tube_obj;
  placeholders : gmap string ph_id;
  ww_name : string
}.

(** [Waterwork.__init__]. *)
Definition new_waterwork (name : string) : Waterwork :=
  {| funnels := ∅; tubes := ∅; slots := ∅; tanks := ∅; taps := ∅;
     placeholders := ∅; ww_name := name |}.

(** The store: every object of the program, and the global
    [gl._default_waterwork]. *)
Record World := {
  w_tanks : gmap tank_id Tank;
  w_slots : gmap slot_ref Slot;
  w_tubes : gmap tube_obj Tube;
  w_placeholders : gmap ph_id Placeholder;
  w_waterworks : gmap ww_id Waterwork;
  default_waterwork : option ww_id
}.

Definition with_slots (f : gmap slot_ref Slot -> gmap slot_ref Slot) (w : World) : World :=
  {| w_tanks := w_tanks w; w_slots := f (w_slots w); w_tubes := w_tubes w;
     w_placeholders := w_placeholders w; w_waterworks := w_waterworks w;
     default_waterwork := default_waterwork w |}.

Definition with_tubes (f : gmap tube_obj Tube -> gmap tube_obj Tube) (w : World) : World :=
  {| w_tanks := w_tanks w; w_slots := w_slots w; w_tubes := f (w_tubes w);
     w_placeholders := w_placeholders w; w_waterworks := w_waterworks w;
     default_waterwork := default_waterwork w |}.

Definition with_placeholders (f : gmap ph_id Placeholder -> gmap ph_id Placeholder) (w : World) : World :=
  {| w_tanks := w_tanks w; w_slots := w_slots w; w_tubes := w_tubes w;
     w_placeholders := f (w_placeholders w); w_waterworks := w_waterworks w;
     default_waterwork := default_waterwork w |}.

Definition with_waterworks (f : gmap ww_id Waterwork -> gmap ww_id Waterwork) (w : World) : World :=
  {| w_tanks := w_tanks w; w_slots := w_slots w; w_tubes := w_tubes w;
     w_placeholders := w_placeholders w; w_waterworks := f (w_waterworks w);
     default_waterwork := default_waterwork w |}.

Definition with_default (d : option ww_id) (w : World) : World :=
  {| w_tanks := w_tanks w; w_slots := w_slots w; w_tubes := w_tubes w;
     w_placeholders := w_placeholders w; w_waterworks := w_waterworks w;
     default_waterwork := d |}.

(** *** Attributes of the parts

    A reference always denotes an object in Python; reading through a
    reference that the store does not hold gives the defaults below and
    writing through it does nothing. *)

(** [Slot.get_val], [Tube.get_val], [Placeholder.get_val]. *)
Definition slot_get_val (w : World) (s : slot_ref) : val := w_slots w !! s ≫= slot_val.
Definition tube_get_val (w : World) (t : tube_obj) : val := w_tubes w !! t ≫= tube_val.
Definition ph_get_val (w : World) (p : ph_id) : val := w_placeholders w !! p ≫= ph_val.

(** The assignment [o.val = v] on a slot, a tube and a placeholder. *)
Definition slot_with_val (v : val) (o : Slot) : Slot :=
  {| slot_tube := slot_tube o; slot_val := v; slot_name := slot_name o;
     slot_waterwork := slot_waterwork o |}.
Definition tube_with_val (v : val) (o : Tube) : Tube :=
  {| tube_slot := tube_slot o; tube_val := v; tube_name := tube_name o;
     tube_waterwork := tube_waterwork o |}.
Definition ph_with_val (v : val) (o : Placeholder) : Placeholder :=
  {| ph_slot := ph_slot o; ph_val := v; ph_name := ph_name o;
     ph_val_type := ph_val_type o; ph_val_dtype := ph_val_dtype o |}.

(** [Slot.set_val], [Tube.set_val], [Placeholder.set_val]. *)
Definition slot_set_val (s : slot_ref) (v : val) : World -> World :=
  with_slots (alter (slot_with_val v) s).
Definition tube_set_val (t : tube_obj) (v : val) : World -> World :=
  with_tubes (alter (tube_with_val v) t).
Definition ph_set_val (p : ph_id) (v : val) : World -> World :=
  with_placeholders (alter (ph_with_val v) p).

(** [set_val] on what a slot is linked to. *)
Definition tube_ref_set_val (t : tube_ref) (v : val) : World -> World :=
  match t with
  | OfTank t k => tube_set_val (t, k) v
  | OfPlaceholder p => ph_set_val p v
  end.

Definition slot_tube_of (w : World) (s : slot_ref) : option tube_ref := w_slots w !! s ≫= slot_tube.
Definition tube_slot_of (w : World) (t : tube_obj) : option slot_ref := w_tubes w !! t ≫= tube_slot.
Definition ph_slot_of (w : World) (p : ph_id) : option slot_ref := w_placeholders w !! p ≫= ph_slot.

Definition slot_name_of (w : World) (s : slot_ref) : string := default "" (slot_name <$> w_slots w !! s).
Definition tube_name_of (w : World) (t : tube_obj) : string := default "" (tube_name <$> w_tubes w !! t).
Definition ph_name_of (w : World) (p : ph_id) : string := default "" (ph_name <$> w_placeholders w !! p).
Definition tank_name_of (w : World) (t : tank_id) : string := default "" (tank_name <$> w_tanks w !! t).
Definition tank_slots_of (w : World) (t : tank_id) : list string := default [] (tank_slots <$> w_tanks w !! t).
Definition tank_tubes_of (w : World) (t : tank_id) : list string := default [] (tank_tubes <$> w_tanks w !! t).

(** ** Exceptions and the state of the program *)

(** The exceptions of the engine, by the kinds of the specification where it
    names one (all of them are [ValueError] in the source), and Python's own
    otherwise. *)
Inductive Exn :=
| UnknownFunnel
| UnknownTap
| MissingInput
| BadKeyMode
| SameName
| ScopeConflict
| KeyError
| AttributeError
| TankRaised.

(** A computation changes the store and returns or raises; the store keeps
    what was written before an exception. *)
Definition M (A : Type) : Type := World -> (Exn + A) * World.

Definition ret {A} (a : A) : M A := fun w => (inr a, w).
Definition raise {A} (e : Exn) : M A := fun w => (inl e, w).
Definition bind {A B} (c : M A) (k : A -> M B) : M B :=
  fun w => match c w with
           | (inl e, w') => (inl e, w')
           | (inr a, w') => k a w'
           end.
Definition get : M World := fun w => (inr w, w).
Definition modify (f : World -> World) : M unit := fun w => (inr tt, f w).

Notation "'let!' x ':=' c 'in' k" := (bind c (fun x => k))
  (at level 10, x pattern, c at level 100, k at level 200).
Notation "c ';;' k" := (bind c (fun _ => k))
  (at level 100, k at level 200, right associativity).

(** A [for] loop over a list. *)
Fixpoint for_each {A} (l : list A) (body : A -> M unit) : M unit :=
  match l with
  | [] => ret tt
  | x :: l' => body x ;; for_each l' body
  end.

(** [try: body finally: w := cleanup w]. *)
Definition finally {A} (body : M A) (cleanup : World -> World) : M A :=
  fun w => let '(r, w') := body w in (r, cleanup w').

(** ** Keys of the dictionaries given to and returned by [pour] and [pump] *)

Inductive pykey :=
| KStr (s : string)
| KTuple (tank key : string)
| KSlot (s : slot_ref)
| KTube (t : tube_obj)
| KPlaceholder (p : ph_id).

#[global] Instance pykey_eq_dec : EqDecision pykey.
Proof. solve_decision. Defined.

#[global] Instance pykey_countable : Countable pykey.
Proof.
  refine (inj_countable'
    (fun k => match k with
              | KStr s => inl s
              | KTuple t k => inr (inl (t, k))
              | KSlot s => inr (inr (inl s))
              | KTube t => inr (inr (inr (inl t)))
              | KPlaceholder p => inr (inr (inr (inr p)))
              end)
    (fun x => match x with
              | inl s => KStr s
              | inr (inl (t, k)) => KTuple t k
              | inr (inr (inl s)) => KSlot s
              | inr (inr (inr (inl t))) => KTube t
              | inr (inr (inr (inr p))) => KPlaceholder p
              end) _).
  by intros [].
Defined.

(** ** The Waterwork *)

(** [Waterwork.maybe_get_placeholder]: a string names a placeholder of the
    Waterwork, a Placeholder object is returned as it is. *)
Definition maybe_get_placeholder (self : Waterwork) (arg : pykey) : option ph_id :=
  match arg with
  | KStr s => placeholders self !! s
  | KPlaceholder p => Some p
  | _ => None
  end.

(** [Waterwork.maybe_get_slot] on one argument. A pair [(tank, key)] selects
    the tank by name; when the name is not a tank of the Waterwork the source
    evaluates [isinstance(tank, sl.slot)], an attribute the module [slot]
    does not have. A string is looked up in [self.slots]; any other
    argument, a Slot object included, gives [None]. *)
Definition maybe_get_slot (self : Waterwork) (w : World) (arg : pykey) : Exn + option slot_ref :=
  match arg with
  | KTuple tank key =>
      match tanks self !! tank with
      | Some t => if bool_decide (key ∈ tank_slots_of w t) then inr (Some (t, key)) else inr None
      | None => inl AttributeError
      end
  | KStr s => inr (slots self !! s)
  | _ => inr None
  end.

(** [Waterwork.maybe_get_tube] on one argument: as above, but a pair whose
    tank is unknown gives [None] (the test is [isinstance(tank, tu.Tube)]). *)
Definition maybe_get_tube (self : Waterwork) (w : World) (arg : pykey) : option tube_obj :=
  match arg with
  | KTuple tank key =>
      match tanks self !! tank with
      | Some t => if bool_decide (key ∈ tank_tubes_of w t) then Some (t, key) else None
      | None => None
      end
  | KStr s => tubes self !! s
  | _ => None
  end.

(** Modelled from the spec: [Tank.get_pour_dependencies] ([tank.py] is not
    among the sources): "the set of tanks whose tubes feed this tank's
    slots". *)
Definition get_pour_dependencies (w : World) (t : tank_id) : gset tank_id :=
  list_to_set
    (omap (fun k => match slot_tube_of w (t, k) with
                    | Some (OfTank t' _) => Some t'
                    | _ => None
                    end) (tank_slots_of w t)).

(** Modelled from the spec: [Tank.get_pump_dependencies]: "the set of tanks
    whose slots are fed by this tank's tubes". *)
Definition get_pump_dependencies (w : World) (t : tank_id) : gset tank_id :=
  list_to_set (omap (fun k => fst <$> tube_slot_of w (t, k)) (tank_tubes_of w t)).

(** Modelled from the spec: the order of Tank objects that [sorted(tanks)]
    uses without a [cmp] ([tank.py] is not among the sources): "ties are
    broken deterministically by tank name". *)
Definition tank_cmp (w : World) (a b : tank_id) : Z :=
  Py.cmp_str (tank_name_of w a) (tank_name_of w b).

(** Modelled from the spec: [Tank.pour] ([tank.py] is not among the
    sources): "invoke pour, write each result into the corresponding
    tube". *)
Definition tank_pour (t : tank_id) (kwargs : gmap string val) : M (gmap string val) :=
  let! w := get in
  match w_tanks w !! t ≫= (fun tk => _pour (tank_class tk) kwargs) with
  | None => raise TankRaised
  | Some tube_dict =>
      for_each (map_to_list tube_dict)
        (fun '(key, v) =>
           if bool_decide (key ∈ tank_tubes_of w t) then modify (tube_set_val (t, key) v)
           else raise KeyError) ;;
      ret tube_dict
  end.

(** Modelled from the spec: [Tank.pump], the mirror of [Tank.pour]: "pump
    reverses the order and fills slots". *)
Definition tank_pump (t : tank_id) (kwargs : gmap string val) : M (gmap string val) :=
  let! w := get in
  match w_tanks w !! t ≫= (fun tk => _pump (tank_class tk) kwargs) with
  | None => raise TankRaised
  | Some slot_dict =>
      for_each (map_to_list slot_dict)
        (fun '(key, v) =>
           if bool_decide (key ∈ tank_slots_of w t) then modify (slot_set_val (t, key) v)
           else raise KeyError) ;;
      ret slot_dict
  end.

(** [{k: tank.slots[k].get_val() for k in tank.slots}] and its mirror. *)
Definition slot_kwargs (w : World) (t : tank_id) : gmap string val :=
  list_to_map ((fun k => (k, slot_get_val w (t, k))) <$> tank_slots_of w t).
Definition tube_kwargs (w : World) (t : tank_id) : gmap string val :=
  list_to_map ((fun k => (k, tube_get_val w (t, k))) <$> tank_tubes_of w t).

(** The step of [pour] that binds one entry of [funnel_dict]. *)
Definition bind_funnel (self : Waterwork) (ph : pykey) (v : val) : M unit :=
  let! w := get in
  let ph_obj := maybe_get_placeholder self ph in
  match maybe_get_slot self w ph with
  | inl e => raise e
  | inr sl_obj =>
      match ph_obj, sl_obj with
      | Some p, _ =>
          modify (ph_set_val p v) ;;
          match ph_slot_of w p with
          | Some s => modify (slot_set_val s v)
          | None => ret tt
          end
      | None, Some s =>
          modify (slot_set_val s v) ;;
          match slot_tube_of w s with
          | Some t => modify (tube_ref_set_val t v)
          | None => ret tt
          end
      | None, None => raise UnknownFunnel
      end
  end.

(** The check that every funnel has a value. *)
Definition check_funnels (self : Waterwork) : M unit :=
  let! w := get in
  for_each (map_to_list (funnels self))
    (fun '(_, s) => if slot_get_val w s is None then raise MissingInput else ret tt).

(** One tank in the pour direction: its slots are read, the tank is run, and
    every tube linked to a slot hands its value on. *)
Definition pour_tank (t : tank_id) : M unit :=
  let! w := get in
  let! tube_dict := tank_pour t (slot_kwargs w t) in
  for_each (map_to_list tube_dict)
    (fun '(key, v) =>
       match tube_slot_of w (t, key) with
       | Some s => modify (slot_set_val s v)
       | None => ret tt
       end).

(** The loop that fills the returned dictionary: [r_dict[key] = value] for
    every part, in the order of iteration. *)
Fixpoint collect {A} (key_of : A -> Exn + pykey) (val_of : A -> val) (l : list A)
    (r_dict : gmap pykey val) : M (gmap pykey val) :=
  match l with
  | [] => ret r_dict
  | x :: l' =>
      match key_of x with
      | inl e => raise e
      | inr k => collect key_of val_of l' (<[k := val_of x]> r_dict)
      end
  end.

(** The key of a tap in the dictionary [pour] returns. *)
Definition tap_key (w : World) (key_type : string) (tap : tube_obj) : Exn + pykey :=
  if String.eqb key_type "obj" then inr (KTube tap)
  else if String.eqb key_type "tuple" then inr (KTuple (tank_name_of w tap.1) tap.2)
  else if String.eqb key_type "str" then inr (KStr (tube_name_of w tap))
  else inl BadKeyMode.

Definition collect_taps (self : Waterwork) (key_type : string) : M (gmap pykey val) :=
  let! w := get in
  collect (tap_key w key_type) (tube_get_val w) (snd <$> map_to_list (taps self)) ∅.

(** The step of [pump] that binds one entry of [tap_dict]. *)
Definition bind_tap (self : Waterwork) (tap : pykey) (v : val) : M unit :=
  let! w := get in
  match maybe_get_tube self w tap with
  | Some t => modify (tube_set_val t v)
  | None => raise UnknownTap
  end.

Definition check_taps (self : Waterwork) : M unit :=
  let! w := get in
  for_each (map_to_list (taps self))
    (fun '(_, t) => if tube_get_val w t is None then raise MissingInput else ret tt).

Definition pump_tank (t : tank_id) : M unit :=
  let! w := get in
  let! slot_dict := tank_pump t (tube_kwargs w t) in
  for_each (map_to_list slot_dict)
    (fun '(key, v) =>
       match slot_tube_of w (t, key) with
       | Some tu => modify (tube_ref_set_val tu v)
       | None => ret tt
       end).

(** The key of a funnel in the dictionary [pump] returns. *)
Definition funnel_key (w : World) (key_type : string) (funnel : slot_ref) : Exn + pykey :=
  if String.eqb key_type "slot" then inr (KSlot funnel)
  else if String.eqb key_type "tuple" then inr (KTuple (tank_name_of w funnel.1) funnel.2)
  else if String.eqb key_type "str" then inr (KStr (slot_name_of w funnel))
  else inl BadKeyMode.

Definition collect_funnels (self : Waterwork) (key_type : string) : M (gmap pykey val) :=
  let! w := get in
  collect (funnel_key w key_type) (slot_get_val w) (snd <$> map_to_list (funnels self)) ∅.

(** [Waterwork.clear_vals]. *)
Definition clear_vals (self : Waterwork) : M unit :=
  for_each (map_to_list (slots self)) (fun '(_, s) => modify (slot_set_val s None)) ;;
  for_each (map_to_list (tubes self)) (fun '(_, t) => modify (tube_set_val t None)) ;;
  for_each (map_to_list (placeholders self)) (fun '(_, p) => modify (ph_set_val p None)).

Section Engine.

(** [sorted(l, cmp=f)] of the Python runtime. [Py.listsort] is what CPython
    computes on fewer than 64 elements. *)
Variable sorted : (tank_id -> tank_id -> Z) -> list tank_id -> list tank_id.

(** [Waterwork._pour_tank_order]. *)
Definition _pour_tank_order (self : Waterwork) (w : World) : list tank_id :=
  let tanks := sorted (tank_cmp w) (snd <$> map_to_list (tanks self)) in
  sorted (fun a b => if bool_decide (b ∈ get_pour_dependencies w a) then 1%Z else (-1)%Z) tanks.

(** [Waterwork._pump_tank_order]. *)
Definition _pump_tank_order (self : Waterwork) (w : World) : list tank_id :=
  let tanks := sorted (tank_cmp w) (snd <$> map_to_list (tanks self)) in
  sorted (fun a b => if bool_decide (b ∈ get_pump_dependencies w a) then 0%Z else (-1)%Z) tanks.

(** The first three steps of [pour]: the entries of [funnel_dict] are bound
    (it is given as the list of its items in the order [iteritems] yields
    them), every funnel is checked to have a value, and the tanks are run in
    pour order. *)
Definition bind_funnels (self : Waterwork) (funnel_dict : list (pykey * val)) : M unit :=
  for_each funnel_dict (fun '(ph, v) => bind_funnel self ph v).

Definition pour_tanks (self : Waterwork) : M unit :=
  let! w := get in
  for_each (_pour_tank_order self w) pour_tank.

Definition run_pour (self : Waterwork) (funnel_dict : list (pykey * val)) : M unit :=
  bind_funnels self funnel_dict ;;
  check_funnels self ;;
  pour_tanks self.

(** [Waterwork.pour]. *)
Definition pour (self : Waterwork) (funnel_dict : list (pykey * val)) (key_type : string)
  : M (gmap pykey val) :=
  run_pour self funnel_dict ;;
  collect_taps self key_type.

(** [pour] without a [key_type]: the default of the source is ['tube']. *)
Definition pour_default (self : Waterwork) (funnel_dict : list (pykey * val)) : M (gmap pykey val) :=
  pour self funnel_dict "tube".

(** The first three steps of [pump]. *)
Definition bind_taps (self : Waterwork) (tap_dict : list (pykey * val)) : M unit :=
  for_each tap_dict (fun '(tap, v) => bind_tap self tap v).

Definition pump_tanks (self : Waterwork) : M unit :=
  let! w := get in
  for_each (_pump_tank_order self w) pump_tank.

Definition run_pump (self : Waterwork) (tap_dict : list (pykey * val)) : M unit :=
  bind_taps self tap_dict ;;
  check_taps self ;;
  pump_tanks self.

(** [Waterwork.pump]. *)
Definition pump (self : Waterwork) (tap_dict : list (pykey * val)) (key_type : string)
  : M (gmap pykey val) :=
  run_pump self tap_dict ;;
  collect_funnels self key_type.

(** [self.pump(self.pour(funnel_dict, key_type), key_type')]. *)
Definition pump_after_pour (self : Waterwork) (funnel_dict : list (pykey * val))
    (key_type key_type' : string) : M (gmap pykey val) :=
  let! tap_dict := pour self funnel_dict key_type in
  pump self (map_to_list tap_dict) key_type'.

(** [pump] without a [key_type]: the default of the source is ['slot']. *)
Definition pump_default (self : Waterwork) (tap_dict : list (pykey * val)) : M (gmap pykey val) :=
  pump self tap_dict "slot".

End Engine.

(** [self.pour(self.pump(tap_dict, key_type), key_type')]. *)
Definition pour_after_pump (sorted : (tank_id -> tank_id -> Z) -> list tank_id -> list tank_id)
    (self : Waterwork) (tap_dict : list (pykey * val)) (key_type key_type' : string)
  : M (gmap pykey val) :=
  let! funnel_dict := pump sorted self tap_dict key_type in
  pour sorted self (map_to_list funnel_dict) key_type'.

(** ** Composition of Waterworks *)

(** The Waterwork object behind a reference, and an update of it in place. *)
Definition get_ww (w : World) (i : ww_id) : Waterwork :=
  default (new_waterwork "") (w_waterworks w !! i).

Definition update_ww (i : ww_id) (f : Waterwork -> Waterwork) : M unit :=
  modify (with_waterworks (alter f i)).

(** The four dictionaries of a Waterwork that hold slots or tubes, as
    [getattr(w, d_name)] selects them. *)
Inductive part_dict := Funnels | Taps | Slots | Tubes.

Definition getattr (d : part_dict) (ww : Waterwork) : gmap string (tank_id * string) :=
  match d with
  | Funnels => funnels ww
  | Taps => taps ww
  | Slots => slots ww
  | Tubes => tubes ww
  end.

Definition setattr (d : part_dict) (m : gmap string (tank_id * string)) (ww : Waterwork) : Waterwork :=
  {| funnels := if d is Funnels then m else funnels ww;
     tubes := if d is Tubes then m else tubes ww;
     slots := if d is Slots then m else slots ww;
     tanks := tanks ww;
     taps := if d is Taps then m else taps ww;
     placeholders := placeholders ww;
     ww_name := ww_name ww |}.

Definition set_tanks (m : gmap string tank_id) (ww : Waterwork) : Waterwork :=
  {| funnels := funnels ww; tubes := tubes ww; slots := slots ww; tanks := m;
     taps := taps ww; placeholders := placeholders ww; ww_name := ww_name ww |}.

(** [del getattr(i, d)[key]]: a [KeyError] when the key is not there. *)
Definition del_item (i : ww_id) (d : part_dict) (key : string) : M unit :=
  let! w := get in
  match getattr d (get_ww w i) !! key with
  | Some _ => update_ww i (fun ww => setattr d (delete key (getattr d ww)) ww)
  | None => raise KeyError
  end.

(** Assignments to the attributes of a slot, a tube and a placeholder. *)
Definition slot_set_tube (s : slot_ref) (t : option tube_ref) : World -> World :=
  with_slots (alter (fun o => {| slot_tube := t; slot_val := slot_val o; slot_name := slot_name o;
                                 slot_waterwork := slot_waterwork o |}) s).

Definition slot_set_home (s : slot_ref) (ww : ww_id) (name : string) : World -> World :=
  with_slots (alter (fun o => {| slot_tube := slot_tube o; slot_val := slot_val o; slot_name := name;
                                 slot_waterwork := ww |}) s).

Definition tube_set_home (t : tube_obj) (ww : ww_id) (name : string) : World -> World :=
  with_tubes (alter (fun o => {| tube_slot := tube_slot o; tube_val := tube_val o; tube_name := name;
                                 tube_waterwork := ww |}) t).

Definition tube_ref_set_slot (t : tube_ref) (s : option slot_ref) : World -> World :=
  match t with
  | OfTank t k =>
      with_tubes (alter (fun o => {| tube_slot := s; tube_val := tube_val o; tube_name := tube_name o;
                                     tube_waterwork := tube_waterwork o |}) (t, k))
  | OfPlaceholder p =>
      with_placeholders (alter (fun o => {| ph_slot := s; ph_val := ph_val o; ph_name := ph_name o;
                                            ph_val_type := ph_val_type o;
                                            ph_val_dtype := ph_val_dtype o |}) p)
  end.

Definition tube_ref_name (w : World) (t : tube_ref) : string :=
  match t with
  | OfTank t k => tube_name_of w (t, k)
  | OfPlaceholder p => ph_name_of w p
  end.

(** [with Waterwork(name=name) as ww]: the object is created, then
    [__enter__] refuses to replace a default Waterwork that is set. The name
    space that [__enter__] also opens is not modelled: nothing below reads
    it. *)
Definition enter_waterwork (name : string) : M ww_id :=
  let! w := get in
  let ww := fresh (dom (w_waterworks w)) in
  modify (with_waterworks (insert ww (new_waterwork name))) ;;
  match default_waterwork w with
  | Some _ => raise ScopeConflict
  | None => modify (with_default (Some ww)) ;; ret ww
  end.

(** [Waterwork.__exit__]. *)
Definition exit_waterwork : World -> World := with_default None.

(** The dictionary [merge] builds from a dictionary [d] of slots or tubes:
    every part under the string of the pair of its new tank name and key. *)
Definition renamed_parts (w : World) (ww_name : string) (d : gmap string (tank_id * string))
  : gmap string (tank_id * string) :=
  foldl (fun new_d '(_, v) =>
           <[Py.str_tuple (Py.path_join ww_name (tank_name_of w v.1)) v.2 := v]> new_d)
        ∅ (map_to_list d).

Definition renamed_tanks (ww_name : string) (d : gmap string tank_id) : gmap string tank_id :=
  foldl (fun new_d '(k, v) => <[Py.path_join ww_name k := v]> new_d) ∅ (map_to_list d).

Section Composition.

Variable sorted : (tank_id -> tank_id -> Z) -> list tank_id -> list tank_id.

(** [Waterwork.merge]. [join_dict] is given as the list of its items. *)
Definition merge (self other : ww_id) (join_dict : list (slot_ref * tube_ref)) (name : string)
  : M ww_id :=
  let! w0 := get in
  if String.eqb (ww_name (get_ww w0 self)) (ww_name (get_ww w0 other)) then raise SameName
  else
    let! ww := enter_waterwork name in
    finally
      (for_each join_dict
         (fun '(slot, tube) =>
            modify (slot_set_tube slot (Some tube)) ;;
            modify (tube_ref_set_slot tube (Some slot)) ;;
            let! w := get in
            del_item self Taps (tube_ref_name w tube) ;;
            if tube is OfPlaceholder _ then ret tt
            else del_item other Funnels (slot_name_of w slot)) ;;
       for_each [self; other]
         (fun w_ =>
            for_each [Funnels; Taps; Slots; Tubes]
              (fun d_name =>
                 let! w := get in
                 let new_d := renamed_parts w (ww_name (get_ww w ww)) (getattr d_name (get_ww w w_)) in
                 update_ww ww (fun x => setattr d_name (new_d ∪ getattr d_name x) x)) ;;
            let! w := get in
            let new_d := renamed_tanks (ww_name (get_ww w ww)) (tanks (get_ww w w_)) in
            update_ww ww (fun x => set_tanks (new_d ∪ tanks x) x)) ;;
       let! w := get in
       let all_tanks :=
         (_pour_tank_order sorted (get_ww w self) w ++ _pour_tank_order sorted (get_ww w other) w)%list in
       for_each all_tanks
         (fun tank =>
            let! w := get in
            let tank_name := Py.path_join (ww_name (get_ww w ww)) (tank_name_of w tank) in
            for_each (tank_slots_of w tank)
              (fun slot_key => modify (slot_set_home (tank, slot_key) ww (Py.str_tuple tank_name slot_key))) ;;
            for_each (tank_tubes_of w tank)
              (fun tube_key => modify (tube_set_home (tank, tube_key) ww (Py.str_tuple tank_name tube_key)))) ;;
       for_each [self; other]
         (fun w_ =>
            update_ww w_
              (fun x => {| funnels := ∅; tubes := ∅; slots := ∅; tanks := ∅; taps := ∅;
                           placeholders := placeholders x; ww_name := ww_name x |})) ;;
       ret ww)
      exit_waterwork.

(** The constructors of [placeholder.py] and [tank.py], which are not among
    the sources: [Placeholder(val_type, val_dtype, val)] and
    [cls(name=..., **input_dict)], both acting on the default Waterwork. *)
Variable new_placeholder : string -> option string -> val -> M ph_id.
Variable new_tank : TankClass -> string -> gmap string tube_ref -> M tank_id.

(** The entry of [input_dict] that [combine] builds for one slot of a tank
    it copies; [joined] is [join_dict[slot]] when the slot is a key of
    [join_dict]. A slot that is linked to nothing has [slot.tube = None], of
    which the source reads the attribute [tank]. *)
Definition copied_input (ww : ww_id) (name : string) (joined : option tube_ref) (slot : slot_ref)
  : M tube_ref :=
  let! w := get in
  let lookup_tube (t : tank_id) (key : string) : M tube_ref :=
    let new_tube_name := Py.str_tuple (Py.path_join name (tank_name_of w t)) key in
    match tubes (get_ww w ww) !! new_tube_name with
    | Some tu => ret (OfTank tu.1 tu.2)
    | None => raise KeyError
    end in
  match joined with
  | Some (OfTank t key) => lookup_tube t key
  | Some (OfPlaceholder _) => raise AttributeError
  | None =>
      match slot_tube_of w slot with
      | Some (OfPlaceholder p) =>
          match w_placeholders w !! p with
          | Some o => let! p' := new_placeholder (ph_val_type o) (ph_val_dtype o) (ph_val o) in
                      ret (OfPlaceholder p')
          | None => raise AttributeError
          end
      | Some (OfTank t key) => lookup_tube t key
      | None => raise AttributeError
      end
  end.

(** The copy of one tank into the Waterwork under construction. *)
Definition copy_tank (ww : ww_id) (name : string) (join_dict : gmap slot_ref tube_ref) (tank : tank_id)
  : M unit :=
  let! w := get in
  let! input_dict :=
    foldl (fun acc slot_key =>
             let! input_dict := acc in
             let! i := copied_input ww name (join_dict !! (tank, slot_key)) (tank, slot_key) in
             ret (<[slot_key := i]> input_dict))
          (ret ∅) (tank_slots_of w tank) in
  match w_tanks w !! tank with
  | None => raise AttributeError
  | Some tk =>
      let! new := new_tank (tank_class tk) (Py.path_join name (tank_name tk)) input_dict in
      for_each (tank_slots_of w tank)
        (fun slot_key =>
           let! w' := get in
           if bool_decide (slot_key ∈ tank_slots_of w' new)
           then modify (slot_set_val (new, slot_key) (slot_get_val w' (tank, slot_key)))
           else raise KeyError) ;;
      for_each (tank_tubes_of w tank)
        (fun tube_key =>
           let! w' := get in
           if bool_decide (tube_key ∈ tank_tubes_of w' new)
           then modify (tube_set_val (new, tube_key) (tube_get_val w' (tank, tube_key)))
           else raise KeyError)
  end.

(** [Waterwork.combine]. The new Waterwork is created without a name. *)
Definition combine (self other : ww_id) (join_dict : list (slot_ref * tube_ref)) (name : string)
  : M ww_id :=
  let! w0 := get in
  if String.eqb (ww_name (get_ww w0 self)) (ww_name (get_ww w0 other)) then raise SameName
  else
    let! ww := enter_waterwork "" in
    finally
      (let! w := get in
       for_each (_pour_tank_order sorted (get_ww w self) w) (copy_tank ww name ∅) ;;
       let! w := get in
       for_each (_pour_tank_order sorted (get_ww w other) w)
         (copy_tank ww name (list_to_map (reverse join_dict))) ;;
       ret ww)
      exit_waterwork.

End Composition.

(** ** Looking a part up, and renaming a slot *)

(** Python's own exceptions, as the methods below raise them. *)
Inductive PyExn := PyTypeError | PyKeyError | PyValueError.

(** [Waterwork.get_placeholder]: as [maybe_get_placeholder], but an
    argument that gives no placeholder is a [TypeError]. *)
Definition get_placeholder (self : Waterwork) (arg : pykey) : PyExn + ph_id :=
  match arg with
  | KStr s =>
      match placeholders self !! s with
      | Some p => inr p
      | None => inl PyTypeError
      end
  | KPlaceholder p => inr p
  | _ => inl PyTypeError
  end.

(** The first step of [get_slot] and [get_tube]: [tank] is a string, looked
    up in [self.tanks], or a Tank object. *)
Definition tank_of_arg (self : Waterwork) (tank : string + tank_id) : PyExn + tank_id :=
  match tank with
  | inl n =>
      match tanks self !! n with
      | Some t => inr t
      | None => inl PyKeyError
      end
  | inr t => inr t
  end.

(** [Waterwork.get_slot]: [self.tanks[tank.name].slots[key]]. *)
Definition get_slot (self : Waterwork) (w : World) (tank : string + tank_id) (key : string)
  : PyExn + slot_ref :=
  match tank_of_arg self tank with
  | inl e => inl e
  | inr t =>
      match tanks self !! tank_name_of w t with
      | Some t' => if bool_decide (key ∈ tank_slots_of w t') then inr (t', key) else inl PyKeyError
      | None => inl PyKeyError
      end
  end.

(** [Waterwork.get_tube]: [self.tanks[tank.name].tubes[key]]. *)
Definition get_tube (self : Waterwork) (w : World) (tank : string + tank_id) (key : string)
  : PyExn + tube_obj :=
  match tank_of_arg self tank with
  | inl e => inl e
  | inr t =>
      match tanks self !! tank_name_of w t with
      | Some t' => if bool_decide (key ∈ tank_tubes_of w t') then inr (t', key) else inl PyKeyError
      | None => inl PyKeyError
      end
  end.

(** [Slot.get_tuple]. *)
Definition get_tuple (w : World) (self : slot_ref) : pykey :=
  KTuple (tank_name_of w self.1) self.2.

(** The assignment [self.name = name] on a slot, and [self.waterwork]. *)
Definition slot_with_name (name : string) (o : Slot) : Slot :=
  {| slot_tube := slot_tube o; slot_val := slot_val o; slot_name := name;
     slot_waterwork := slot_waterwork o |}.

Definition slot_waterwork_of (w : World) (s : slot_ref) : ww_id :=
  default 0 (slot_waterwork <$> w_slots w !! s).

(** The name [Slot.set_name] gives for [name]: [name] itself when it starts
    with the string of the name space, joined to that string otherwise. *)
Definition qualified (name_space name : string) : string :=
  if String.prefix name_space name then name else Py.path_join name_space name.

(** [Slot.set_name] for a [name] that is a string. [name_space] is
    [self.name_space._get_name_string()] ([name_space.py] is not among the
    sources). The slot takes the new name first; the name is then refused
    when it is a key of the slots of the Waterwork of the slot, and
    otherwise the entry of the slot, and that of the funnel if there is one,
    moves from the old name to the new one. *)
Definition set_name (name_space : string) (self : slot_ref) (name : string) (w : World)
  : (PyExn + unit) * World :=
  let old_name := slot_name_of w self in
  let name := qualified name_space name in
  let w := with_slots (alter (slot_with_name name) self) w in
  let ww := slot_waterwork_of w self in
  if bool_decide (is_Some (slots (get_ww w ww) !! name)) then (inl PyValueError, w)
  else if bool_decide (is_Some (slots (get_ww w ww) !! old_name)) then
    let w :=
      with_waterworks
        (alter (fun x => setattr Slots (<[name := self]> (delete old_name (slots x))) x) ww) w in
    if bool_decide (is_Some (funnels (get_ww w ww) !! old_name)) then
      (inr tt,
       with_waterworks
         (alter (fun x => setattr Funnels (<[name := self]> (delete old_name (funnels x))) x)
            ww) w)
    else (inr tt, w)
  else (inl PyKeyError, w).

(** ** The datetime transform: fitting *)

Module DateTime.

(** What [calc_global_values] uses of numpy. [F] is [float64]; a dataset is
    the list of its entries along the first axis (so that [len] is the
    length of the list), an entry being a datetime or a sub-array. A
    reduction returns a scalar when every axis is reduced ([axis=None], or
    the only axis of a one-dimensional array) and an array otherwise, given
    here by the list of its elements. *)
Inductive stat (F : Type) :=
| Scalar (x : F)
| Array (xs : list F).
Arguments Scalar {F} x.
Arguments Array {F} xs.

Class Numpy := {
  F : Type;
  F0 : F;
  F1 : F;
  Feqb : F -> F -> bool;
  Fadd : F -> F -> F;
  row : Type;
  frow : Type;
  dtype_of : list row -> string;
  (** One entry of
      [((array - zero_datetime) / np.timedelta64(num_units, time_unit)).astype(dtype)],
      an elementwise operation. *)
  to_num : string -> Z -> string -> string -> row -> frow;
  nanmean : list frow -> option Z -> stat F;
  nanstd : list frow -> option Z -> stat F;
  nanmin : list frow -> option Z -> stat F;
  nanmax : list frow -> option Z -> stat F;
  str_stat : stat F -> string
}.

(** [norm_mode]: [None], ['min_max'] or ['mean_std'] ([_setattributes]
    refuses any other value). *)
Inductive norm_mode_t := NormNone | MinMax | MeanStd.

Record DateTimeTransform `{Numpy} := {
  norm_mode : norm_mode_t;
  norm_axis : option Z;
  num_units : Z;
  time_unit : string;
  name : string;
  mean : option (stat F);
  std : option (stat F);
  min : option (stat F);
  max : option (stat F);
  dtype : string;
  input_dtype : option string;
  zero_datetime : string
}.

Inductive Exn :=
| EmptyFit          (** [ValueError]: the dataset has no entry *)
| TypeError         (** item assignment on a numpy scalar *)
| AmbiguousTruth.   (** [ValueError]: truth value of an array of several elements *)

Section CalcGlobalValues.
Context `{Numpy}.

(** [(s == x).any()] for a number [x]. *)
Definition any_eq (s : stat F) (x : F) : bool :=
  match s with
  | Scalar y => Feqb y x
  | Array ys => existsb (fun y => Feqb y x) ys
  end.

(** [s[s == x] = y]: numpy scalars do not support item assignment. *)
Definition assign_where_eq (s : stat F) (x y : F) : Exn + stat F :=
  match s with
  | Scalar _ => inl TypeError
  | Array ys => inr (Array ((fun z => if Feqb z x then y else z) <$> ys))
  end.

(** The truth value of [a == b] in an [if]: the comparison itself for two
    scalars; for arrays the one element of the result, [False] when it has
    none, and an error when it has several. *)
Definition truth_of_eq (a b : stat F) : Exn + bool :=
  let truth (bs : list bool) : Exn + bool :=
    match bs with
    | [] => inr false
    | [b] => inr b
    | _ => inl AmbiguousTruth
    end in
  match a, b with
  | Scalar x, Scalar y => inr (Feqb x y)
  | Array xs, Array ys => truth (zip_with Feqb xs ys)
  | Scalar x, Array ys => truth (Feqb x <$> ys)
  | Array xs, Scalar y => truth ((fun x => Feqb x y) <$> xs)
  end.

(** [s + 1]. *)
Definition add_one (s : stat F) : stat F :=
  match s with
  | Scalar x => Scalar (Fadd x F1)
  | Array xs => Array ((fun x => Fadd x F1) <$> xs)
  end.

Definition set_input_dtype (d : string) (self : DateTimeTransform) : DateTimeTransform :=
  {| norm_mode := norm_mode self; norm_axis := norm_axis self; num_units := num_units self;
     time_unit := time_unit self; name := name self; mean := mean self; std := std self;
     min := min self; max := max self; dtype := dtype self; input_dtype := Some d;
     zero_datetime := zero_datetime self |}.

Definition set_mean_std (m s : stat F) (self : DateTimeTransform) : DateTimeTransform :=
  {| norm_mode := norm_mode self; norm_axis := norm_axis self; num_units := num_units self;
     time_unit := time_unit self; name := name self; mean := Some m; std := Some s;
     min := min self; max := max self; dtype := dtype self; input_dtype := input_dtype self;
     zero_datetime := zero_datetime self |}.

Definition set_min_max (lo hi : stat F) (self : DateTimeTransform) : DateTimeTransform :=
  {| norm_mode := norm_mode self; norm_axis := norm_axis self; num_units := num_units self;
     time_unit := time_unit self; name := name self; mean := mean self; std := std self;
     min := Some lo; max := Some hi; dtype := dtype self; input_dtype := input_dtype self;
     zero_datetime := zero_datetime self |}.

Definition zero_std_warning (self : DateTimeTransform) : string :=
  "DatetimeTransform " ++ name self ++ " has a zero-valued std, replacing with 1.".

Definition same_min_max_warning (self : DateTimeTransform) (lo hi : stat F) : string :=
  "DatetimeTransform " ++ name self ++ " the same values for min and max, replacing with "
    ++ str_stat lo ++ " " ++ str_stat hi ++ " respectively.".

(** The outcome of [calc_global_values]: whether it raised, the transform as
    it was left, and the warnings issued, in order. *)
Record outcome := {
  raised : option Exn;
  after : DateTimeTransform;
  warnings : list string
}.

(** [DateTimeTransform.calc_global_values]. *)
Definition calc_global_values (self : DateTimeTransform) (array : list row) (verbose : bool)
  : outcome :=
  let self := set_input_dtype (dtype_of array) self in
  match norm_mode self with
  | MeanStd =>
      let temp_array :=
        to_num (zero_datetime self) (num_units self) (time_unit self) (dtype self) <$> array in
      if bool_decide (length temp_array = 0) then
        {| raised := Some EmptyFit; after := self; warnings := [] |}
      else
        let m := nanmean temp_array (norm_axis self) in
        let s := nanstd temp_array (norm_axis self) in
        let self := set_mean_std m s self in
        if any_eq s F0 then
          let ws := if verbose then [zero_std_warning self] else [] in
          match assign_where_eq s F0 F1 with
          | inl e => {| raised := Some e; after := self; warnings := ws |}
          | inr s' => {| raised := None; after := set_mean_std m s' self; warnings := ws |}
          end
        else {| raised := None; after := self; warnings := [] |}
  | MinMax =>
      let temp_array :=
        to_num (zero_datetime self) (num_units self) (time_unit self) (dtype self) <$> array in
      if bool_decide (length temp_array = 0) then
        {| raised := Some EmptyFit; after := self; warnings := [] |}
      else
        let lo := nanmin temp_array (norm_axis self) in
        let hi := nanmax temp_array (norm_axis self) in
        let self := set_min_max lo hi self in
        match truth_of_eq lo hi with
        | inl e => {| raised := Some e; after := self; warnings := [] |}
        | inr true =>
            let hi' := add_one hi in
            let self := set_min_max lo hi' self in
            {| raised := None; after := self;
               warnings := if verbose then [same_min_max_warning self lo hi'] else [] |}
        | inr false => {| raised := None; after := self; warnings := [] |}
        end
  | NormNone => {| raised := None; after := self; warnings := [] |}
  end.

End CalcGlobalValues.

(** *** An instance to run the fitting step

    A small [Numpy] on binary64 numbers for datasets of two dimensions: an
    entry of the dataset is a row of numbers (the datetimes, already counted
    in time units from the zero datetime). NaN entries are skipped by the
    reductions. *)
Definition is_nan (x : float) : bool := negb (PrimFloat.eqb x x).

Definition non_nan (l : list float) : list float :=
  omap (fun x => if is_nan x then None else Some x) l.

Definition fsum (l : list float) : float := foldl PrimFloat.add 0%float l.

Definition fmean (l : list float) : float :=
  let l := non_nan l in
  PrimFloat.div (fsum l) (PrimFloat.of_uint63 (Uint63.of_Z (Z.of_nat (length l)))).

Definition fstd (l : list float) : float :=
  let m := fmean l in
  PrimFloat.sqrt (fmean ((fun x => PrimFloat.mul (PrimFloat.sub x m) (PrimFloat.sub x m)) <$> non_nan l)).

Definition fmin (l : list float) : float :=
  match non_nan l with
  | [] => PrimFloat.nan
  | x :: l' => foldl (fun a y => if PrimFloat.ltb y a then y else a) x l'
  end.

Definition fmax (l : list float) : float :=
  match non_nan l with
  | [] => PrimFloat.nan
  | x :: l' => foldl (fun a y => if PrimFloat.ltb a y then y else a) x l'
  end.

Fixpoint columns (rows : list (list float)) : list (list float) :=
  match rows with
  | [] => []
  | [r] => (fun x => [x]) <$> r
  | r :: rs => zip_with cons r (columns rs)
  end.

(** A reduction over every axis ([None]), over the rows (axis 0) or within
    each row (any other axis). *)
Definition reduce (f : list float -> float) (a : list (list float)) (axis : option Z)
  : stat float :=
  match axis with
  | None => Scalar (f (concat a))
  | Some 0%Z => Array (f <$> columns a)
  | Some _ => Array (f <$> a)
  end.

Definition toy_numpy : Numpy :=
  {| F := float; F0 := 0%float; F1 := 1%float; Feqb := PrimFloat.eqb; Fadd := PrimFloat.add;
     row := list float; frow := list float;
     dtype_of := fun _ => "datetime64[D]";
     to_num := fun _ _ _ _ r => r;
     nanmean := reduce fmean; nanstd := reduce fstd;
     nanmin := reduce fmin; nanmax := reduce fmax;
     str_stat := fun _ => "" |}.

(** A transform as [_setattributes] leaves it, with the defaults of
    [attribute_dict] but for the mode and the axis. *)
Definition new_transform `{Numpy} (mode : norm_mode_t) (axis : option Z) : DateTimeTransform :=
  {| norm_mode := mode; norm_axis := axis; num_units := 1; time_unit := "D"; name := "";
     mean := None; std := None; min := None; max := None; dtype := "float64";
     input_dtype := None; zero_datetime := "1970-01-01" |}.

End DateTime.

(** ** Concrete Waterworks *)

(** Modelled from the spec: the Clone tank ([tanks/clone.py] is not among
    the sources): "Slots [{a}], tubes [{a, b}], both equal to the input";
    [pump] gives the slot back from tube [a]. A missing argument is an
    exception. *)
Definition Clone : TankClass :=
  {| cls_name := "Clone";
     _pour := fun kwargs => a ← kwargs !! "a"; Some (<["a" := a]> (<["b" := a]> ∅));
     _pump := fun kwargs => a ← kwargs !! "a"; Some (<["a" := a]> ∅) |}.

Definition clone_tank (name : string) : Tank :=
  {| tank_name := name; tank_class := Clone; tank_slots := ["a"]; tank_tubes := ["a"; "b"] |}.

(** A slot and a tube under their default names (as [Slot._get_default_name]
    builds them), holding no value. *)
Definition mk_slot (ww : ww_id) (tank key : string) (tube : option tube_ref) : Slot :=
  {| slot_tube := tube; slot_val := None;
     slot_name := Py.path_join (Py.path_join tank "slots") key; slot_waterwork := ww |}.

Definition mk_tube (ww : ww_id) (tank key : string) (slot : option slot_ref) : Tube :=
  {| tube_slot := slot; tube_val := None;
     tube_name := Py.path_join (Py.path_join tank "tubes") key; tube_waterwork := ww |}.

(** Three Clone tanks [ww/a], [ww/b] and [ww/c] (tanks 0, 1 and 2): tube [a]
    of [ww/a] feeds the slot of [ww/c], and [ww/b] stands alone. The funnels
    are the slots of [ww/a] and [ww/b]. *)
Definition three_clones : Waterwork :=
  {| funnels := list_to_map [("ww/a/slots/a", (0, "a")); ("ww/b/slots/a", (1, "a"))];
     slots := list_to_map [("ww/a/slots/a", (0, "a")); ("ww/b/slots/a", (1, "a"));
                           ("ww/c/slots/a", (2, "a"))];
     tubes := list_to_map [("ww/a/tubes/a", (0, "a")); ("ww/a/tubes/b", (0, "b"));
                           ("ww/b/tubes/a", (1, "a")); ("ww/b/tubes/b", (1, "b"));
                           ("ww/c/tubes/a", (2, "a")); ("ww/c/tubes/b", (2, "b"))];
     taps := list_to_map [("ww/a/tubes/b", (0, "b"));
                          ("ww/b/tubes/a", (1, "a")); ("ww/b/tubes/b", (1, "b"));
                          ("ww/c/tubes/a", (2, "a")); ("ww/c/tubes/b", (2, "b"))];
     tanks := list_to_map [("ww/a", 0); ("ww/b", 1); ("ww/c", 2)];
     placeholders := ∅;
     ww_name := "ww" |}.

Definition three_clones_world : World :=
  {| w_tanks := list_to_map [(0, clone_tank "ww/a"); (1, clone_tank "ww/b"); (2, clone_tank "ww/c")];
     w_slots := list_to_map [((0, "a"), mk_slot 0 "ww/a" "a" None);
                             ((1, "a"), mk_slot 0 "ww/b" "a" None);
                             ((2, "a"), mk_slot 0 "ww/c" "a" (Some (OfTank 0 "a")))];
     w_tubes := list_to_map [((0, "a"), mk_tube 0 "ww/a" "a" (Some (2, "a")));
                             ((0, "b"), mk_tube 0 "ww/a" "b" None);
                             ((1, "a"), mk_tube 0 "ww/b" "a" None);
                             ((1, "b"), mk_tube 0 "ww/b" "b" None);
                             ((2, "a"), mk_tube 0 "ww/c" "a" None);
                             ((2, "b"), mk_tube 0 "ww/c" "b" None)];
     w_placeholders := ∅;
     w_waterworks := {[ 0 := three_clones ]};
     default_waterwork := None |}.

(** The funnel values [a = 1] and [b = 2] for [three_clones]. *)
Definition three_clones_input : list (pykey * val) :=
  [(KStr "ww/a/slots/a", Some (PInt 1)); (KStr "ww/b/slots/a", Some (PInt 2))].

(** One Clone tank whose slot is a funnel. *)
Definition one_clone : Waterwork :=
  {| funnels := {[ "A/c/slots/a" := (0, "a") ]};
     slots := {[ "A/c/slots/a" := (0, "a") ]};
     tubes := list_to_map [("A/c/tubes/a", (0, "a")); ("A/c/tubes/b", (0, "b"))];
     taps := list_to_map [("A/c/tubes/a", (0, "a")); ("A/c/tubes/b", (0, "b"))];
     tanks := {[ "A/c" := 0 ]};
     placeholders := ∅;
     ww_name := "A" |}.

Definition one_clone_world : World :=
  {| w_tanks := {[ 0 := clone_tank "A/c" ]};
     w_slots := {[ (0, "a") := mk_slot 0 "A/c" "a" None ]};
     w_tubes := list_to_map [((0, "a"), mk_tube 0 "A/c" "a" None);
                             ((0, "b"), mk_tube 0 "A/c" "b" None)];
     w_placeholders := ∅;
     w_waterworks := {[ 0 := one_clone ]};
     default_waterwork := None |}.

(** Two Waterworks in one store. [A] (Waterwork 0) has the Clone tank [A/c]
    (tank 0), whose slot is fed by the placeholder [A/input]; [B]
    (Waterwork 1) has the Clone tank [B/d] (tank 1), whose slot is a
    funnel. *)
Definition fed_clone : Waterwork :=
  {| funnels := {[ "A/c/slots/a" := (0, "a") ]};
     slots := {[ "A/c/slots/a" := (0, "a") ]};
     tubes := list_to_map [("A/c/tubes/a", (0, "a")); ("A/c/tubes/b", (0, "b"))];
     taps := list_to_map [("A/c/tubes/a", (0, "a")); ("A/c/tubes/b", (0, "b"))];
     tanks := {[ "A/c" := 0 ]};
     placeholders := {[ "A/input" := 0 ]};
     ww_name := "A" |}.

Definition free_clone : Waterwork :=
  {| funnels := {[ "B/d/slots/a" := (1, "a") ]};
     slots := {[ "B/d/slots/a" := (1, "a") ]};
     tubes := list_to_map [("B/d/tubes/a", (1, "a")); ("B/d/tubes/b", (1, "b"))];
     taps := list_to_map [("B/d/tubes/a", (1, "a")); ("B/d/tubes/b", (1, "b"))];
     tanks := {[ "B/d" := 1 ]};
     placeholders := ∅;
     ww_name := "B" |}.

Definition two_waterworks : World :=
  {| w_tanks := list_to_map [(0, clone_tank "A/c"); (1, clone_tank "B/d")];
     w_slots := list_to_map [((0, "a"), mk_slot 0 "A/c" "a" (Some (OfPlaceholder 0)));
                             ((1, "a"), mk_slot 1 "B/d" "a" None)];
     w_tubes := list_to_map [((0, "a"), mk_tube 0 "A/c" "a" None);
                             ((0, "b"), mk_tube 0 "A/c" "b" None);
                             ((1, "a"), mk_tube 1 "B/d" "a" None);
                             ((1, "b"), mk_tube 1 "B/d" "b" None)];
     w_placeholders := {[ 0 := {| ph_slot := Some (0, "a"); ph_val := None; ph_name := "A/input";
                                   ph_val_type := "int"; ph_val_dtype := None |} ]};
     w_waterworks := list_to_map [(0, fed_clone); (1, free_clone)];
     default_waterwork := None |}.

(** The funnel value [a = 1] for [one_clone], and values for its two
    taps. *)
Definition one_clone_input : list (pykey * val) := [(KStr "A/c/slots/a", Some (PInt 1))].
Definition one_clone_taps : list (pykey * val) :=
  [(KStr "A/c/tubes/a", Some (PInt 1)); (KStr "A/c/tubes/b", Some (PInt 1))].

(** The outcome of a call that returns a dictionary: the exception, or the
    items of the dictionary. *)
Definition items_of {K V} `{Countable K} (r : (Exn + gmap K V) * World) : Exn + list (K * V) :=
  match r.1 with
  | inl e => inl e
  | inr d => inr (map_to_list d)
  end.

(** ** Properties *)

(** A list of tanks is a topological order for [deps] when every dependency
    of a tank of the list stands before it. *)
Definition topological (deps : tank_id -> gset tank_id) (order : list tank_id) : Prop :=
  forall i a b, order !! i = Some a -> b ∈ deps a -> exists j, (j < i)%nat /\ order !! j = Some b.

(** The store with every stored value forgotten: two stores hold the same
    graph, whatever values runs have left in them, when they agree once the
    values are forgotten. *)
Definition erase (w : World) : World :=
  {| w_tanks := w_tanks w;
     w_slots := slot_with_val None <$> w_slots w;
     w_tubes := tube_with_val None <$> w_tubes w;
     w_placeholders := ph_with_val None <$> w_placeholders w;
     w_waterworks := w_waterworks w;
     default_waterwork := default_waterwork w |}.

Definition same_graph (w1 w2 : World) : Prop := erase w1 = erase w2.

(** A computation that changes nothing but stored values. *)
Definition only_values {A} (c : M A) : Prop := forall w, erase (c w).2 = erase w.

(** The dictionaries of the Waterwork are consistent: every funnel and every
    slot of a tank of the Waterwork is in [slots], and every tap is in
    [tubes]. *)
Definition consistent (self : Waterwork) (w : World) : Prop :=
  Forall (fun s => s ∈ (map_to_list (slots self)).*2) (map_to_list (funnels self)).*2
  /\ Forall (fun t => Forall (fun k => (t, k) ∈ (map_to_list (slots self)).*2) (tank_slots_of w t))
       (map_to_list (tanks self)).*2
  /\ Forall (fun t => t ∈ (map_to_list (tubes self)).*2) (map_to_list (taps self)).*2.

(** Two stores of the same graph, with consistent dictionaries, that hold the
    same values in the slots and tubes of the dictionaries of the
    Waterwork. *)
Definition agree (self : Waterwork) (w1 w2 : World) : Prop :=
  consistent self w1
  /\ same_graph w1 w2
  /\ (forall s, s ∈ (map_to_list (slots self)).*2 -> slot_get_val w1 s = slot_get_val w2 s)
  /\ (forall t, t ∈ (map_to_list (tubes self)).*2 -> tube_get_val w1 t = tube_get_val w2 t).

(** Two computations that, from stores that agree, have the same outcome and
    leave stores that agree. *)
Definition alike (self : Waterwork) {A} (c1 c2 : M A) : Prop :=
  forall w1 w2, agree self w1 w2 -> (c1 w1).1 = (c2 w2).1 /\ agree self (c1 w1).2 (c2 w2).2.

(** A key of [funnel_dict] that names no part [pour] binds: a string that is
    the name of no placeholder and of no slot of the Waterwork, a pair of a
    tank of the Waterwork and a key that is not a slot of it, or a Slot or
    Tube object. *)
Definition unresolved (self : Waterwork) (w : World) (k : pykey) : Prop :=
  match k with
  | KStr s => placeholders self !! s = None /\ slots self !! s = None
  | KTuple tank key => exists t, tanks self !! tank = Some t /\ key ∉ tank_slots_of w t
  | KSlot _ | KTube _ => True
  | KPlaceholder _ => False
  end.

(** The dependencies [deps] among the tanks [l] stay within [l] and hold no
    tank that depends on itself and no two tanks that depend on each
    other. *)
Definition acyclic_pairs (deps : tank_id -> gset tank_id) (l : list tank_id) : Prop :=
  Forall (fun a => Forall (fun b => b ∈ l /\ b <> a /\ a ∉ deps b) (elements (deps a))) l.

(** The tanks [ww/a] and [ww/c] of [three_clones_world] as a Waterwork of
    their own: the slot of [ww/c] is fed by [ww/a]. *)
Definition chain_of_two : Waterwork :=
  {| funnels := {[ "ww/a/slots/a" := (0, "a") ]};
     slots := list_to_map [("ww/a/slots/a", (0, "a")); ("ww/c/slots/a", (2, "a"))];
     tubes := list_to_map [("ww/a/tubes/a", (0, "a")); ("ww/a/tubes/b", (0, "b"));
                           ("ww/c/tubes/a", (2, "a")); ("ww/c/tubes/b", (2, "b"))];
     taps := list_to_map [("ww/a/tubes/b", (0, "b"));
                          ("ww/c/tubes/a", (2, "a")); ("ww/c/tubes/b", (2, "b"))];
     tanks := list_to_map [("ww/a", 0); ("ww/c", 2)];
     placeholders := ∅;
     ww_name := "ww" |}.

(** A computation that leaves the [placeholders] dictionary of every
    Waterwork as it is. *)
Definition keeps_placeholders {A} (c : M A) : Prop :=
  forall w i, placeholders (get_ww (c w).2 i) = placeholders (get_ww w i).

(** What [merge] leaves of an operand: its five dictionaries of parts are
    emptied, its placeholders and its name stay. *)
Definition emptied (x : Waterwork) : Waterwork :=
  {| funnels := ∅; tubes := ∅; slots := ∅; tanks := ∅; taps := ∅;
     placeholders := placeholders x; ww_name := ww_name x |}.

(** A Waterwork none of whose five dictionaries of parts holds a part. *)
Definition has_no_parts (x : Waterwork) : Prop :=
  funnels x = ∅ /\ slots x = ∅ /\ tubes x = ∅ /\ tanks x = ∅ /\ taps x = ∅.

(** The slots of Waterwork [ww] are registered under their names, and its
    funnels are among its slots, under the same keys. *)
Definition registered (w : World) (ww : ww_id) : Prop :=
  map_Forall (fun k s => slot_name_of w s = k) (slots (get_ww w ww))
  /\ map_Forall (fun k s => slots (get_ww w ww) !! k = Some s) (funnels (get_ww w ww)).

#[global] Instance payload_eq_dec : EqDecision payload.
Proof. solve_decision. Defined.

(** What the tank [t] gives in the pour direction for the values its slots
    hold in [w]: the dictionary of its [_pour], empty when there is none. *)
Definition poured (w : World) (t : tank_id) : gmap string val :=
  default ∅ (w_tanks w !! t ≫= (fun tk => _pour (tank_class tk) (slot_kwargs w t))).

(** What a step that moves no tank leaves: the tanks themselves, and for
    every Waterwork its dictionary of tanks, its name and its presence in
    the store. *)
Definition tanks_kept (w w' : World) : Prop :=
  w_tanks w' = w_tanks w
  /\ forall i, tanks (get_ww w' i) = tanks (get_ww w i)
               /\ ww_name (get_ww w' i) = ww_name (get_ww w i)
               /\ (is_Some (w_waterworks w !! i) -> is_Some (w_waterworks w' !! i)).

Definition keeps_tanks {A} (c : M A) : Prop := forall w, tanks_kept w (c w).2.

(** The slots of [w] are still slots of [w']. *)
Definition slots_kept (w w' : World) : Prop :=
  forall s, is_Some (w_slots w !! s) -> is_Some (w_slots w' !! s).

Definition keeps_slots {A} (c : M A) : Prop := forall w, slots_kept w (c w).2.

(** The Waterwork a slot belongs to and the name it has, as [merge] sets
    them for the slot of key [s.2] of tank [s.1]. *)
Definition merged_slot_name (name : string) (w : World) (s : slot_ref) : string :=
  Py.str_tuple (Py.path_join name (tank_name_of w s.1)) s.2.

(** What the tank [t] gives in the pump direction for the values its tubes
    hold in [w]. *)
Definition pumped (w : World) (t : tank_id) : gmap string val :=
  default ∅ (w_tanks w !! t ≫= (fun tk => _pump (tank_class tk) (tube_kwargs w t))).

(** [get_val] on what a slot is linked to, and whether the store holds
    it. *)
Definition tube_ref_get_val (w : World) (t : tube_ref) : val :=
  match t with
  | OfTank t k => tube_get_val w (t, k)
  | OfPlaceholder p => ph_get_val w p
  end.

Definition tube_ref_in (w : World) (t : tube_ref) : Prop :=
  match t with
  | OfTank t k => is_Some (w_tubes w !! (t, k))
  | OfPlaceholder p => is_Some (w_placeholders w !! p)
  end.

#[global] Instance tube_ref_eq_dec : EqDecision tube_ref.
Proof. solve_decision. Defined.

#[global] Instance tube_ref_in_dec (w : World) (t : tube_ref) : Decision (tube_ref_in w t).
Proof. destruct t; apply _. Defined.

(** No two tanks of the operands of a [merge] called with [name] come under
    one key of the new Waterwork: two entries of the dictionaries [d1] and
    [d2] whose keys [os.path.join] sends to the same key hold the same
    tank. *)
Definition no_tank_collision (name : string) (d1 d2 : gmap string tank_id) : Prop :=
  let l := (map_to_list d1 ++ map_to_list d2)%list in
  Forall (fun x => Forall (fun y => Py.path_join name x.1 = Py.path_join name y.1 -> x.2 = y.2) l)
    l.

(** A part of the graph that holds a value. *)
Inductive part :=
| PSlot (s : slot_ref)
| PTube (t : tube_obj)
| PPlaceholder (p : ph_id).

#[global] Instance part_eq_dec : EqDecision part.
Proof. solve_decision. Defined.

Definition part_of_tube_ref (t : tube_ref) : part :=
  match t with
  | OfTank t k => PTube (t, k)
  | OfPlaceholder p => PPlaceholder p
  end.

(** [o.set_val(v)] on a part, and on the parts of a list, first to last. *)
Definition part_set_val (v : val) (x : part) : World -> World :=
  match x with
  | PSlot s => slot_set_val s v
  | PTube t => tube_set_val t v
  | PPlaceholder p => ph_set_val p v
  end.

Definition parts_set_val (v : val) (l : list part) (w : World) : World :=
  foldl (fun w x => part_set_val v x w) w l.

(** The parts the binding step of [pour] writes the value of the key [k]
    to, in the order it writes them: a placeholder and the slot it feeds, or
    a slot and what it is linked to; none when the key names no part. *)
Definition written (self : Waterwork) (w : World) (k : pykey) : list part :=
  match maybe_get_slot self w k with
  | inl _ => []
  | inr sl_obj =>
      match maybe_get_placeholder self k, sl_obj with
      | Some p, _ =>
          PPlaceholder p :: match ph_slot_of w p with Some s => [PSlot s] | None => [] end
      | None, Some s =>
          PSlot s :: match slot_tube_of w s with Some t => [part_of_tube_ref t] | None => [] end
      | None, None => []
      end
  end.

(** Every key of the items [fd] names a part, and no part is written for
    two of the keys. *)
Definition each_part_once (self : Waterwork) (w : World) (fd : list (pykey * val)) : Prop :=
  Forall (fun kv => written self w kv.1 <> []) fd
  /\ NoDup (fd ≫= (fun kv => written self w kv.1)).

(** What a call that fails before it starts leaves of the store [w]: the
    default Waterwork, every part and every Waterwork of [w] are in [w'] as
    they were. *)
Definition untouched (w w' : World) : Prop :=
  default_waterwork w' = default_waterwork w
  /\ w_tanks w' = w_tanks w /\ w_slots w' = w_slots w /\ w_tubes w' = w_tubes w
  /\ w_placeholders w' = w_placeholders w
  /\ (forall i o, w_waterworks w !! i = Some o -> w_waterworks w' !! i = Some o).

#[global] Instance Exn_eq_dec : EqDecision Exn.
Proof. solve_decision. Defined.

(** A key of [tap_dict] that names no tube [pump] binds: a string that is
    the name of no tube of the Waterwork, a pair whose tank is not in the
    Waterwork or whose key is no tube of the tank, or any object (a Tube
    object included). *)
Definition unknown_tap (self : Waterwork) (w : World) (k : pykey) : Prop :=
  match k with
  | KStr s => tubes self !! s = None
  | KTuple tank key =>
      match tanks self !! tank with
      | Some t => key ∉ tank_tubes_of w t
      | None => True
      end
  | KSlot _ | KTube _ | KPlaceholder _ => True
  end.

(** *** The monad *)

Lemma bind_ok {A B} (c : M A) (k : A -> M B) (w : World) (a : A) :
  (c w).1 = inr a -> bind c k w = k a (c w).2.
Proof. unfold bind. destruct (c w) as [[e|a'] w']; simpl; congruence. Qed.

Lemma bind_raise {A B} (c : M A) (k : A -> M B) (w : World) (e : Exn) :
  (c w).1 = inl e -> bind c k w = (inl e, (c w).2).
Proof. unfold bind. destruct (c w) as [[e'|a] w']; simpl; congruence. Qed.

Lemma for_each_app {A} (l1 l2 : list A) (body : A -> M unit) (w : World) :
  for_each (l1 ++ l2) body w = bind (for_each l1 body) (fun _ => for_each l2 body) w.
Proof.
  revert w. induction l1 as [|x l1 IH]; intros w; simpl.
  - reflexivity.
  - unfold bind. destruct (body x w) as [[e|[]] w']; [reflexivity|].
    rewrite IH. reflexivity.
Qed.

Lemma for_each_ext {A} (l : list A) (f g : A -> M unit) :
  (forall x w, f x w = g x w) -> forall w, for_each l f w = for_each l g w.
Proof.
  intros Hfg. induction l as [|x l IH]; intros w; simpl; [reflexivity|].
  unfold bind. rewrite Hfg. destruct (g x w) as [[e|[]] w']; [reflexivity|]. apply IH.
Qed.

(** A loop that only tests raises at the first element that fails, and
    leaves the store as it is. *)
Lemma for_each_check {A} (l : list A) (bad : A -> bool) (e : Exn) (w : World) :
  for_each l (fun x => if bad x then raise e else ret tt) w
  = (if existsb bad l then inl e else inr tt, w).
Proof.
  induction l as [|x l IH]; simpl; [reflexivity|].
  unfold bind. destruct (bad x); simpl; [reflexivity|]. apply IH.
Qed.

(** A loop of assignments never raises. *)
Lemma for_each_modify {A} (l : list A) (g : A -> World -> World) (w : World) :
  for_each l (fun x => modify (g x)) w = (inr tt, foldl (fun w x => g x w) w l).
Proof.
  revert w. induction l as [|x l IH]; intros w; simpl; [reflexivity|].
  unfold bind. simpl. apply IH.
Qed.

Lemma bind_eq_ok {A B} (c : M A) (k : A -> M B) (w w' : World) (a : A) :
  c w = (inr a, w') -> bind c k w = k a w'.
Proof. unfold bind. intros ->. reflexivity. Qed.

Lemma bind_eq_raise {A B} (c : M A) (k : A -> M B) (w w' : World) (e : Exn) :
  c w = (inl e, w') -> bind c k w = (inl e, w').
Proof. unfold bind. intros ->. reflexivity. Qed.

Lemma pair_eta {A B} (x : A * B) (a : A) : x.1 = a -> x = (a, x.2).
Proof. destruct x. simpl. congruence. Qed.

Lemma bind_inr {A B} (c : M A) (k : A -> M B) (w w' : World) (b : B) :
  bind c k w = (inr b, w') -> exists a w1, c w = (inr a, w1) /\ k a w1 = (inr b, w').
Proof.
  unfold bind. destruct (c w) as [[e|a] w1]; [discriminate|]. intros Hk. by exists a, w1.
Qed.

(** *** The returned dictionary *)

Lemma collect_raises {A} (key_of : A -> Exn + pykey) (val_of : A -> val) (l : list A)
    (d : gmap pykey val) (w : World) (e : Exn) :
  l <> [] -> (forall x, key_of x = inl e) -> collect key_of val_of l d w = (inl e, w).
Proof. destruct l as [|x l]; [done|]. intros _ Hk. simpl. rewrite Hk. reflexivity. Qed.

Lemma collect_returns {A} (key_of : A -> Exn + pykey) (val_of : A -> val) (l : list A)
    (d : gmap pykey val) (w : World) :
  (forall x, exists k, key_of x = inr k) -> exists d', collect key_of val_of l d w = (inr d', w).
Proof.
  intros Hk. revert d. induction l as [|x l IH]; intros d; simpl.
  - eexists. reflexivity.
  - destruct (Hk x) as [k ->]. apply IH.
Qed.

Lemma tap_key_accepts (w : World) (key_type : string) (tap : tube_obj) :
  key_type ∈ ["obj"; "tuple"; "str"] -> exists k, tap_key w key_type tap = inr k.
Proof.
  rewrite !elem_of_cons, elem_of_nil.
  intros [-> | [-> | [-> | []]]]; eexists; reflexivity.
Qed.

Lemma tap_key_refuses (w : World) (key_type : string) (tap : tube_obj) :
  key_type ∉ ["obj"; "tuple"; "str"] -> tap_key w key_type tap = inl BadKeyMode.
Proof.
  rewrite !not_elem_of_cons. intros (H1 & H2 & H3 & _). unfold tap_key.
  destruct (String.eqb_spec key_type "obj"); [done|].
  destruct (String.eqb_spec key_type "tuple"); [done|].
  destruct (String.eqb_spec key_type "str"); done.
Qed.

Lemma funnel_key_accepts (w : World) (key_type : string) (funnel : slot_ref) :
  key_type ∈ ["slot"; "tuple"; "str"] -> exists k, funnel_key w key_type funnel = inr k.
Proof.
  rewrite !elem_of_cons, elem_of_nil.
  intros [-> | [-> | [-> | []]]]; eexists; reflexivity.
Qed.

Lemma funnel_key_refuses (w : World) (key_type : string) (funnel : slot_ref) :
  key_type ∉ ["slot"; "tuple"; "str"] -> funnel_key w key_type funnel = inl BadKeyMode.
Proof.
  rewrite !not_elem_of_cons. intros (H1 & H2 & H3 & _). unfold funnel_key.
  destruct (String.eqb_spec key_type "slot"); [done|].
  destruct (String.eqb_spec key_type "tuple"); [done|].
  destruct (String.eqb_spec key_type "str"); done.
Qed.

Lemma values_nonempty {V} (m : gmap string V) : m <> ∅ -> (map_to_list m).*2 <> [].
Proof.
  intros Hm Hnil. apply Hm. apply map_to_list_empty_iff.
  destruct (map_to_list m); [reflexivity | discriminate].
Qed.

(** When the first three steps of [pour] complete, its outcome is that of
    the loop over the taps. *)
Lemma pour_collects sorted (self : Waterwork) (fd : list (pykey * val)) (key_type : string)
    (w : World) :
  (run_pour sorted self fd w).1 = inr tt ->
  pour sorted self fd key_type w
  = collect (tap_key (run_pour sorted self fd w).2 key_type)
      (tube_get_val (run_pour sorted self fd w).2)
      (map_to_list (taps self)).*2 ∅ (run_pour sorted self fd w).2.
Proof. intros Hrun. unfold pour. rewrite (bind_ok _ _ _ tt Hrun). reflexivity. Qed.

Lemma pump_collects sorted (self : Waterwork) (td : list (pykey * val)) (key_type : string)
    (w : World) :
  (run_pump sorted self td w).1 = inr tt ->
  pump sorted self td key_type w
  = collect (funnel_key (run_pump sorted self td w).2 key_type)
      (slot_get_val (run_pump sorted self td w).2)
      (map_to_list (funnels self)).*2 ∅ (run_pump sorted self td w).2.
Proof. intros Hrun. unfold pump. rewrite (bind_ok _ _ _ tt Hrun). reflexivity. Qed.

Lemma pour_bad_key_type sorted (self : Waterwork) (fd : list (pykey * val)) (key_type : string)
    (w : World) :
  key_type ∉ ["obj"; "tuple"; "str"] ->
  taps self <> ∅ ->
  (run_pour sorted self fd w).1 = inr tt ->
  pour sorted self fd key_type w = (inl BadKeyMode, (run_pour sorted self fd w).2).
Proof.
  intros Hkey Htaps Hrun. rewrite pour_collects by done.
  apply collect_raises; [by apply values_nonempty|].
  intros tap. by apply tap_key_refuses.
Qed.

Lemma pump_bad_key_type sorted (self : Waterwork) (td : list (pykey * val)) (key_type : string)
    (w : World) :
  key_type ∉ ["slot"; "tuple"; "str"] ->
  funnels self <> ∅ ->
  (run_pump sorted self td w).1 = inr tt ->
  pump sorted self td key_type w = (inl BadKeyMode, (run_pump sorted self td w).2).
Proof.
  intros Hkey Hfunnels Hrun. rewrite pump_collects by done.
  apply collect_raises; [by apply values_nonempty|].
  intros funnel. by apply funnel_key_refuses.
Qed.

(** *** Binding and checking the funnels *)

Lemma check_funnels_spec (self : Waterwork) (w : World) :
  check_funnels self w
  = (if existsb (fun x : string * slot_ref => if slot_get_val w x.2 is None then true else false)
          (map_to_list (funnels self))
     then inl MissingInput else inr tt, w).
Proof.
  unfold check_funnels, bind, get. simpl.
  rewrite <- for_each_check. apply for_each_ext.
  intros [n s] w'. simpl. destruct (slot_get_val w s); reflexivity.
Qed.

Lemma check_funnels_missing (self : Waterwork) (w : World) (n : string) (s : slot_ref) :
  funnels self !! n = Some s -> slot_get_val w s = None ->
  check_funnels self w = (inl MissingInput, w).
Proof.
  intros Hn Hs. rewrite check_funnels_spec.
  replace (existsb _ _) with true; [reflexivity|].
  symmetry. apply existsb_exists. exists (n, s). split.
  - apply list_elem_of_In, elem_of_map_to_list, Hn.
  - simpl. rewrite Hs. reflexivity.
Qed.

Lemma bind_funnel_unresolved (self : Waterwork) (w : World) (k : pykey) (v : val) :
  unresolved self w k -> bind_funnel self k v w = (inl UnknownFunnel, w).
Proof.
  unfold bind_funnel, bind, get. simpl.
  destruct k as [s | tank key | s | t | p]; simpl.
  - intros [-> ->]. reflexivity.
  - intros (t & -> & Hkey). rewrite bool_decide_eq_false_2 by done. reflexivity.
  - reflexivity.
  - reflexivity.
  - intros [].
Qed.


(** *** Stored values *)

Lemma fmap_alter_absorb {K A B} `{Countable K} (f : A -> B) (g : A -> A) (m : gmap K A) (i : K) :
  (forall x, f (g x) = f x) -> f <$> alter g i m = f <$> m.
Proof.
  intros Hfg. apply map_eq. intros j. rewrite !lookup_fmap, lookup_alter.
  case_decide; [subst|done]. destruct (m !! j); simpl; [f_equal; apply Hfg | done].
Qed.

Lemma erase_slot_set_val (s : slot_ref) (v : val) (w : World) :
  erase (slot_set_val s v w) = erase w.
Proof.
  unfold erase, slot_set_val, with_slots. simpl. f_equal.
  apply fmap_alter_absorb. intros []. reflexivity.
Qed.

Lemma erase_tube_set_val (t : tube_obj) (v : val) (w : World) :
  erase (tube_set_val t v w) = erase w.
Proof.
  unfold erase, tube_set_val, with_tubes. simpl. f_equal.
  apply fmap_alter_absorb. intros []. reflexivity.
Qed.

Lemma erase_ph_set_val (p : ph_id) (v : val) (w : World) :
  erase (ph_set_val p v w) = erase w.
Proof.
  unfold erase, ph_set_val, with_placeholders. simpl. f_equal.
  apply fmap_alter_absorb. intros []. reflexivity.
Qed.

Lemma erase_tube_ref_set_val (t : tube_ref) (v : val) (w : World) :
  erase (tube_ref_set_val t v w) = erase w.
Proof. destruct t; [apply erase_tube_set_val | apply erase_ph_set_val]. Qed.

Lemma only_values_ret {A} (a : A) : only_values (ret a).
Proof. intros w. reflexivity. Qed.

Lemma only_values_raise {A} (e : Exn) : only_values (@raise A e).
Proof. intros w. reflexivity. Qed.

Lemma only_values_get : only_values get.
Proof. intros w. reflexivity. Qed.

Lemma only_values_modify (f : World -> World) :
  (forall w, erase (f w) = erase w) -> only_values (modify f).
Proof. intros Hf w. apply Hf. Qed.

Lemma only_values_bind {A B} (c : M A) (k : A -> M B) :
  only_values c -> (forall a, only_values (k a)) -> only_values (bind c k).
Proof.
  intros Hc Hk w. unfold bind. specialize (Hc w).
  destruct (c w) as [[e|a] w']; simpl in *; [done|].
  rewrite Hk. done.
Qed.

Lemma only_values_for_each {A} (l : list A) (body : A -> M unit) :
  (forall x, only_values (body x)) -> only_values (for_each l body).
Proof.
  intros Hbody. induction l as [|x l IH]; simpl.
  - apply only_values_ret.
  - apply only_values_bind; [apply Hbody | intros _; apply IH].
Qed.

Lemma only_values_collect {A} (key_of : A -> Exn + pykey) (val_of : A -> val) (l : list A)
    (d : gmap pykey val) :
  only_values (collect key_of val_of l d).
Proof.
  revert d. induction l as [|x l IH]; intros d; simpl.
  - apply only_values_ret.
  - destruct (key_of x); [apply only_values_raise | apply IH].
Qed.

Ltac only_values_step :=
  match goal with
  | |- only_values (bind _ _) => apply only_values_bind
  | |- only_values (ret _) => apply only_values_ret
  | |- only_values (raise _) => apply only_values_raise
  | |- only_values get => apply only_values_get
  | |- only_values (for_each _ _) => apply only_values_for_each
  | |- only_values (collect _ _ _ _) => apply only_values_collect
  | |- only_values (modify (slot_set_val _ _)) =>
      apply only_values_modify, erase_slot_set_val
  | |- only_values (modify (tube_set_val _ _)) =>
      apply only_values_modify, erase_tube_set_val
  | |- only_values (modify (ph_set_val _ _)) =>
      apply only_values_modify, erase_ph_set_val
  | |- only_values (modify (tube_ref_set_val _ _)) =>
      apply only_values_modify, erase_tube_ref_set_val
  | |- only_values (match ?x with _ => _ end) => destruct x
  | |- forall _, _ => intros
  end.

Lemma only_values_pour_tank (t : tank_id) : only_values (pour_tank t).
Proof. unfold pour_tank, tank_pour. repeat only_values_step. Qed.

Lemma only_values_pump_tank (t : tank_id) : only_values (pump_tank t).
Proof. unfold pump_tank, tank_pump. repeat only_values_step. Qed.

(** [pour] and [pump] change nothing but the values stored in the parts. *)
Lemma pour_same_graph sorted (self : Waterwork) (fd : list (pykey * val)) (key_type : string)
    (w : World) :
  same_graph (pour sorted self fd key_type w).2 w.
Proof.
  revert w. change (only_values (pour sorted self fd key_type)).
  unfold pour, run_pour, bind_funnels, bind_funnel, check_funnels, pour_tanks, collect_taps.
  repeat first [apply only_values_pour_tank | only_values_step].
Qed.

Lemma pump_same_graph sorted (self : Waterwork) (td : list (pykey * val)) (key_type : string)
    (w : World) :
  same_graph (pump sorted self td key_type w).2 w.
Proof.
  revert w. change (only_values (pump sorted self td key_type)).
  unfold pump, run_pump, bind_taps, bind_tap, check_taps, pump_tanks, collect_funnels.
  repeat first [apply only_values_pump_tank | only_values_step].
Qed.

(** What [clear_vals] leaves. *)
Lemma lookup_foldl_alter {K A} `{Countable K} (f : A -> A) (l : list K) (m : gmap K A) (i : K) :
  (forall x, f (f x) = f x) ->
  foldl (fun m k => alter f k m) m l !! i = if decide (i ∈ l) then f <$> m !! i else m !! i.
Proof.
  intros Hf. revert m. induction l as [|k l IH]; intros m; cbn [foldl].
  - rewrite decide_False by apply not_elem_of_nil. reflexivity.
  - rewrite IH, lookup_alter. destruct (decide (k = i)) as [->|Hki].
    + rewrite (decide_True (P := i ∈ i :: l)) by (apply elem_of_cons; by left).
      destruct (decide (i ∈ l)); [|done].
      destruct (m !! i); simpl; [f_equal; apply Hf | done].
    + destruct (decide (i ∈ l)) as [Hil|Hil].
      * rewrite decide_True by (apply elem_of_cons; by right). done.
      * rewrite decide_False; [done|]. rewrite elem_of_cons. intros [->|?]; done.
Qed.

Lemma foldl_slot_set_val {A} (g : A -> slot_ref) (l : list A) (w : World) :
  foldl (fun w x => slot_set_val (g x) None w) w l
  = with_slots (fun m => foldl (fun m k => alter (slot_with_val None) k m) m (g <$> l)) w.
Proof.
  revert w. induction l as [|x l IH]; intros w; simpl.
  - by destruct w.
  - rewrite IH. reflexivity.
Qed.

Lemma foldl_tube_set_val {A} (g : A -> tube_obj) (l : list A) (w : World) :
  foldl (fun w x => tube_set_val (g x) None w) w l
  = with_tubes (fun m => foldl (fun m k => alter (tube_with_val None) k m) m (g <$> l)) w.
Proof.
  revert w. induction l as [|x l IH]; intros w; simpl.
  - by destruct w.
  - rewrite IH. reflexivity.
Qed.

Lemma foldl_ph_set_val {A} (g : A -> ph_id) (l : list A) (w : World) :
  foldl (fun w x => ph_set_val (g x) None w) w l
  = with_placeholders (fun m => foldl (fun m k => alter (ph_with_val None) k m) m (g <$> l)) w.
Proof.
  revert w. induction l as [|x l IH]; intros w; simpl.
  - by destruct w.
  - rewrite IH. reflexivity.
Qed.

Lemma clear_vals_spec (self : Waterwork) (w : World) :
  clear_vals self w
  = (inr tt,
     foldl (fun w x => ph_set_val x.2 None w)
       (foldl (fun w x => tube_set_val x.2 None w)
          (foldl (fun w x => slot_set_val x.2 None w) w (map_to_list (slots self)))
          (map_to_list (tubes self)))
       (map_to_list (placeholders self))).
Proof.
  assert (Hslots : forall w,
            for_each (map_to_list (slots self)) (fun '(_, s) => modify (slot_set_val s None)) w
            = (inr tt, foldl (fun w x => slot_set_val x.2 None w) w (map_to_list (slots self)))).
  { intros w'. rewrite <- (for_each_modify _ (fun x => slot_set_val x.2 None)).
    apply for_each_ext. by intros []. }
  assert (Htubes : forall w,
            for_each (map_to_list (tubes self)) (fun '(_, t) => modify (tube_set_val t None)) w
            = (inr tt, foldl (fun w x => tube_set_val x.2 None w) w (map_to_list (tubes self)))).
  { intros w'. rewrite <- (for_each_modify _ (fun x => tube_set_val x.2 None)).
    apply for_each_ext. by intros []. }
  assert (Hphs : forall w,
            for_each (map_to_list (placeholders self)) (fun '(_, p) => modify (ph_set_val p None)) w
            = (inr tt,
               foldl (fun w x => ph_set_val x.2 None w) w (map_to_list (placeholders self)))).
  { intros w'. rewrite <- (for_each_modify _ (fun x => ph_set_val x.2 None)).
    apply for_each_ext. by intros []. }
  unfold clear_vals.
  rewrite (bind_eq_ok _ _ _ _ tt (Hslots w)), (bind_eq_ok _ _ _ _ tt (Htubes _)).
  apply Hphs.
Qed.

(** *** Independence from the values earlier runs left *)

Lemma same_graph_tanks (w1 w2 : World) : same_graph w1 w2 -> w_tanks w1 = w_tanks w2.
Proof. unfold same_graph, erase. intros Hsame. by injection Hsame. Qed.

Lemma same_graph_slot (w1 w2 : World) (s : slot_ref) :
  same_graph w1 w2 ->
  slot_with_val None <$> (w_slots w1 !! s) = slot_with_val None <$> (w_slots w2 !! s).
Proof.
  unfold same_graph, erase. intros Hsame. injection Hsame as _ Hslots _ _ _ _.
  rewrite <- !lookup_fmap. by rewrite Hslots.
Qed.

Lemma same_graph_tube (w1 w2 : World) (t : tube_obj) :
  same_graph w1 w2 ->
  tube_with_val None <$> (w_tubes w1 !! t) = tube_with_val None <$> (w_tubes w2 !! t).
Proof.
  unfold same_graph, erase. intros Hsame. injection Hsame as _ _ Htubes _ _ _.
  rewrite <- !lookup_fmap. by rewrite Htubes.
Qed.

Lemma same_graph_ph (w1 w2 : World) (p : ph_id) :
  same_graph w1 w2 ->
  ph_with_val None <$> (w_placeholders w1 !! p) = ph_with_val None <$> (w_placeholders w2 !! p).
Proof.
  unfold same_graph, erase. intros Hsame. injection Hsame as _ _ _ Hphs _ _.
  rewrite <- !lookup_fmap. by rewrite Hphs.
Qed.

(** What two stores of the same graph agree on. *)
Lemma same_graph_reads (w1 w2 : World) :
  same_graph w1 w2 ->
  (forall t, tank_slots_of w1 t = tank_slots_of w2 t)
  /\ (forall t, tank_tubes_of w1 t = tank_tubes_of w2 t)
  /\ (forall t, tank_name_of w1 t = tank_name_of w2 t)
  /\ (forall s, slot_tube_of w1 s = slot_tube_of w2 s)
  /\ (forall s, slot_name_of w1 s = slot_name_of w2 s)
  /\ (forall t, tube_slot_of w1 t = tube_slot_of w2 t)
  /\ (forall t, tube_name_of w1 t = tube_name_of w2 t)
  /\ (forall p, ph_slot_of w1 p = ph_slot_of w2 p).
Proof.
  intros Hsame. pose proof (same_graph_tanks _ _ Hsame) as Htanks.
  unfold tank_slots_of, tank_tubes_of, tank_name_of, slot_tube_of, slot_name_of,
    tube_slot_of, tube_name_of, ph_slot_of.
  rewrite Htanks. repeat split; try done.
  - intros s. pose proof (same_graph_slot _ _ s Hsame) as Hs.
    destruct (w_slots w1 !! s) as [[]|], (w_slots w2 !! s) as [[]|];
      unfold slot_with_val in Hs; simpl in *; congruence.
  - intros s. pose proof (same_graph_slot _ _ s Hsame) as Hs.
    destruct (w_slots w1 !! s) as [[]|], (w_slots w2 !! s) as [[]|];
      unfold slot_with_val in Hs; simpl in *; congruence.
  - intros t. pose proof (same_graph_tube _ _ t Hsame) as Ht.
    destruct (w_tubes w1 !! t) as [[]|], (w_tubes w2 !! t) as [[]|];
      unfold tube_with_val in Ht; simpl in *; congruence.
  - intros t. pose proof (same_graph_tube _ _ t Hsame) as Ht.
    destruct (w_tubes w1 !! t) as [[]|], (w_tubes w2 !! t) as [[]|];
      unfold tube_with_val in Ht; simpl in *; congruence.
  - intros p. pose proof (same_graph_ph _ _ p Hsame) as Hp.
    destruct (w_placeholders w1 !! p) as [[]|], (w_placeholders w2 !! p) as [[]|];
      unfold ph_with_val in Hp; simpl in *; congruence.
Qed.

Lemma slot_get_val_set (s s' : slot_ref) (v : val) (w : World) :
  slot_get_val (slot_set_val s v w) s'
  = if decide (s = s') then w_slots w !! s ≫= (fun _ => v) else slot_get_val w s'.
Proof.
  unfold slot_get_val, slot_set_val, with_slots. simpl. rewrite lookup_alter.
  case_decide; [subst|done]. by destruct (w_slots w !! s').
Qed.

Lemma tube_get_val_set (t t' : tube_obj) (v : val) (w : World) :
  tube_get_val (tube_set_val t v w) t'
  = if decide (t = t') then w_tubes w !! t ≫= (fun _ => v) else tube_get_val w t'.
Proof.
  unfold tube_get_val, tube_set_val, with_tubes. simpl. rewrite lookup_alter.
  case_decide; [subst|done]. by destruct (w_tubes w !! t').
Qed.

Lemma agree_slot_set_val (self : Waterwork) (s : slot_ref) (v : val) (w1 w2 : World) :
  agree self w1 w2 -> agree self (slot_set_val s v w1) (slot_set_val s v w2).
Proof.
  intros (Hcons & Hsame & Hslots & Htubes). split; [exact Hcons|]. split; [|split].
  - unfold same_graph. by rewrite !erase_slot_set_val.
  - intros s' Hs'. rewrite !slot_get_val_set. case_decide; [|by apply Hslots].
    pose proof (same_graph_slot _ _ s Hsame) as Hs.
    by destruct (w_slots w1 !! s), (w_slots w2 !! s).
  - intros t Ht. by apply Htubes.
Qed.

Lemma agree_tube_set_val (self : Waterwork) (t : tube_obj) (v : val) (w1 w2 : World) :
  agree self w1 w2 -> agree self (tube_set_val t v w1) (tube_set_val t v w2).
Proof.
  intros (Hcons & Hsame & Hslots & Htubes). split; [exact Hcons|]. split; [|split].
  - unfold same_graph. by rewrite !erase_tube_set_val.
  - intros s Hs. by apply Hslots.
  - intros t' Ht'. rewrite !tube_get_val_set. case_decide; [|by apply Htubes].
    pose proof (same_graph_tube _ _ t Hsame) as Ht.
    by destruct (w_tubes w1 !! t), (w_tubes w2 !! t).
Qed.

Lemma agree_ph_set_val (self : Waterwork) (p : ph_id) (v : val) (w1 w2 : World) :
  agree self w1 w2 -> agree self (ph_set_val p v w1) (ph_set_val p v w2).
Proof.
  intros (Hcons & Hsame & Hslots & Htubes). split; [exact Hcons|]. split; [|split].
  - unfold same_graph. by rewrite !erase_ph_set_val.
  - intros s Hs. by apply Hslots.
  - intros t Ht. by apply Htubes.
Qed.

Lemma agree_tube_ref_set_val (self : Waterwork) (t : tube_ref) (v : val) (w1 w2 : World) :
  agree self w1 w2 -> agree self (tube_ref_set_val t v w1) (tube_ref_set_val t v w2).
Proof. destruct t; [apply agree_tube_set_val | apply agree_ph_set_val]. Qed.

Lemma alike_ret (self : Waterwork) {A} (a : A) : alike self (ret a) (ret a).
Proof. intros w1 w2 Hagree. by split. Qed.

Lemma alike_raise (self : Waterwork) {A} (e : Exn) : alike self (@raise A e) (@raise A e).
Proof. intros w1 w2 Hagree. by split. Qed.

Lemma alike_modify (self : Waterwork) (f : World -> World) :
  (forall w1 w2, agree self w1 w2 -> agree self (f w1) (f w2)) ->
  alike self (modify f) (modify f).
Proof. intros Hf w1 w2 Hagree. split; [done | by apply Hf]. Qed.

Lemma alike_bind (self : Waterwork) {A B} (c1 c2 : M A) (k1 k2 : A -> M B) :
  alike self c1 c2 -> (forall a, alike self (k1 a) (k2 a)) ->
  alike self (bind c1 k1) (bind c2 k2).
Proof.
  intros Hc Hk w1 w2 Hagree. unfold bind. destruct (Hc w1 w2 Hagree) as [Hr Hw].
  destruct (c1 w1) as [[e1|a1] w1'], (c2 w2) as [[e2|a2] w2']; simpl in *; try discriminate.
  - injection Hr as ->. by split.
  - injection Hr as ->. by apply Hk.
Qed.

(** A computation that starts by reading the store. *)
Lemma alike_get_bind (self : Waterwork) {B} (k1 k2 : World -> M B) :
  (forall w1 w2, agree self w1 w2 -> alike self (k1 w1) (k2 w2)) ->
  alike self (bind get k1) (bind get k2).
Proof. intros Hk w1 w2 Hagree. exact (Hk w1 w2 Hagree w1 w2 Hagree). Qed.

Lemma alike_for_each (self : Waterwork) {A} (l : list A) (body1 body2 : A -> M unit) :
  (forall x, x ∈ l -> alike self (body1 x) (body2 x)) ->
  alike self (for_each l body1) (for_each l body2).
Proof.
  induction l as [|x l IH]; intros Hbody; simpl.
  - apply alike_ret.
  - apply alike_bind.
    + apply Hbody, elem_of_cons. by left.
    + intros _. apply IH. intros y Hy. apply Hbody, elem_of_cons. by right.
Qed.

Ltac alike_step :=
  match goal with
  | |- alike _ (bind _ _) (bind _ _) => apply alike_bind
  | |- alike _ (ret _) (ret _) => apply alike_ret
  | |- alike _ (raise _) (raise _) => apply alike_raise
  | |- alike _ (for_each _ _) (for_each _ _) => apply alike_for_each
  | |- alike _ (modify (slot_set_val _ _)) _ =>
      apply alike_modify; intros; by apply agree_slot_set_val
  | |- alike _ (modify (tube_set_val _ _)) _ =>
      apply alike_modify; intros; by apply agree_tube_set_val
  | |- alike _ (modify (ph_set_val _ _)) _ =>
      apply alike_modify; intros; by apply agree_ph_set_val
  | |- alike _ (modify (tube_ref_set_val _ _)) _ =>
      apply alike_modify; intros; by apply agree_tube_ref_set_val
  | |- alike _ (match ?x with _ => _ end) _ => destruct x
  | |- forall _, _ => intros
  end.

Lemma alike_bind_funnel (self : Waterwork) (k : pykey) (v : val) :
  alike self (bind_funnel self k v) (bind_funnel self k v).
Proof.
  unfold bind_funnel. apply alike_get_bind. intros w1 w2 Hagree.
  destruct (same_graph_reads w1 w2 (proj1 (proj2 Hagree)))
    as (Hts & _ & _ & Hst & _ & _ & _ & Hps).
  assert (Hslot : maybe_get_slot self w1 k = maybe_get_slot self w2 k).
  { destruct k; simpl; try done. destruct (tanks self !! tank); [|done]. by rewrite Hts. }
  rewrite Hslot. destruct (maybe_get_slot self w2 k) as [e|sl_obj]; [apply alike_raise|].
  destruct (maybe_get_placeholder self k) as [p|].
  - rewrite Hps. repeat alike_step.
  - destruct sl_obj as [s|]; [|apply alike_raise]. rewrite Hst. repeat alike_step.
Qed.

Lemma existsb_ext_in {A} (f g : A -> bool) (l : list A) :
  (forall x, x ∈ l -> f x = g x) -> existsb f l = existsb g l.
Proof.
  induction l as [|x l IH]; intros Hfg; simpl; [done|].
  rewrite Hfg by (apply elem_of_cons; by left).
  rewrite IH; [done|]. intros y Hy. apply Hfg, elem_of_cons. by right.
Qed.

Lemma alike_check_funnels (self : Waterwork) :
  alike self (check_funnels self) (check_funnels self).
Proof.
  intros w1 w2 Hagree. rewrite !check_funnels_spec. simpl. split; [|done].
  destruct Hagree as ((Hfunnels & _ & _) & _ & Hslots & _).
  erewrite existsb_ext_in; [reflexivity|].
  intros [n s] Hin. simpl. rewrite Hslots; [done|].
  rewrite Forall_forall in Hfunnels. apply Hfunnels.
  apply list_elem_of_fmap. by exists (n, s).
Qed.

Lemma alike_tank_pour (self : Waterwork) (t : tank_id) (kwargs : gmap string val) :
  alike self (tank_pour t kwargs) (tank_pour t kwargs).
Proof.
  unfold tank_pour. apply alike_get_bind. intros w1 w2 Hagree.
  destruct (same_graph_reads w1 w2 (proj1 (proj2 Hagree))) as (_ & Htubes & _).
  rewrite (same_graph_tanks w1 w2 (proj1 (proj2 Hagree))).
  destruct (w_tanks w2 !! t ≫= _); [|apply alike_raise].
  apply alike_bind; [|intros; apply alike_ret].
  apply alike_for_each. intros [key v] _. rewrite Htubes. repeat alike_step.
Qed.

Lemma alike_pour_tank (self : Waterwork) (t : tank_id) :
  t ∈ (map_to_list (tanks self)).*2 -> alike self (pour_tank t) (pour_tank t).
Proof.
  intros Ht. unfold pour_tank. apply alike_get_bind. intros w1 w2 Hagree.
  pose proof Hagree as ((_ & Hknown & _) & Hsame & Hslots & _).
  destruct (same_graph_reads w1 w2 Hsame) as (Hts & _ & _ & _ & _ & Htubeslot & _).
  assert (Hkwargs : slot_kwargs w1 t = slot_kwargs w2 t).
  { unfold slot_kwargs. rewrite <- Hts. f_equal. apply Forall_fmap_ext_1.
    rewrite Forall_forall in Hknown. specialize (Hknown t Ht).
    eapply Forall_impl; [exact Hknown|]. intros k Hk. simpl. by rewrite Hslots. }
  rewrite Hkwargs. apply alike_bind; [apply alike_tank_pour|].
  intros tube_dict. apply alike_for_each. intros [key v] _. rewrite Htubeslot.
  repeat alike_step.
Qed.

(** The pour order reads the graph only. *)
Lemma pour_order_same_graph sorted (self : Waterwork) (w1 w2 : World) :
  same_graph w1 w2 -> _pour_tank_order sorted self w1 = _pour_tank_order sorted self w2.
Proof.
  intros Hsame. destruct (same_graph_reads w1 w2 Hsame) as (Hts & _ & Hname & Hst & _).
  assert (E1 : tank_slots_of w1 = tank_slots_of w2) by (by apply functional_extensionality).
  assert (E2 : tank_name_of w1 = tank_name_of w2) by (by apply functional_extensionality).
  assert (E3 : slot_tube_of w1 = slot_tube_of w2) by (by apply functional_extensionality).
  unfold _pour_tank_order, tank_cmp, get_pour_dependencies. by rewrite E1, E2, E3.
Qed.

Lemma alike_pour_tanks sorted (self : Waterwork) :
  (forall cmp l x, x ∈ sorted cmp l -> x ∈ l) ->
  alike self (pour_tanks sorted self) (pour_tanks sorted self).
Proof.
  intros Hsorted. unfold pour_tanks. apply alike_get_bind. intros w1 w2 Hagree.
  rewrite (pour_order_same_graph sorted self w1 w2 (proj1 (proj2 Hagree))).
  apply alike_for_each. intros t Ht. apply alike_pour_tank.
  unfold _pour_tank_order in Ht. by apply Hsorted, Hsorted in Ht.
Qed.

Lemma alike_collect (self : Waterwork) {A} (k1 k2 : A -> Exn + pykey) (v1 v2 : A -> val)
    (l : list A) (d : gmap pykey val) :
  (forall x, x ∈ l -> k1 x = k2 x /\ v1 x = v2 x) ->
  alike self (collect k1 v1 l d) (collect k2 v2 l d).
Proof.
  revert d. induction l as [|x l IH]; intros d Hl; simpl.
  - apply alike_ret.
  - destruct (Hl x) as [-> ->]; [apply elem_of_cons; by left|].
    destruct (k2 x); [apply alike_raise|].
    apply IH. intros y Hy. apply Hl, elem_of_cons. by right.
Qed.

Lemma alike_collect_taps (self : Waterwork) (key_type : string) :
  alike self (collect_taps self key_type) (collect_taps self key_type).
Proof.
  unfold collect_taps. apply alike_get_bind. intros w1 w2 Hagree.
  pose proof Hagree as ((_ & _ & Htaps) & Hsame & _ & Htubes).
  destruct (same_graph_reads w1 w2 Hsame) as (_ & _ & Hname & _ & _ & _ & Htname & _).
  apply alike_collect. intros tap Htap. split.
  - unfold tap_key. by rewrite Hname, Htname.
  - apply Htubes. rewrite Forall_forall in Htaps. by apply Htaps.
Qed.

(** From stores that agree, [pour] has the same outcome. *)
Lemma alike_pour sorted (self : Waterwork) (fd : list (pykey * val)) (key_type : string) :
  (forall cmp l x, x ∈ sorted cmp l -> x ∈ l) ->
  alike self (pour sorted self fd key_type) (pour sorted self fd key_type).
Proof.
  intros Hsorted. unfold pour, run_pour, bind_funnels.
  apply alike_bind; [|intros; apply alike_collect_taps].
  apply alike_bind; [apply alike_for_each; intros [k v] _; apply alike_bind_funnel|].
  intros _. apply alike_bind; [apply alike_check_funnels|].
  intros _. by apply alike_pour_tanks.
Qed.

Lemma only_values_clear_vals (self : Waterwork) : only_values (clear_vals self).
Proof. unfold clear_vals. repeat only_values_step. Qed.

Lemma consistent_same_graph (self : Waterwork) (w1 w2 : World) :
  consistent self w1 -> same_graph w1 w2 -> consistent self w2.
Proof.
  intros Hconsistent Hsame. unfold consistent, tank_slots_of in *.
  by rewrite <- (same_graph_tanks _ _ Hsame).
Qed.

Lemma slot_get_val_cleared (self : Waterwork) (w : World) (s : slot_ref) :
  s ∈ (map_to_list (slots self)).*2 -> slot_get_val (clear_vals self w).2 s = None.
Proof.
  intros Hs. rewrite clear_vals_spec. simpl.
  rewrite foldl_slot_set_val, foldl_tube_set_val, foldl_ph_set_val.
  unfold slot_get_val, with_placeholders, with_tubes, with_slots. simpl.
  rewrite lookup_foldl_alter by (by intros []). rewrite decide_True by done.
  by destruct (w_slots w !! s).
Qed.

Lemma tube_get_val_cleared (self : Waterwork) (w : World) (t : tube_obj) :
  t ∈ (map_to_list (tubes self)).*2 -> tube_get_val (clear_vals self w).2 t = None.
Proof.
  intros Ht. rewrite clear_vals_spec. simpl.
  rewrite foldl_slot_set_val, foldl_tube_set_val, foldl_ph_set_val.
  unfold tube_get_val, with_placeholders, with_tubes, with_slots. simpl.
  rewrite lookup_foldl_alter by (by intros []). rewrite decide_True by done.
  by destruct (w_tubes w !! t).
Qed.

(** After [clear_vals], two stores of the same graph agree. *)
Lemma agree_clear_vals (self : Waterwork) (w1 w2 : World) :
  consistent self w1 -> same_graph w1 w2 ->
  agree self (clear_vals self w1).2 (clear_vals self w2).2.
Proof.
  intros Hconsistent Hsame. pose proof (only_values_clear_vals self) as Hvalues.
  split; [|split; [|split]].
  - apply (consistent_same_graph self w1); [done|]. unfold same_graph. by rewrite Hvalues.
  - unfold same_graph. by rewrite !Hvalues.
  - intros s Hs. by rewrite !slot_get_val_cleared.
  - intros t Ht. by rewrite !tube_get_val_cleared.
Qed.

(** *** The order of the items of the funnel dictionary *)

Lemma alter_swap {K A} `{Countable K} (f g : A -> A) (m : gmap K A) (i j : K) :
  i <> j -> alter f i (alter g j m) = alter g j (alter f i m).
Proof.
  intros Hne. apply map_eq. intros k.
  destruct (decide (i = k)) as [Hi|Hi]; destruct (decide (j = k)) as [Hj|Hj]; subst;
    try done;
    repeat first [rewrite lookup_alter_eq | rewrite lookup_alter_ne by done]; done.
Qed.

(** Writes to two different parts can be made in either order. *)
Lemma part_set_val_swap (v v' : val) (x y : part) (w : World) :
  x <> y -> part_set_val v x (part_set_val v' y w) = part_set_val v' y (part_set_val v x w).
Proof.
  intros Hne.
  destruct x as [s|t|p], y as [s'|t'|p']; try reflexivity;
    unfold part_set_val, slot_set_val, tube_set_val, ph_set_val, with_slots, with_tubes,
      with_placeholders; simpl; f_equal; apply alter_swap; congruence.
Qed.

Lemma parts_set_val_swap_one (v v' : val) (x : part) (l : list part) (w : World) :
  x ∉ l -> part_set_val v x (parts_set_val v' l w) = parts_set_val v' l (part_set_val v x w).
Proof.
  revert w. induction l as [|y l IH]; intros w Hx; simpl; [done|].
  apply not_elem_of_cons in Hx as [Hne Hx]. rewrite IH by done. f_equal.
  by apply part_set_val_swap.
Qed.

Lemma parts_set_val_swap (v v' : val) (l l' : list part) (w : World) :
  (forall x, x ∈ l -> x ∉ l') ->
  parts_set_val v l (parts_set_val v' l' w) = parts_set_val v' l' (parts_set_val v l w).
Proof.
  revert w. induction l as [|x l IH]; intros w Hdisjoint; simpl; [done|].
  rewrite parts_set_val_swap_one by (apply Hdisjoint, elem_of_cons; by left).
  apply IH. intros y Hy. apply Hdisjoint, elem_of_cons. by right.
Qed.

Lemma parts_set_val_same_graph (v : val) (l : list part) (w : World) :
  same_graph (parts_set_val v l w) w.
Proof.
  revert w. induction l as [|x l IH]; intros w; simpl; [done|].
  unfold same_graph in *. rewrite IH.
  destruct x; [apply erase_slot_set_val | apply erase_tube_set_val | apply erase_ph_set_val].
Qed.

(** What a key writes depends on the graph only. *)
Lemma written_same_graph (self : Waterwork) (w w' : World) (k : pykey) :
  same_graph w w' -> written self w k = written self w' k.
Proof.
  intros Hsame.
  destruct (same_graph_reads w w' Hsame) as (Hslots & _ & _ & Htube & _ & _ & _ & Hph).
  unfold written, maybe_get_slot. destruct k; try done.
  - destruct (maybe_get_placeholder self (KStr s)); [by rewrite Hph|].
    destruct (slots self !! s); [by rewrite Htube | done].
  - destruct (tanks self !! tank); [|done]. rewrite Hslots.
    case_bool_decide; [|done]. simpl. by rewrite Htube.
  - simpl. by rewrite Hph.
Qed.

Lemma each_part_once_same_graph (self : Waterwork) (w w' : World) (fd : list (pykey * val)) :
  same_graph w w' -> each_part_once self w fd -> each_part_once self w' fd.
Proof.
  intros Hsame [Hnames Honce]. split.
  - eapply Forall_impl; [exact Hnames|]. intros kv Hkv. simpl in *.
    by rewrite <- (written_same_graph self w w').
  - replace (fd ≫= (fun kv => written self w' kv.1))
      with (fd ≫= (fun kv => written self w kv.1)); [done|].
    clear Hnames Honce. induction fd as [|kv fd IH]; [done|].
    rewrite !bind_cons, IH. f_equal. by apply written_same_graph.
Qed.

Lemma each_part_once_perm (self : Waterwork) (w : World) (fd fd' : list (pykey * val)) :
  fd ≡ₚ fd' -> each_part_once self w fd -> each_part_once self w fd'.
Proof. intros Hperm [Hnames Honce]. split; by rewrite <- Hperm. Qed.

Lemma each_part_once_cons (self : Waterwork) (w : World) (kv : pykey * val)
    (fd : list (pykey * val)) :
  each_part_once self w (kv :: fd) ->
  written self w kv.1 <> []
  /\ each_part_once self w fd
  /\ (forall kv' x, kv' ∈ fd -> x ∈ written self w kv.1 -> x ∉ written self w kv'.1).
Proof.
  intros [[Hname Hnames]%Forall_cons Honce]. rewrite bind_cons in Honce.
  apply NoDup_app in Honce as (_ & Hdisjoint & Honce).
  split; [done|]. split; [by split|]. intros kv' x Hkv' Hx Hx'.
  apply (Hdisjoint x Hx), list_elem_of_bind. by exists kv'.
Qed.

(** The binding of a key that names a part: the value is written to the
    parts of the key, and nothing is raised. *)
Lemma bind_funnel_writes (self : Waterwork) (k : pykey) (v : val) (w : World) :
  written self w k <> [] ->
  bind_funnel self k v w = (inr tt, parts_set_val v (written self w k) w).
Proof.
  unfold bind_funnel, written, bind at 1, get.
  destruct (maybe_get_slot self w k) as [e|sl_obj]; [done|].
  destruct (maybe_get_placeholder self k) as [p|].
  - intros _. unfold bind, modify. by destruct (ph_slot_of w p).
  - destruct sl_obj as [s|]; [|done].
    intros _. unfold bind, modify. by destruct (slot_tube_of w s) as [[]|].
Qed.

(** The binding step leaves the same store for the items of a dictionary in
    any order, when every key names a part and no part is written twice. *)
Lemma bind_funnels_perm (self : Waterwork) (fd fd' : list (pykey * val)) :
  fd ≡ₚ fd' ->
  forall w, each_part_once self w fd -> bind_funnels self fd w = bind_funnels self fd' w.
Proof.
  unfold bind_funnels.
  induction 1 as [|[k v] fd fd' Hperm IH|[k v] [k' v'] fd|fd fd' fd'' Hperm IH Hperm' IH'];
    intros w Honce.
  - done.
  - apply each_part_once_cons in Honce as (Hname & Honce & _). simpl in Hname.
    simpl. rewrite !(bind_eq_ok _ _ _ _ _ (bind_funnel_writes self k v w Hname)).
    apply IH. eapply each_part_once_same_graph; [|exact Honce].
    symmetry. apply parts_set_val_same_graph.
  - apply each_part_once_cons in Honce as (Hname' & Honce & Hdisjoint). simpl in Hname'.
    apply each_part_once_cons in Honce as (Hname & _ & _). simpl in Hname.
    set (w1 := parts_set_val v (written self w k) w).
    set (w2 := parts_set_val v' (written self w k') w).
    assert (Hk' : written self w1 k' = written self w k').
    { apply written_same_graph, parts_set_val_same_graph. }
    assert (Hk : written self w2 k = written self w k).
    { apply written_same_graph, parts_set_val_same_graph. }
    assert (Hbind' : bind_funnel self k' v' w1
                     = (inr tt, parts_set_val v' (written self w k') w1)).
    { rewrite <- Hk'. apply bind_funnel_writes. by rewrite Hk'. }
    assert (Hbind : bind_funnel self k v w2
                    = (inr tt, parts_set_val v (written self w k) w2)).
    { rewrite <- Hk. apply bind_funnel_writes. by rewrite Hk. }
    simpl.
    rewrite (bind_eq_ok _ _ _ _ _ (bind_funnel_writes self k' v' w Hname')).
    rewrite (bind_eq_ok _ _ _ _ _ (bind_funnel_writes self k v w Hname)).
    fold w1 w2. rewrite (bind_eq_ok _ _ _ _ _ Hbind), (bind_eq_ok _ _ _ _ _ Hbind').
    unfold w1, w2. rewrite parts_set_val_swap; [done|].
    intros x Hx Hx'. by apply (Hdisjoint (k, v) x); [apply elem_of_cons; left | |].
  - rewrite IH by done. apply IH'. by apply (each_part_once_perm self w fd fd').
Qed.

(** [pour] goes on from the store the binding step leaves. *)
Lemma pour_bind_funnels sorted (self : Waterwork) (fd fd' : list (pykey * val))
    (key_type : string) (w : World) :
  bind_funnels self fd w = bind_funnels self fd' w ->
  pour sorted self fd key_type w = pour sorted self fd' key_type w.
Proof. intros Hbind. unfold pour, run_pour, bind. by rewrite Hbind. Qed.

(** *** The tanks that have run *)




Lemma pour_tank_unfold (t : tank_id) (w : World) :
  pour_tank t w
  = match tank_pour t (slot_kwargs w t) w with
    | (inl e, w1) => (inl e, w1)
    | (inr tube_dict, w1) =>
        for_each (map_to_list tube_dict)
          (fun '(key, v) => match tube_slot_of w (t, key) with
                            | Some s => modify (slot_set_val s v)
                            | None => ret tt
                            end) w1
    end.
Proof. reflexivity. Qed.




(** *** The sort of the runtime *)

Lemma binarysort_perm {A} (cmp : A -> A -> Z) (sorted rest : list A) :
  Py.binarysort cmp sorted rest ≡ₚ sorted ++ rest.
Proof.
  revert sorted. induction rest as [|pivot rest IH]; intros sorted; simpl.
  - by rewrite app_nil_r.
  - rewrite IH. unfold Py.insert_at. rewrite <- (Permutation_middle sorted rest pivot).
    rewrite <- app_assoc. simpl. rewrite <- Permutation_middle.
    by rewrite app_assoc, take_drop.
Qed.

Lemma listsort_perm {A} (cmp : A -> A -> Z) (l : list A) : Py.listsort cmp l ≡ₚ l.
Proof.
  unfold Py.listsort. destruct (length l <? 2)%nat; [done|].
  destruct (Py.count_run cmp l) as [n descending].
  rewrite binarysort_perm. transitivity (take n l ++ drop n l)%list; [|by rewrite take_drop].
  apply Permutation_app_tail. destruct descending; [|done].
  symmetry. apply Permutation_rev.
Qed.

Lemma listsort_elem_of {A} (cmp : A -> A -> Z) (l : list A) (x : A) :
  x ∈ Py.listsort cmp l -> x ∈ l.
Proof. by rewrite listsort_perm. Qed.

(** *** Pour order *)

(** C2 (the code departs from the claim). On [three_clones], where [ww/c]
    depends on [ww/a] and [ww/b] on nothing, the dependencies are acyclic
    and the order [_pour_tank_order] computes is [ww/c], [ww/b], [ww/a]:
    [ww/c] runs before the tank that feeds it, so the order is not a
    topological order of the pour dependencies. *)
Theorem pour_order_not_topological :
  get_pour_dependencies three_clones_world 0 = ∅
  /\ get_pour_dependencies three_clones_world 1 = ∅
  /\ get_pour_dependencies three_clones_world 2 = {[ 0 ]}
  /\ _pour_tank_order Py.listsort three_clones three_clones_world = [2; 1; 0]
  /\ ~ topological (get_pour_dependencies three_clones_world)
         (_pour_tank_order Py.listsort three_clones three_clones_world).
Proof.
  assert (Hd : get_pour_dependencies three_clones_world 2 = {[ 0 ]}) by (vm_compute; reflexivity).
  assert (Ho : _pour_tank_order Py.listsort three_clones three_clones_world = [2; 1; 0])
    by (vm_compute; reflexivity).
  repeat split; try (vm_compute; reflexivity); try assumption.
  rewrite Ho. intros Htopo.
  destruct (Htopo 0%nat 2 0) as (j & Hj & _).
  - reflexivity.
  - rewrite Hd. set_solver.
  - lia.
Qed.

(** *** Round trip *)

(** C1 (the code departs from the claim). On [three_clones] with the funnel
    values [a = 1] and [b = 2], [pour] returns a tap mapping in which the taps
    of [ww/c] hold [None] (the tank ran before the tank that feeds it), and
    [pump] on that mapping raises instead of returning the funnel values. *)
Theorem pump_after_pour_raises :
  items_of (pour Py.listsort three_clones three_clones_input "str" three_clones_world)
  = inr [(KStr "ww/c/tubes/a", None); (KStr "ww/c/tubes/b", None);
         (KStr "ww/a/tubes/b", Some (PInt 1));
         (KStr "ww/b/tubes/a", Some (PInt 2)); (KStr "ww/b/tubes/b", Some (PInt 2))]
  /\ items_of (pump_after_pour Py.listsort three_clones three_clones_input "str" "str"
                 three_clones_world)
     = inl MissingInput.
Proof. split; vm_compute; reflexivity. Qed.

(** *** Determinism *)

(** C4 (amended). For a Waterwork whose dictionaries are consistent, two
    runs of [pour] that each start right after [clear_vals] have the same
    outcome (the tap mapping, or the exception) for the same key type and
    for funnel dictionaries of the same items: items that come in the same
    order, or in any order when every key names a part and no part is
    written for two keys. This holds whatever values earlier runs have left
    in the store. The sort is any that returns elements of the list it is
    given. *)
Theorem pour_after_clear_vals_deterministic sorted (self : Waterwork)
    (fd1 fd2 : list (pykey * val)) (key_type : string) (w1 w2 : World) :
  (forall cmp l x, x ∈ sorted cmp l -> x ∈ l) ->
  consistent self w1 ->
  same_graph w1 w2 ->
  fd1 = fd2 \/ (fd1 ≡ₚ fd2 /\ each_part_once self w1 fd1) ->
  (pour sorted self fd1 key_type (clear_vals self w1).2).1
  = (pour sorted self fd2 key_type (clear_vals self w2).2).1.
Proof.
  intros Hsorted Hconsistent Hsame Hitems.
  transitivity (pour sorted self fd2 key_type (clear_vals self w1).2).1.
  - destruct Hitems as [->|[Hperm Honce]]; [done|].
    f_equal. apply pour_bind_funnels, bind_funnels_perm; [done|].
    eapply each_part_once_same_graph; [|exact Honce].
    symmetry. apply only_values_clear_vals.
  - by apply (alike_pour sorted self fd2 key_type Hsorted), agree_clear_vals.
Qed.

(** C4, the claim as stated fails: two runs of [pour] on [one_clone] with
    the same, empty, funnel mapping differ. The first raises [MissingInput];
    the second, after a run that has left [a = 1] in the funnel, returns a
    tap mapping. *)
Lemma pour_depends_on_stored_values :
  let w := (pour Py.listsort one_clone one_clone_input "str" one_clone_world).2 in
  items_of (pour Py.listsort one_clone [] "str" one_clone_world) = inl MissingInput
  /\ items_of (pour Py.listsort one_clone [] "str" w)
     = inr [(KStr "A/c/tubes/a", Some (PInt 1)); (KStr "A/c/tubes/b", Some (PInt 1))].
Proof. split; vm_compute; reflexivity. Qed.

(** The binding step takes the items in the order they come: with two keys
    that name the one slot of [one_clone], its name and the pair of its tank
    and key, the value of the later item is the one the tank reads. *)
Lemma pour_binds_in_the_order_of_the_items :
  let fd := [(KStr "A/c/slots/a", Some (PInt 1)); (KTuple "A/c" "a", Some (PInt 7))] in
  items_of (pour Py.listsort one_clone fd "str" one_clone_world)
  = inr [(KStr "A/c/tubes/a", Some (PInt 7)); (KStr "A/c/tubes/b", Some (PInt 7))]
  /\ items_of (pour Py.listsort one_clone (reverse fd) "str" one_clone_world)
     = inr [(KStr "A/c/tubes/a", Some (PInt 1)); (KStr "A/c/tubes/b", Some (PInt 1))].
Proof. split; vm_compute; reflexivity. Qed.

Lemma pour_after_clear_vals_deterministic_witness :
  let w := (pour Py.listsort three_clones three_clones_input "str" three_clones_world).2 in
  (pour Py.listsort three_clones three_clones_input "str"
     (clear_vals three_clones three_clones_world).2).1
  = (pour Py.listsort three_clones (reverse three_clones_input) "str"
       (clear_vals three_clones w).2).1.
Proof.
  apply (pour_after_clear_vals_deterministic Py.listsort three_clones three_clones_input
           (reverse three_clones_input) "str").
  - intros cmp l x. apply listsort_elem_of.
  - unfold consistent. apply (bool_decide_unpack _). vm_compute. exact I.
  - symmetry. apply pour_same_graph.
  - right. split; [apply perm_swap|].
    unfold each_part_once. apply (bool_decide_unpack _). vm_compute. exact I.
Defined.

(** *** Composition *)

(** C3 (the code departs from the claim). [combine] on a Waterwork whose tank
    has a free slot ([free_clone], the funnel of [B/d]) raises when it reads
    the tank of the tube of that slot, whatever the constructors of tanks and
    placeholders do: no combined Waterwork is returned. *)
Theorem combine_free_slot_raises :
  forall (new_placeholder : string -> option string -> val -> M ph_id)
         (new_tank : TankClass -> string -> gmap string tube_ref -> M tank_id),
    (combine Py.listsort new_placeholder new_tank 1 0 [] "merged" two_waterworks).1
    = inl AttributeError.
Proof. intros. vm_compute. reflexivity. Qed.

(** C6 (the code departs from the claim). After [merge] of [fed_clone] and
    [free_clone], joined at the slot of [B/d] and tube [a] of [A/c], the five
    dictionaries of slots, tubes and tanks of both sources are empty and
    their tanks are in the new Waterwork (Waterwork 2), but the placeholder
    [A/input] is still in the first source and the new Waterwork has no
    placeholder. *)
Theorem merge_keeps_placeholders :
  let merged := merge Py.listsort 0 1 [((1, "a"), OfTank 0 "a")] "merged" two_waterworks in
  merged.1 = inr 2
  /\ (forall i, i = 0 \/ i = 1 ->
        funnels (get_ww merged.2 i) = ∅ /\ slots (get_ww merged.2 i) = ∅
        /\ tubes (get_ww merged.2 i) = ∅ /\ tanks (get_ww merged.2 i) = ∅
        /\ taps (get_ww merged.2 i) = ∅)
  /\ map_to_list (tanks (get_ww merged.2 2)) = [("merged/A/c", 0); ("merged/B/d", 1)]
  /\ map_to_list (placeholders (get_ww merged.2 0)) = [("A/input", 0)]
  /\ placeholders (get_ww merged.2 2) = ∅.
Proof.
  split; [vm_compute; reflexivity|].
  split; [intros i [-> | ->]; repeat split; vm_compute; reflexivity|].
  repeat split; vm_compute; reflexivity.
Qed.

(** *** Key modes *)

(** C5 (amended). [pour], when its own first three steps complete, returns
    a dictionary for exactly the key types [obj], [tuple] and [str]; [pump],
    when its own first three steps complete, for exactly [slot], [tuple] and
    [str]. For any other key type (for [pump], [obj] is one) the call raises
    [BadKeyMode] as soon as the Waterwork has a tap (a funnel for [pump]),
    and returns the empty dictionary when it has none. What is said of one
    of the two calls does not depend on the other. *)
Theorem key_types_of_pour_and_pump sorted (self : Waterwork) (fd td : list (pykey * val))
    (key_type : string) (w : World) :
  ((run_pour sorted self fd w).1 = inr tt ->
     (key_type ∈ ["obj"; "tuple"; "str"] ->
        exists d, pour sorted self fd key_type w = (inr d, (run_pour sorted self fd w).2))
     /\ (key_type ∉ ["obj"; "tuple"; "str"] ->
           pour sorted self fd key_type w
           = (if decide (taps self = ∅) then inr ∅ else inl BadKeyMode,
              (run_pour sorted self fd w).2)))
  /\ ((run_pump sorted self td w).1 = inr tt ->
        (key_type ∈ ["slot"; "tuple"; "str"] ->
           exists d, pump sorted self td key_type w = (inr d, (run_pump sorted self td w).2))
        /\ (key_type ∉ ["slot"; "tuple"; "str"] ->
              pump sorted self td key_type w
              = (if decide (funnels self = ∅) then inr ∅ else inl BadKeyMode,
                 (run_pump sorted self td w).2))).
Proof.
  split.
  - intros Hpour. split.
    + intros Hkey. rewrite pour_collects by done.
      apply collect_returns. intros tap. by apply tap_key_accepts.
    + intros Hkey. destruct (decide (taps self = ∅)) as [Hnone|Hsome].
      * rewrite pour_collects by done. rewrite Hnone, map_to_list_empty. reflexivity.
      * by apply pour_bad_key_type.
  - intros Hpump. split.
    + intros Hkey. rewrite pump_collects by done.
      apply collect_returns. intros funnel. by apply funnel_key_accepts.
    + intros Hkey. destruct (decide (funnels self = ∅)) as [Hnone|Hsome].
      * rewrite pump_collects by done. rewrite Hnone, map_to_list_empty. reflexivity.
      * by apply pump_bad_key_type.
Qed.

(** C5, the claim as stated fails: [pump] returns a dictionary for the key
    type [slot], which is none of [str], [tuple] and [obj], and raises
    [BadKeyMode] for [obj]; [pour] on a Waterwork without a tap returns the
    empty dictionary for a key type that is no key type at all. *)
Lemma pump_takes_slot_and_refuses_obj :
  items_of (pump Py.listsort one_clone one_clone_taps "slot" one_clone_world)
  = inr [(KSlot (0, "a"), Some (PInt 1))]
  /\ items_of (pump Py.listsort one_clone one_clone_taps "obj" one_clone_world)
     = inl BadKeyMode
  /\ items_of (pour Py.listsort (new_waterwork "") [] "nonsense" one_clone_world) = inr [].
Proof. repeat split; vm_compute; reflexivity. Qed.

Lemma key_types_of_pour_and_pump_witness :
  let w1 := (run_pour Py.listsort one_clone one_clone_input one_clone_world).2 in
  let w2 := (run_pump Py.listsort one_clone one_clone_taps one_clone_world).2 in
  (("obj" ∈ ["obj"; "tuple"; "str"] ->
      exists d, pour Py.listsort one_clone one_clone_input "obj" one_clone_world = (inr d, w1))
   /\ ("obj" ∉ ["obj"; "tuple"; "str"] ->
         pour Py.listsort one_clone one_clone_input "obj" one_clone_world
         = (if decide (taps one_clone = ∅) then inr ∅ else inl BadKeyMode, w1)))
  /\ (("obj" ∈ ["slot"; "tuple"; "str"] ->
         exists d, pump Py.listsort one_clone one_clone_taps "obj" one_clone_world = (inr d, w2))
      /\ ("obj" ∉ ["slot"; "tuple"; "str"] ->
            pump Py.listsort one_clone one_clone_taps "obj" one_clone_world
            = (if decide (funnels one_clone = ∅) then inr ∅ else inl BadKeyMode, w2))).
Proof.
  destruct (key_types_of_pour_and_pump Py.listsort one_clone one_clone_input one_clone_taps
              "obj" one_clone_world) as [Hpour Hpump].
  split; [apply Hpour | apply Hpump]; vm_compute; reflexivity.
Defined.




(** The store [pour_default] leaves when it raises holds the values the tank
    has written. *)
Lemma pour_default_has_written :
  let r := pour_default Py.listsort one_clone one_clone_input one_clone_world in
  r.1 = inl BadKeyMode
  /\ tube_get_val one_clone_world (0, "a") = None
  /\ tube_get_val r.2 (0, "a") = Some (PInt 1)
  /\ tube_get_val r.2 (0, "b") = Some (PInt 1).
Proof. repeat split; vm_compute; reflexivity. Qed.

(** *** Errors of the input *)

(** C7 (amended). In the binding step of [pour], the first key of
    [funnel_dict] that names no part (a string that is the name of neither a
    placeholder nor a slot of the Waterwork, free or linked; a pair of a tank
    and a key that is no slot of it; a Slot or Tube object) raises
    [UnknownFunnel], the keys before it being bound; and when every key is
    bound and a funnel still holds [None], [pour] raises [MissingInput] with
    the store as the binding left it: no tank has run. *)
Theorem pour_input_errors sorted (self : Waterwork) (key_type : string) (w : World) :
  (forall pre k v post,
     (bind_funnels self pre w).1 = inr tt ->
     unresolved self (bind_funnels self pre w).2 k ->
     pour sorted self (pre ++ (k, v) :: post) key_type w
     = (inl UnknownFunnel, (bind_funnels self pre w).2))
  /\ (forall fd n s,
        (bind_funnels self fd w).1 = inr tt ->
        funnels self !! n = Some s ->
        slot_get_val (bind_funnels self fd w).2 s = None ->
        pour sorted self fd key_type w = (inl MissingInput, (bind_funnels self fd w).2)).
Proof.
  split.
  - intros pre k v post Hpre Hk. unfold pour, run_pour.
    apply bind_eq_raise, bind_eq_raise. unfold bind_funnels in *.
    rewrite for_each_app. rewrite (bind_ok _ _ _ tt Hpre). simpl.
    apply bind_eq_raise. by apply bind_funnel_unresolved.
  - intros fd n s Hfd Hn Hs. unfold pour, run_pour.
    apply bind_eq_raise. rewrite (bind_ok _ _ _ tt Hfd).
    apply bind_eq_raise. by eapply check_funnels_missing.
Qed.

(** C7, the claim as stated fails: the slot of [ww/c] is linked to a tube,
    so it is no funnel, and its name is no placeholder, yet [pour] binds the
    key and does not raise [UnknownFunnel]. *)
Lemma pour_binds_linked_slot :
  funnels three_clones !! "ww/c/slots/a" = None
  /\ placeholders three_clones !! "ww/c/slots/a" = None
  /\ slot_tube_of three_clones_world (2, "a") = Some (OfTank 0 "a")
  /\ (bind_funnels three_clones [(KStr "ww/c/slots/a", Some (PInt 5))] three_clones_world).1
     = inr tt
  /\ items_of (pour Py.listsort three_clones
                 (three_clones_input ++ [(KStr "ww/c/slots/a", Some (PInt 5))]) "str"
                 three_clones_world)
     = inr [(KStr "ww/c/tubes/a", Some (PInt 5)); (KStr "ww/c/tubes/b", Some (PInt 5));
            (KStr "ww/a/tubes/b", Some (PInt 1));
            (KStr "ww/b/tubes/a", Some (PInt 2)); (KStr "ww/b/tubes/b", Some (PInt 2))].
Proof. repeat split; vm_compute; reflexivity. Qed.

Lemma pour_input_errors_witness :
  pour Py.listsort three_clones
    ([(KStr "ww/a/slots/a", Some (PInt 1))] ++ (KStr "ww/nowhere", Some (PInt 2)) :: [])
    "str" three_clones_world
  = (inl UnknownFunnel,
     (bind_funnels three_clones [(KStr "ww/a/slots/a", Some (PInt 1))] three_clones_world).2)
  /\ pour Py.listsort three_clones [(KStr "ww/a/slots/a", Some (PInt 1))] "str"
       three_clones_world
     = (inl MissingInput,
        (bind_funnels three_clones [(KStr "ww/a/slots/a", Some (PInt 1))] three_clones_world).2).
Proof.
  destruct (pour_input_errors Py.listsort three_clones "str" three_clones_world)
    as [Hunknown Hmissing].
  split.
  - apply Hunknown; [vm_compute; reflexivity|]. split; vm_compute; reflexivity.
  - apply (Hmissing _ "ww/b/slots/a" (1, "a")); vm_compute; reflexivity.
Defined.

(** *** Fitting the datetime transform *)

Module DateTimeFacts.
Import DateTime.

(** C9 (amended). On an empty dataset [calc_global_values] raises [EmptyFit]
    when the mode is [mean_std] or [min_max], the two modes that compute
    statistics; with no mode it computes none and returns. *)
Theorem empty_dataset_raises `{Numpy} (self : DateTimeTransform) (verbose : bool) :
  raised (calc_global_values self [] verbose)
  = match norm_mode self with
    | NormNone => None
    | MinMax | MeanStd => Some EmptyFit
    end.
Proof. unfold calc_global_values. simpl. destruct (norm_mode self); reflexivity. Qed.

(** C9, the claim as stated fails: with no mode, fitting on the empty
    dataset returns without an exception. *)
Lemma empty_dataset_without_mode_returns :
  raised (calc_global_values (H := toy_numpy) (new_transform NormNone None) [] true) = None.
Proof. reflexivity. Qed.

(** C8 (amended). On a dataset that is not empty: in mode [mean_std], when
    the standard deviations come as an array (one per column) that holds a
    zero, every zero is replaced by 1; in mode [min_max], when the minimum
    and the maximum are scalars and equal, the maximum is replaced by the
    maximum plus 1 (the minimum plus 1, the two being equal). Neither case
    raises, and the warning is issued exactly when [verbose] is set. *)
Theorem degenerate_statistics_patched `{Numpy} (self : DateTimeTransform) (array : list row)
    (verbose : bool) :
  array <> [] ->
  let temp_array :=
    to_num (zero_datetime self) (num_units self) (time_unit self) (dtype self) <$> array in
  let out := calc_global_values self array verbose in
  (forall xs,
     norm_mode self = MeanStd ->
     nanstd temp_array (norm_axis self) = Array xs ->
     existsb (fun x => Feqb x F0) xs = true ->
     raised out = None
     /\ std (after out) = Some (Array ((fun x => if Feqb x F0 then F1 else x) <$> xs))
     /\ warnings out = if verbose then [zero_std_warning self] else [])
  /\ (forall lo hi,
        norm_mode self = MinMax ->
        nanmin temp_array (norm_axis self) = Scalar lo ->
        nanmax temp_array (norm_axis self) = Scalar hi ->
        Feqb lo hi = true ->
        raised out = None
        /\ min (after out) = Some (Scalar lo)
        /\ max (after out) = Some (Scalar (Fadd hi F1))
        /\ warnings out
           = if verbose then [same_min_max_warning self (Scalar lo) (Scalar (Fadd hi F1))]
             else []).
Proof.
  intros Harray temp_array out.
  assert (Hlen : bool_decide (length temp_array = 0) = false).
  { apply bool_decide_eq_false_2. unfold temp_array. rewrite length_fmap.
    destruct array; [done | discriminate]. }
  split.
  - intros xs Hmode Hstd Hzero. subst out. unfold calc_global_values. simpl.
    rewrite Hmode. fold temp_array. rewrite Hlen, Hstd. simpl. rewrite Hzero. simpl.
    destruct verbose; repeat split.
  - intros lo hi Hmode Hmin Hmax Heq. subst out. unfold calc_global_values. simpl.
    rewrite Hmode. fold temp_array. rewrite Hlen, Hmin, Hmax. simpl. rewrite Heq. simpl.
    destruct verbose; repeat split.
Qed.

(** C8, the claim as stated fails: with [verbose] unset, a zero standard
    deviation is replaced by 1 and no warning is issued. *)
Lemma zero_std_patched_silently :
  let out := calc_global_values (H := toy_numpy) (new_transform MeanStd (Some 0%Z))
               [[1%float; 5%float]; [1%float; 7%float]] false in
  raised out = None
  /\ std (after out) = Some (Array [1%float; 1%float])
  /\ warnings out = [].
Proof. repeat split; vm_compute; reflexivity. Qed.

(** With every axis reduced (the default [norm_axis = None]) the standard
    deviation is a numpy scalar, and replacing its zero raises. *)
Lemma scalar_zero_std_raises :
  let out := calc_global_values (H := toy_numpy) (new_transform MeanStd None)
               [[1%float]; [1%float]] true in
  raised out = Some TypeError /\ std (after out) = Some (Scalar 0%float).
Proof. repeat split; vm_compute; reflexivity. Qed.

Lemma degenerate_statistics_patched_witness :
  (let out := calc_global_values (H := toy_numpy) (new_transform MeanStd (Some 0%Z))
                [[1%float; 5%float]; [1%float; 7%float]] true in
   raised out = None
   /\ std (after out) = Some (Array [1%float; 1%float])
   /\ warnings out = ["DatetimeTransform  has a zero-valued std, replacing with 1."])
  /\ (let out := calc_global_values (H := toy_numpy) (new_transform MinMax None)
                   [[3%float]; [3%float]] false in
      raised out = None
      /\ min (after out) = Some (Scalar 3%float)
      /\ max (after out) = Some (Scalar 4%float)
      /\ warnings out = []).
Proof.
  split.
  - refine (proj1 (degenerate_statistics_patched (H := toy_numpy)
                     (new_transform MeanStd (Some 0%Z))
                     [[1%float; 5%float]; [1%float; 7%float]] true _)
              [0%float; 1%float] _ _ _); [discriminate | reflexivity..].
  - refine (proj2 (degenerate_statistics_patched (H := toy_numpy)
                     (new_transform MinMax None) [[3%float]; [3%float]] false _)
              3%float 3%float _ _ _ _); [discriminate | reflexivity..].
Defined.

End DateTimeFacts.

(** ** Further properties of the engine *)

(** *** Binding and checking the taps *)

Lemma check_taps_spec (self : Waterwork) (w : World) :
  check_taps self w
  = (if existsb (fun x : string * tube_obj => if tube_get_val w x.2 is None then true else false)
          (map_to_list (taps self))
     then inl MissingInput else inr tt, w).
Proof.
  unfold check_taps, bind, get. simpl.
  rewrite <- for_each_check. apply for_each_ext.
  intros [n t] w'. simpl. destruct (tube_get_val w t); reflexivity.
Qed.

Lemma check_taps_missing (self : Waterwork) (w : World) (n : string) (t : tube_obj) :
  taps self !! n = Some t -> tube_get_val w t = None ->
  check_taps self w = (inl MissingInput, w).
Proof.
  intros Hn Ht. rewrite check_taps_spec.
  replace (existsb _ _) with true; [reflexivity|].
  symmetry. apply existsb_exists. exists (n, t). split.
  - apply list_elem_of_In, elem_of_map_to_list, Hn.
  - simpl. rewrite Ht. reflexivity.
Qed.

Lemma maybe_get_tube_unknown (self : Waterwork) (w : World) (k : pykey) :
  unknown_tap self w k <-> maybe_get_tube self w k = None.
Proof.
  destruct k as [s | tank key | s | t | p]; simpl; try done.
  destruct (tanks self !! tank) as [t|]; [|done].
  case_bool_decide; naive_solver.
Qed.

Lemma bind_tap_unknown (self : Waterwork) (w : World) (k : pykey) (v : val) :
  unknown_tap self w k -> bind_tap self k v w = (inl UnknownTap, w).
Proof.
  intros Hk%maybe_get_tube_unknown. unfold bind_tap, bind, get. simpl. by rewrite Hk.
Qed.

(** X1. In the binding step of [pump], the first key of [tap_dict] that names
    no tube raises [UnknownTap], the keys before it being bound; and when
    every key is bound and a tap still holds [None], [pump] raises
    [MissingInput] with the store as the binding left it: no tank has run. *)
Theorem pump_input_errors sorted (self : Waterwork) (key_type : string) (w : World) :
  (forall pre k v post,
     (bind_taps self pre w).1 = inr tt ->
     unknown_tap self (bind_taps self pre w).2 k ->
     pump sorted self (pre ++ (k, v) :: post) key_type w
     = (inl UnknownTap, (bind_taps self pre w).2))
  /\ (forall td n t,
        (bind_taps self td w).1 = inr tt ->
        taps self !! n = Some t ->
        tube_get_val (bind_taps self td w).2 t = None ->
        pump sorted self td key_type w = (inl MissingInput, (bind_taps self td w).2)).
Proof.
  split.
  - intros pre k v post Hpre Hk. unfold pump, run_pump.
    apply bind_eq_raise, bind_eq_raise. unfold bind_taps in *.
    rewrite for_each_app. rewrite (bind_ok _ _ _ tt Hpre). simpl.
    apply bind_eq_raise. by apply bind_tap_unknown.
  - intros td n t Htd Hn Ht. unfold pump, run_pump.
    apply bind_eq_raise. rewrite (bind_ok _ _ _ tt Htd).
    apply bind_eq_raise. by eapply check_taps_missing.
Qed.

Lemma pump_input_errors_witness :
  pump Py.listsort three_clones
    ([(KStr "ww/a/tubes/b", Some (PInt 1))] ++ (KTube (1, "a"), Some (PInt 2)) :: [])
    "str" three_clones_world
  = (inl UnknownTap,
     (bind_taps three_clones [(KStr "ww/a/tubes/b", Some (PInt 1))] three_clones_world).2)
  /\ pump Py.listsort three_clones [(KStr "ww/a/tubes/b", Some (PInt 1))] "str"
       three_clones_world
     = (inl MissingInput,
        (bind_taps three_clones [(KStr "ww/a/tubes/b", Some (PInt 1))] three_clones_world).2).
Proof.
  destruct (pump_input_errors Py.listsort three_clones "str" three_clones_world)
    as [Hunknown Hmissing].
  split.
  - apply Hunknown; [vm_compute; reflexivity | exact I].
  - apply (Hmissing _ "ww/b/tubes/a" (1, "a")); vm_compute; reflexivity.
Defined.

(** *** The dictionary that is returned *)

(** The loop that fills the dictionary leaves the store as it is. *)
Lemma collect_store {A} (key_of : A -> Exn + pykey) (val_of : A -> val) (l : list A)
    (d : gmap pykey val) (w : World) :
  (collect key_of val_of l d w).2 = w.
Proof.
  revert d. induction l as [|x l IH]; intros d; simpl; [reflexivity|].
  destruct (key_of x); [reflexivity | apply IH].
Qed.

(** The keys of the dictionary: those it had, and the key of every part. *)
Lemma collect_keys {A} (key_of : A -> Exn + pykey) (val_of : A -> val) (l : list A)
    (d d' : gmap pykey val) (w : World) :
  (collect key_of val_of l d w).1 = inr d' ->
  (forall x, x ∈ l -> exists k, key_of x = inr k /\ is_Some (d' !! k))
  /\ (forall k, is_Some (d !! k) -> is_Some (d' !! k))
  /\ (forall k, is_Some (d' !! k) -> is_Some (d !! k) \/ exists x, x ∈ l /\ key_of x = inr k).
Proof.
  revert d. induction l as [|x l IH]; intros d; simpl.
  - intros [= <-]. split; [|split].
    + intros x Hx. by apply elem_of_nil in Hx.
    + done.
    + intros k Hk. by left.
  - destruct (key_of x) as [e|k] eqn:Hkey; [discriminate|].
    intros Hcollect. destruct (IH _ Hcollect) as (Hparts & Hold & Hnew).
    split; [|split].
    + intros y [->|Hy]%elem_of_cons; [|by apply Hparts].
      exists k. split; [done|]. apply Hold. rewrite lookup_insert_eq. by eexists.
    + intros k' Hk'. apply Hold. destruct (decide (k = k')) as [->|Hne].
      * rewrite lookup_insert_eq. by eexists.
      * by rewrite lookup_insert_ne.
    + intros k' Hk'. destruct (Hnew k' Hk') as [Hin|(y & Hy & Hkey')].
      * destruct (decide (k = k')) as [->|Hne].
        -- right. exists x. split; [apply elem_of_cons; by left | done].
        -- left. by rewrite lookup_insert_ne in Hin.
      * right. exists y. split; [apply elem_of_cons; by right | done].
Qed.

(** When no two parts have the same key, every part is in the dictionary
    under its key with its value, and the dictionary has one entry per
    part. *)
Lemma collect_values {A} (key_of : A -> Exn + pykey) (val_of : A -> val) (l : list A)
    (d d' : gmap pykey val) (w : World) :
  (collect key_of val_of l d w).1 = inr d' ->
  NoDup (key_of <$> l) ->
  (forall x, x ∈ l -> key_of x ∉ (inr <$> (map_to_list d).*1 : list (Exn + pykey))) ->
  (forall x, x ∈ l -> exists k, key_of x = inr k /\ d' !! k = Some (val_of x))
  /\ (forall k, k ∉ (omap (fun x => match key_of x with inr k => Some k | inl _ => None end) l) ->
        d' !! k = d !! k)
  /\ size d' = (size d + length l)%nat.
Proof.
  revert d. induction l as [|x l IH]; intros d; simpl.
  - intros [= <-] _ _. split; [|split]; [|done|lia].
    intros x Hx. by apply elem_of_nil in Hx.
  - destruct (key_of x) as [e|k] eqn:Hkey; [discriminate|].
    intros Hcollect [Hx Hnodup]%NoDup_cons Hfresh.
    assert (Hk : d !! k = None).
    { apply eq_None_not_Some. intros [v Hv].
      apply (Hfresh x); [apply elem_of_cons; by left|].
      rewrite Hkey. apply list_elem_of_fmap. exists k. split; [done|].
      apply list_elem_of_fmap. exists (k, v). split; [done|]. by apply elem_of_map_to_list. }
    destruct (IH _ Hcollect Hnodup) as (Hparts & Hrest & Hsize).
    { intros y Hy Hin. apply list_elem_of_fmap in Hin as (k' & Hk' & Hin).
      apply list_elem_of_fmap in Hin as ([k'' v] & -> & Hin). simpl in Hk'.
      apply elem_of_map_to_list in Hin. destruct (decide (k = k'')) as [->|Hne].
      - apply Hx. rewrite <- Hk'. by apply list_elem_of_fmap_2.
      - rewrite lookup_insert_ne in Hin by done.
        apply (Hfresh y); [apply elem_of_cons; by right|].
        rewrite Hk'. apply list_elem_of_fmap. exists k''. split; [done|].
        apply list_elem_of_fmap. exists (k'', v). split; [done|]. by apply elem_of_map_to_list. }
    split; [|split].
    + intros y [->|Hy]%elem_of_cons; [|by apply Hparts].
      exists k. split; [done|]. rewrite Hrest; [apply lookup_insert_eq|].
      intros Hin. apply list_elem_of_omap in Hin as (y & Hy & Hky).
      destruct (key_of y) as [|k'] eqn:Hkey'; [discriminate|]. injection Hky as ->.
      apply Hx. rewrite <- Hkey'. by apply list_elem_of_fmap_2.
    + intros k' Hk'. rewrite not_elem_of_cons in Hk'. destruct Hk' as [Hne Hk'].
      rewrite Hrest by done. by rewrite lookup_insert_ne.
    + rewrite Hsize, map_size_insert_None by done. lia.
Qed.

(** X2. When [pour] completes with one of its key types and no two taps have the
    same key, the dictionary it returns holds every tap of the Waterwork
    under its key, with the value the tube holds at the end of the run, and
    nothing else: it has as many entries as the Waterwork has taps. *)
Theorem pour_returns_every_tap sorted (self : Waterwork) (fd : list (pykey * val))
    (key_type : string) (w : World) :
  (run_pour sorted self fd w).1 = inr tt ->
  key_type ∈ ["obj"; "tuple"; "str"] ->
  NoDup (tap_key (run_pour sorted self fd w).2 key_type <$> (map_to_list (taps self)).*2) ->
  exists d,
    pour sorted self fd key_type w = (inr d, (run_pour sorted self fd w).2)
    /\ (forall tap, tap ∈ (map_to_list (taps self)).*2 ->
          exists k, tap_key (run_pour sorted self fd w).2 key_type tap = inr k
                    /\ d !! k = Some (tube_get_val (run_pour sorted self fd w).2 tap))
    /\ (forall k, is_Some (d !! k) ->
          exists tap, tap ∈ (map_to_list (taps self)).*2
                      /\ tap_key (run_pour sorted self fd w).2 key_type tap = inr k)
    /\ size d = size (taps self).
Proof.
  intros Hrun Hkey Hnodup. rewrite pour_collects by done.
  set (w' := (run_pour sorted self fd w).2) in *.
  destruct (collect_returns (tap_key w' key_type) (tube_get_val w')
              (map_to_list (taps self)).*2 ∅ w') as [d Hd].
  { intros tap. by apply tap_key_accepts. }
  assert (Hd1 : (collect (tap_key w' key_type) (tube_get_val w')
                   (map_to_list (taps self)).*2 ∅ w').1 = inr d) by by rewrite Hd.
  exists d. split; [done|].
  destruct (collect_values _ _ _ _ _ _ Hd1 Hnodup) as (Hparts & _ & Hsize).
  { intros tap _. rewrite map_to_list_empty. apply not_elem_of_nil. }
  destruct (collect_keys _ _ _ _ _ _ Hd1) as (_ & _ & Hnew).
  split; [done|]. split.
  - intros k Hk. destruct (Hnew k Hk) as [Hin|Hin]; [|done].
    rewrite lookup_empty in Hin. by destruct Hin.
  - rewrite Hsize, map_size_empty, length_fmap, length_map_to_list. reflexivity.
Qed.

Lemma pour_returns_every_tap_witness :
  exists d,
    pour Py.listsort three_clones three_clones_input "str" three_clones_world
    = (inr d, (run_pour Py.listsort three_clones three_clones_input three_clones_world).2)
    /\ (forall tap, tap ∈ (map_to_list (taps three_clones)).*2 ->
          exists k,
            tap_key (run_pour Py.listsort three_clones three_clones_input three_clones_world).2
              "str" tap = inr k
            /\ d !! k
               = Some (tube_get_val
                         (run_pour Py.listsort three_clones three_clones_input
                            three_clones_world).2 tap))
    /\ (forall k, is_Some (d !! k) ->
          exists tap, tap ∈ (map_to_list (taps three_clones)).*2
            /\ tap_key (run_pour Py.listsort three_clones three_clones_input three_clones_world).2
                 "str" tap = inr k)
    /\ size d = size (taps three_clones).
Proof.
  apply (pour_returns_every_tap Py.listsort three_clones three_clones_input "str"
           three_clones_world).
  - vm_compute. reflexivity.
  - apply (bool_decide_unpack _). vm_compute. exact I.
  - apply (bool_decide_unpack _). vm_compute. exact I.
Defined.

(** X3. The mirror for [pump]: the dictionary it returns holds every funnel of
    the Waterwork under its key, with the value the slot holds at the end of
    the run, and nothing else. *)
Theorem pump_returns_every_funnel sorted (self : Waterwork) (td : list (pykey * val))
    (key_type : string) (w : World) :
  (run_pump sorted self td w).1 = inr tt ->
  key_type ∈ ["slot"; "tuple"; "str"] ->
  NoDup (funnel_key (run_pump sorted self td w).2 key_type <$> (map_to_list (funnels self)).*2) ->
  exists d,
    pump sorted self td key_type w = (inr d, (run_pump sorted self td w).2)
    /\ (forall funnel, funnel ∈ (map_to_list (funnels self)).*2 ->
          exists k, funnel_key (run_pump sorted self td w).2 key_type funnel = inr k
                    /\ d !! k = Some (slot_get_val (run_pump sorted self td w).2 funnel))
    /\ (forall k, is_Some (d !! k) ->
          exists funnel, funnel ∈ (map_to_list (funnels self)).*2
                         /\ funnel_key (run_pump sorted self td w).2 key_type funnel = inr k)
    /\ size d = size (funnels self).
Proof.
  intros Hrun Hkey Hnodup. rewrite pump_collects by done.
  set (w' := (run_pump sorted self td w).2) in *.
  destruct (collect_returns (funnel_key w' key_type) (slot_get_val w')
              (map_to_list (funnels self)).*2 ∅ w') as [d Hd].
  { intros funnel. by apply funnel_key_accepts. }
  assert (Hd1 : (collect (funnel_key w' key_type) (slot_get_val w')
                   (map_to_list (funnels self)).*2 ∅ w').1 = inr d) by by rewrite Hd.
  exists d. split; [done|].
  destruct (collect_values _ _ _ _ _ _ Hd1 Hnodup) as (Hparts & _ & Hsize).
  { intros funnel _. rewrite map_to_list_empty. apply not_elem_of_nil. }
  destruct (collect_keys _ _ _ _ _ _ Hd1) as (_ & _ & Hnew).
  split; [done|]. split.
  - intros k Hk. destruct (Hnew k Hk) as [Hin|Hin]; [|done].
    rewrite lookup_empty in Hin. by destruct Hin.
  - rewrite Hsize, map_size_empty, length_fmap, length_map_to_list. reflexivity.
Qed.

Lemma pump_returns_every_funnel_witness :
  exists d,
    pump Py.listsort one_clone one_clone_taps "tuple" one_clone_world
    = (inr d, (run_pump Py.listsort one_clone one_clone_taps one_clone_world).2)
    /\ (forall funnel, funnel ∈ (map_to_list (funnels one_clone)).*2 ->
          exists k,
            funnel_key (run_pump Py.listsort one_clone one_clone_taps one_clone_world).2
              "tuple" funnel = inr k
            /\ d !! k
               = Some (slot_get_val
                         (run_pump Py.listsort one_clone one_clone_taps one_clone_world).2
                         funnel))
    /\ (forall k, is_Some (d !! k) ->
          exists funnel, funnel ∈ (map_to_list (funnels one_clone)).*2
            /\ funnel_key (run_pump Py.listsort one_clone one_clone_taps one_clone_world).2
                 "tuple" funnel = inr k)
    /\ size d = size (funnels one_clone).
Proof.
  apply (pump_returns_every_funnel Py.listsort one_clone one_clone_taps "tuple" one_clone_world).
  - vm_compute. reflexivity.
  - apply (bool_decide_unpack _). vm_compute. exact I.
  - apply (bool_decide_unpack _). vm_compute. exact I.
Defined.

(** X4. [pump] does not take what [pour] returns with the key type [obj]: as
    soon as the Waterwork has a tap, the dictionary holds a Tube object as a
    key, which [maybe_get_tube] does not resolve, and [pump] raises
    [UnknownTap] before it binds a value. *)
Theorem pump_refuses_tube_objects sorted (self : Waterwork) (fd : list (pykey * val))
    (key_type : string) (w : World) :
  taps self <> ∅ ->
  (run_pour sorted self fd w).1 = inr tt ->
  pump_after_pour sorted self fd "obj" key_type w
  = (inl UnknownTap, (run_pour sorted self fd w).2).
Proof.
  intros Htaps Hrun. unfold pump_after_pour.
  set (w' := (run_pour sorted self fd w).2).
  assert (Hpour : exists d, pour sorted self fd "obj" w = (inr d, w')
                            /\ (collect (tap_key w' "obj") (tube_get_val w')
                                  (map_to_list (taps self)).*2 ∅ w').1 = inr d).
  { rewrite pour_collects by done. fold w'.
    destruct (collect_returns (tap_key w' "obj") (tube_get_val w')
                (map_to_list (taps self)).*2 ∅ w') as [d Hd].
    { intros tap. by eexists. }
    exists d. by rewrite Hd. }
  destruct Hpour as (d & Hpour & Hd). rewrite (bind_eq_ok _ _ _ _ _ Hpour).
  destruct (collect_keys _ _ _ _ _ _ Hd) as (Hparts & _ & Hnew).
  destruct (map_to_list d) as [|[k v] items] eqn:Hitems.
  - apply map_to_list_empty_iff in Hitems. subst d.
    destruct (map_to_list (taps self)).*2 as [|tap l] eqn:Hl; [by apply values_nonempty in Hl|].
    destruct (Hparts tap) as (k & _ & Hk); [apply elem_of_cons; by left|].
    rewrite lookup_empty in Hk. by destruct Hk.
  - assert (Hk : is_Some (d !! k)).
    { exists v. apply elem_of_map_to_list. rewrite Hitems. apply elem_of_cons. by left. }
    destruct (Hnew k Hk) as [Hin|(tap & _ & Htap)].
    { rewrite lookup_empty in Hin. by destruct Hin. }
    injection Htap as <-.
    unfold pump, run_pump, bind_taps. simpl.
    apply bind_eq_raise, bind_eq_raise, bind_eq_raise. by apply bind_tap_unknown.
Qed.

Lemma pump_refuses_tube_objects_witness :
  pump_after_pour Py.listsort one_clone one_clone_input "obj" "slot" one_clone_world
  = (inl UnknownTap, (run_pour Py.listsort one_clone one_clone_input one_clone_world).2).
Proof.
  apply (pump_refuses_tube_objects Py.listsort one_clone one_clone_input "slot" one_clone_world).
  - intros Hnone. apply (f_equal (fun m => m !! "A/c/tubes/a")) in Hnone. vm_compute in Hnone.
    discriminate.
  - vm_compute. reflexivity.
Defined.


(** X22. [pour] does not take what [pump] returns with the key type [slot], the
    default of [pump]: as soon as the Waterwork has a funnel, the dictionary
    holds a Slot object as a key, which neither [maybe_get_placeholder] nor
    [maybe_get_slot] resolves, and [pour] raises [UnknownFunnel] before it
    binds a value. *)
Theorem pour_refuses_slot_objects sorted (self : Waterwork) (td : list (pykey * val))
    (key_type : string) (w : World) :
  funnels self <> ∅ ->
  (run_pump sorted self td w).1 = inr tt ->
  pour_after_pump sorted self td "slot" key_type w
  = (inl UnknownFunnel, (run_pump sorted self td w).2).
Proof.
  intros Hfunnels Hrun. unfold pour_after_pump.
  set (w' := (run_pump sorted self td w).2).
  assert (Hpump : exists d, pump sorted self td "slot" w = (inr d, w')
                            /\ (collect (funnel_key w' "slot") (slot_get_val w')
                                  (map_to_list (funnels self)).*2 ∅ w').1 = inr d).
  { rewrite pump_collects by done. fold w'.
    destruct (collect_returns (funnel_key w' "slot") (slot_get_val w')
                (map_to_list (funnels self)).*2 ∅ w') as [d Hd].
    { intros funnel. by eexists. }
    exists d. by rewrite Hd. }
  destruct Hpump as (d & Hpump & Hd). rewrite (bind_eq_ok _ _ _ _ _ Hpump).
  destruct (collect_keys _ _ _ _ _ _ Hd) as (Hparts & _ & Hnew).
  destruct (map_to_list d) as [|[k v] items] eqn:Hitems.
  - apply map_to_list_empty_iff in Hitems. subst d.
    destruct (map_to_list (funnels self)).*2 as [|funnel l] eqn:Hl;
      [by apply values_nonempty in Hl|].
    destruct (Hparts funnel) as (k & _ & Hk); [apply elem_of_cons; by left|].
    rewrite lookup_empty in Hk. by destruct Hk.
  - assert (Hk : is_Some (d !! k)).
    { exists v. apply elem_of_map_to_list. rewrite Hitems. apply elem_of_cons. by left. }
    destruct (Hnew k Hk) as [Hin|(funnel & _ & Hfunnel)].
    { rewrite lookup_empty in Hin. by destruct Hin. }
    injection Hfunnel as <-.
    unfold pour, run_pour, bind_funnels. simpl.
    apply bind_eq_raise, bind_eq_raise, bind_eq_raise. by apply bind_funnel_unresolved.
Qed.

Lemma pour_refuses_slot_objects_witness :
  pour_after_pump Py.listsort one_clone one_clone_taps "slot" "str" one_clone_world
  = (inl UnknownFunnel, (run_pump Py.listsort one_clone one_clone_taps one_clone_world).2).
Proof.
  apply (pour_refuses_slot_objects Py.listsort one_clone one_clone_taps "str" one_clone_world).
  - intros Hnone. apply (f_equal (fun m => m !! "A/c/slots/a")) in Hnone. vm_compute in Hnone.
    discriminate.
  - vm_compute. reflexivity.
Defined.

(** X23. [pour] and [pump] write values and nothing else: whatever they are
    given and whether they return or raise, the store holds afterwards the
    same tanks, the same links between slots, tubes and placeholders, the
    same names and the same Waterworks as before. *)
Theorem pour_and_pump_only_write_values sorted (self : Waterwork) (d : list (pykey * val))
    (key_type : string) (w : World) :
  same_graph (pour sorted self d key_type w).2 w
  /\ same_graph (pump sorted self d key_type w).2 w.
Proof. split; [apply pour_same_graph | apply pump_same_graph]. Qed.

(** *** Values along the links *)

(** The loop of [pour] that hands the values of a tank on, for any links:
    it never raises, and it leaves the slots that no tube of the dictionary
    feeds as they are. *)
Lemma hand_on_frame (links : string -> option slot_ref) (l : list (string * val)) (w : World)
    (s : slot_ref) :
  let r := for_each l (fun '(key, v) => match links key with
                                        | Some s' => modify (slot_set_val s' v)
                                        | None => ret tt
                                        end) w in
  r.1 = inr tt
  /\ (is_Some (w_slots w !! s) -> is_Some (w_slots r.2 !! s))
  /\ w_tubes r.2 = w_tubes w
  /\ (Forall (fun x => links x.1 <> Some s) l -> slot_get_val r.2 s = slot_get_val w s).
Proof.
  revert w. induction l as [|[key v] l IH]; intros w; simpl; [done|].
  unfold bind at 1 2 3 4. destruct (links key) as [s'|] eqn:Hkey; simpl.
  - destruct (IH (slot_set_val s' v w)) as (Hok & Hsome & Htubes & Hframe).
    split; [done|]. split; [|split; [done|]].
    + intros Hs. apply Hsome. simpl. rewrite lookup_alter. case_decide; [subst|done].
      by apply fmap_is_Some.
    + intros [Hne Hl]%Forall_cons. rewrite Hframe by done. rewrite slot_get_val_set.
      simpl in Hne. rewrite decide_False; [done|]. intros ->. by rewrite Hkey in Hne.
  - destruct (IH w) as (Hok & Hsome & Htubes & Hframe).
    split; [done|]. split; [done|]. split; [done|].
    intros [_ Hl]%Forall_cons. by apply Hframe.
Qed.

(** A slot that a tube of the dictionary feeds holds the value of the tube
    afterwards, when every tube that feeds it has that value. *)
Lemma hand_on_value (links : string -> option slot_ref) (l : list (string * val)) (w : World)
    (s : slot_ref) (v : val) :
  is_Some (w_slots w !! s) ->
  Exists (fun x => links x.1 = Some s) l ->
  Forall (fun x => links x.1 = Some s -> x.2 = v) l ->
  slot_get_val (for_each l (fun '(key, v) => match links key with
                                             | Some s' => modify (slot_set_val s' v)
                                             | None => ret tt
                                             end) w).2 s = v.
Proof.
  revert w. induction l as [|[key v'] l IH]; intros w Hs Hex Hall.
  { by apply Exists_nil in Hex. }
  apply Forall_cons in Hall as [Hhead Hall]. simpl in Hhead.
  simpl. unfold bind at 1.
  destruct (decide (Exists (fun x => links x.1 = Some s) l)) as [Hl|Hl].
  - destruct (links key) as [s'|]; simpl; apply IH; try done.
    simpl. rewrite lookup_alter. case_decide; [subst|done]. by apply fmap_is_Some.
  - apply Exists_cons in Hex as [Hkey|Hex]; [|done]. simpl in Hkey.
    rewrite Hkey. simpl. rewrite <- Forall_Exists_neg in Hl.
    destruct (hand_on_frame links l (slot_set_val s v' w) s) as (_ & _ & _ & Hframe).
    rewrite Hframe by done. rewrite slot_get_val_set, decide_True by done.
    destruct Hs as [o Ho]. rewrite Ho. simpl. by apply Hhead.
Qed.

Lemma tank_pour_slots (t : tank_id) (kwargs : gmap string val) (w w1 : World)
    (r : Exn + gmap string val) :
  tank_pour t kwargs w = (r, w1) ->
  w_slots w1 = w_slots w
  /\ (forall d, r = inr d ->
        w_tanks w !! t ≫= (fun tk => _pour (tank_class tk) kwargs) = Some d).
Proof.
  unfold tank_pour, bind at 1, get.
  destruct (w_tanks w !! t ≫= _) as [d|]; [|by intros [= <- <-]].
  assert (Hloop : forall l w',
            w_slots (for_each l (fun '(key, v) =>
                       if bool_decide (key ∈ tank_tubes_of w t)
                       then modify (tube_set_val (t, key) v) else raise KeyError) w').2
            = w_slots w').
  { induction l as [|[key v] l IH]; intros w'; simpl; [done|].
    unfold bind at 1. case_bool_decide; simpl; [|done]. by rewrite IH. }
  unfold bind. specialize (Hloop (map_to_list d) w).
  destruct (for_each _ _ w) as [[e|[]] w']; simpl in *; intros [= <- <-]; split; try done.
  by intros d' [= <-].
Qed.

(** X24. One tank in the pour direction hands its values on: when [pour] has run
    the tank, a slot that is linked to one of its tubes holds the value the
    tank gave for the tube (every tube that feeds the slot having that
    value). *)
Theorem pour_tank_feeds_the_linked_slot (t : tank_id) (w : World) (key : string) (v : val)
    (s : slot_ref) :
  (pour_tank t w).1 = inr tt ->
  poured w t !! key = Some v ->
  tube_slot_of w (t, key) = Some s ->
  is_Some (w_slots w !! s) ->
  map_Forall (fun key' v' => tube_slot_of w (t, key') = Some s -> v' = v) (poured w t) ->
  slot_get_val (pour_tank t w).2 s = v.
Proof.
  intros Hrun Hkey Hlink Hs Hall. rewrite pour_tank_unfold in Hrun |- *.
  destruct (tank_pour t (slot_kwargs w t) w) as [[e|d] w1] eqn:Hpour; [discriminate|].
  destruct (tank_pour_slots _ _ _ _ _ Hpour) as [Hslots Hdict]. specialize (Hdict d eq_refl).
  unfold poured in Hkey, Hall. rewrite Hdict in Hkey, Hall. simpl in Hkey, Hall.
  apply (hand_on_value (fun key => tube_slot_of w (t, key))).
  - by rewrite Hslots.
  - apply Exists_exists. exists (key, v). split; [|done]. by apply elem_of_map_to_list.
  - apply Forall_forall. intros [key' v'] Hin%elem_of_map_to_list. simpl.
    by apply Hall.
Qed.

Lemma pour_tank_feeds_the_linked_slot_witness :
  slot_get_val
    (pour_tank 0 (bind_funnels three_clones three_clones_input three_clones_world).2).2
    (2, "a")
  = Some (PInt 1).
Proof.
  apply (pour_tank_feeds_the_linked_slot 0 _ "a" (Some (PInt 1)) (2, "a")).
  - vm_compute. reflexivity.
  - vm_compute. reflexivity.
  - vm_compute. reflexivity.
  - vm_compute. by eexists.
  - apply (bool_decide_unpack _). vm_compute. exact I.
Defined.

(** *** Clearing the values *)

Lemma ph_get_val_set (p p' : ph_id) (v : val) (w : World) :
  ph_get_val (ph_set_val p v w) p'
  = if decide (p = p') then w_placeholders w !! p ≫= (fun _ => v) else ph_get_val w p'.
Proof.
  unfold ph_get_val, ph_set_val, with_placeholders. simpl. rewrite lookup_alter.
  case_decide; [subst|done]. by destruct (w_placeholders w !! p').
Qed.

(** The values [clear_vals] leaves, part by part. *)
Lemma clear_vals_reads (self : Waterwork) (w : World) :
  (forall s, slot_get_val (clear_vals self w).2 s
             = if decide (s ∈ (map_to_list (slots self)).*2) then None else slot_get_val w s)
  /\ (forall t, tube_get_val (clear_vals self w).2 t
                = if decide (t ∈ (map_to_list (tubes self)).*2) then None else tube_get_val w t)
  /\ (forall p, ph_get_val (clear_vals self w).2 p
                = if decide (p ∈ (map_to_list (placeholders self)).*2) then None
                  else ph_get_val w p).
Proof.
  rewrite clear_vals_spec. simpl.
  rewrite foldl_slot_set_val, foldl_tube_set_val, foldl_ph_set_val.
  unfold slot_get_val, tube_get_val, ph_get_val, with_placeholders, with_tubes, with_slots.
  simpl. split; [|split].
  - intros s. rewrite lookup_foldl_alter by (by intros []).
    case_decide; [|done]. by destruct (w_slots w !! s).
  - intros t. rewrite lookup_foldl_alter by (by intros []).
    case_decide; [|done]. by destruct (w_tubes w !! t).
  - intros p. rewrite lookup_foldl_alter by (by intros []).
    case_decide; [|done]. by destruct (w_placeholders w !! p).
Qed.

(** X5. [clear_vals] never raises. After it every slot of [slots], every tube
    of [tubes] and every placeholder of [placeholders] holds [None]; a part
    that is in none of the three dictionaries keeps its value, and no part
    is relinked, renamed or moved. *)
Theorem clear_vals_clears (self : Waterwork) (w : World) :
  (clear_vals self w).1 = inr tt
  /\ (forall n s, slots self !! n = Some s -> slot_get_val (clear_vals self w).2 s = None)
  /\ (forall n t, tubes self !! n = Some t -> tube_get_val (clear_vals self w).2 t = None)
  /\ (forall n p, placeholders self !! n = Some p -> ph_get_val (clear_vals self w).2 p = None)
  /\ (forall s, s ∉ (map_to_list (slots self)).*2 ->
        slot_get_val (clear_vals self w).2 s = slot_get_val w s)
  /\ (forall t, t ∉ (map_to_list (tubes self)).*2 ->
        tube_get_val (clear_vals self w).2 t = tube_get_val w t)
  /\ (forall p, p ∉ (map_to_list (placeholders self)).*2 ->
        ph_get_val (clear_vals self w).2 p = ph_get_val w p)
  /\ same_graph (clear_vals self w).2 w.
Proof.
  destruct (clear_vals_reads self w) as (Hslots & Htubes & Hphs).
  assert (Hin : forall {V} (m : gmap string V) n x, m !! n = Some x -> x ∈ (map_to_list m).*2).
  { intros V m n x Hx. apply list_elem_of_fmap. exists (n, x). split; [done|].
    by apply elem_of_map_to_list. }
  split; [by rewrite clear_vals_spec|].
  repeat split.
  - intros n s Hs. rewrite Hslots, decide_True; eauto.
  - intros n t Ht. rewrite Htubes, decide_True; eauto.
  - intros n p Hp. rewrite Hphs, decide_True; eauto.
  - intros s Hs. by rewrite Hslots, decide_False.
  - intros t Ht. by rewrite Htubes, decide_False.
  - intros p Hp. by rewrite Hphs, decide_False.
  - apply only_values_clear_vals.
Qed.

(** X6. A Waterwork whose values are cleared needs its inputs anew: [pour]
    without an input raises [MissingInput] as soon as a funnel of the
    Waterwork is one of its slots, and no tank runs. *)
Theorem pour_after_clear_vals_needs_input sorted (self : Waterwork) (key_type : string)
    (w : World) (n : string) (s : slot_ref) :
  funnels self !! n = Some s ->
  s ∈ (map_to_list (slots self)).*2 ->
  pour sorted self [] key_type (clear_vals self w).2
  = (inl MissingInput, (clear_vals self w).2).
Proof.
  intros Hn Hs. unfold pour, run_pour, bind_funnels. simpl.
  apply bind_eq_raise. unfold bind at 1. simpl. apply bind_eq_raise.
  apply (check_funnels_missing _ _ n s); [done|]. by apply slot_get_val_cleared.
Qed.

Lemma pour_after_clear_vals_needs_input_witness :
  pour Py.listsort one_clone [] "str"
    (clear_vals one_clone
       (pour Py.listsort one_clone one_clone_input "str" one_clone_world).2).2
  = (inl MissingInput,
     (clear_vals one_clone
        (pour Py.listsort one_clone one_clone_input "str" one_clone_world).2).2).
Proof.
  apply (pour_after_clear_vals_needs_input Py.listsort one_clone "str" _ "A/c/slots/a" (0, "a")).
  - vm_compute. reflexivity.
  - apply (bool_decide_unpack _). vm_compute. exact I.
Defined.

(** *** Values back along the links *)

Lemma tube_ref_set_val_reads (t t' : tube_ref) (v : val) (w : World) :
  (tube_ref_in w t' -> tube_ref_in (tube_ref_set_val t v w) t')
  /\ tube_ref_get_val (tube_ref_set_val t v w) t'
     = if decide (t = t') then (if decide (tube_ref_in w t) then v else None)
       else tube_ref_get_val w t'.
Proof.
  destruct t as [tk key|p], t' as [tk' key'|p']; simpl; split; try done.
  - intros Hin. rewrite lookup_alter. case_decide as Heq; [|done].
    rewrite <- Heq in Hin. by apply fmap_is_Some.
  - rewrite tube_get_val_set. destruct (decide ((tk, key) = (tk', key'))) as [[= <- <-]|Hne].
    + rewrite decide_True by done. destruct (decide (is_Some _)) as [[o Ho]|Hn].
      * by rewrite Ho.
      * destruct (w_tubes w !! (tk, key)); [|done]. exfalso. apply Hn. by eexists.
    + rewrite decide_False; [done | congruence].
  - intros Hin. rewrite lookup_alter. case_decide as Heq; [|done].
    rewrite <- Heq in Hin. by apply fmap_is_Some.
  - rewrite ph_get_val_set. destruct (decide (p = p')) as [<-|Hne].
    + rewrite decide_True by done. destruct (decide (is_Some _)) as [[o Ho]|Hn].
      * by rewrite Ho.
      * destruct (w_placeholders w !! p); [|done]. exfalso. apply Hn. by eexists.
    + rewrite decide_False; [done | congruence].
Qed.

(** The loop of [pump] that hands the values of a tank back, for any links:
    it never raises, and it leaves what no slot of the dictionary is linked
    to as it is. *)
Lemma hand_back_frame (links : string -> option tube_ref) (l : list (string * val)) (w : World)
    (t : tube_ref) :
  let r := for_each l (fun '(key, v) => match links key with
                                        | Some t' => modify (tube_ref_set_val t' v)
                                        | None => ret tt
                                        end) w in
  r.1 = inr tt
  /\ (tube_ref_in w t -> tube_ref_in r.2 t)
  /\ (Forall (fun x => links x.1 <> Some t) l -> tube_ref_get_val r.2 t = tube_ref_get_val w t).
Proof.
  revert w. induction l as [|[key v] l IH]; intros w; simpl; [done|].
  unfold bind at 1 2 3. destruct (links key) as [t'|] eqn:Hkey; simpl.
  - destruct (IH (tube_ref_set_val t' v w)) as (Hok & Hin & Hframe).
    destruct (tube_ref_set_val_reads t' t v w) as (Hin' & Hval).
    split; [done|]. split; [auto|].
    intros [Hne Hl]%Forall_cons. rewrite Hframe by done. rewrite Hval.
    simpl in Hne. rewrite decide_False; [done|]. intros ->. by rewrite Hkey in Hne.
  - destruct (IH w) as (Hok & Hin & Hframe).
    split; [done|]. split; [done|]. intros [_ Hl]%Forall_cons. by apply Hframe.
Qed.

Lemma hand_back_value (links : string -> option tube_ref) (l : list (string * val)) (w : World)
    (t : tube_ref) (v : val) :
  tube_ref_in w t ->
  Exists (fun x => links x.1 = Some t) l ->
  Forall (fun x => links x.1 = Some t -> x.2 = v) l ->
  tube_ref_get_val (for_each l (fun '(key, v) => match links key with
                                                 | Some t' => modify (tube_ref_set_val t' v)
                                                 | None => ret tt
                                                 end) w).2 t = v.
Proof.
  revert w. induction l as [|[key v'] l IH]; intros w Ht Hex Hall.
  { by apply Exists_nil in Hex. }
  apply Forall_cons in Hall as [Hhead Hall]. simpl in Hhead.
  simpl. unfold bind at 1.
  destruct (decide (Exists (fun x => links x.1 = Some t) l)) as [Hl|Hl].
  - destruct (links key) as [t'|]; simpl; apply IH; try done.
    by apply tube_ref_set_val_reads.
  - apply Exists_cons in Hex as [Hkey|Hex]; [|done]. simpl in Hkey.
    rewrite Hkey. simpl. rewrite <- Forall_Exists_neg in Hl.
    destruct (hand_back_frame links l (tube_ref_set_val t v' w) t) as (_ & _ & Hframe).
    rewrite Hframe by done.
    destruct (tube_ref_set_val_reads t t v' w) as (_ & ->).
    rewrite !decide_True by done. by apply Hhead.
Qed.

Lemma tank_pump_tubes (t : tank_id) (kwargs : gmap string val) (w w1 : World)
    (r : Exn + gmap string val) :
  tank_pump t kwargs w = (r, w1) ->
  w_tubes w1 = w_tubes w /\ w_placeholders w1 = w_placeholders w
  /\ (forall d, r = inr d ->
        w_tanks w !! t ≫= (fun tk => _pump (tank_class tk) kwargs) = Some d).
Proof.
  unfold tank_pump, bind at 1, get.
  destruct (w_tanks w !! t ≫= _) as [d|]; [|by intros [= <- <-]].
  assert (Hloop : forall l w',
            let r := for_each l (fun '(key, v) =>
                       if bool_decide (key ∈ tank_slots_of w t)
                       then modify (slot_set_val (t, key) v) else raise KeyError) w' in
            w_tubes r.2 = w_tubes w' /\ w_placeholders r.2 = w_placeholders w').
  { induction l as [|[key v] l IH]; intros w'; simpl; [done|].
    unfold bind at 1 2. case_bool_decide; simpl; [|done].
    by destruct (IH (slot_set_val (t, key) v w')). }
  unfold bind. specialize (Hloop (map_to_list d) w). cbv zeta in Hloop.
  destruct (for_each _ _ w) as [[e|[]] w']; simpl in *; intros [= <- <-];
    destruct Hloop; repeat split; try done.
  by intros d' [= <-].
Qed.

Lemma pump_tank_unfold (t : tank_id) (w : World) :
  pump_tank t w
  = match tank_pump t (tube_kwargs w t) w with
    | (inl e, w1) => (inl e, w1)
    | (inr slot_dict, w1) =>
        for_each (map_to_list slot_dict)
          (fun '(key, v) => match slot_tube_of w (t, key) with
                            | Some tu => modify (tube_ref_set_val tu v)
                            | None => ret tt
                            end) w1
    end.
Proof. reflexivity. Qed.

(** X25. One tank in the pump direction hands its values back: when [pump] has
    run the tank, a tube or a placeholder that one of its slots is linked to
    holds the value the tank gave for the slot (every slot that is linked to
    it having that value). *)
Theorem pump_tank_feeds_the_linked_tube (t : tank_id) (w : World) (key : string) (v : val)
    (tu : tube_ref) :
  (pump_tank t w).1 = inr tt ->
  pumped w t !! key = Some v ->
  slot_tube_of w (t, key) = Some tu ->
  tube_ref_in w tu ->
  map_Forall (fun key' v' => slot_tube_of w (t, key') = Some tu -> v' = v) (pumped w t) ->
  tube_ref_get_val (pump_tank t w).2 tu = v.
Proof.
  intros Hrun Hkey Hlink Htu Hall. rewrite pump_tank_unfold in Hrun |- *.
  destruct (tank_pump t (tube_kwargs w t) w) as [[e|d] w1] eqn:Hpump; [discriminate|].
  destruct (tank_pump_tubes _ _ _ _ _ Hpump) as (Htubes & Hphs & Hdict).
  specialize (Hdict d eq_refl).
  unfold pumped in Hkey, Hall. rewrite Hdict in Hkey, Hall. simpl in Hkey, Hall.
  apply (hand_back_value (fun key => slot_tube_of w (t, key))).
  - destruct tu; simpl in *; by rewrite ?Htubes, ?Hphs.
  - apply Exists_exists. exists (key, v). split; [|done]. by apply elem_of_map_to_list.
  - apply Forall_forall. intros [key' v'] Hin%elem_of_map_to_list. simpl.
    by apply Hall.
Qed.

Lemma pump_tank_feeds_the_linked_tube_witness :
  tube_ref_get_val
    (pump_tank 2
       (bind_taps three_clones [(KStr "ww/c/tubes/a", Some (PInt 7))] three_clones_world).2).2
    (OfTank 0 "a")
  = Some (PInt 7).
Proof.
  apply (pump_tank_feeds_the_linked_tube 2 _ "a" (Some (PInt 7)) (OfTank 0 "a")).
  - vm_compute. reflexivity.
  - vm_compute. reflexivity.
  - vm_compute. reflexivity.
  - vm_compute. by eexists.
  - apply (bool_decide_unpack _). vm_compute. exact I.
Defined.

(** *** The order of the tanks *)

(** X7. For a Waterwork of fewer than 64 tanks (the lists [Py.listsort] is
    CPython's sort on), both orders hold every tank of the Waterwork once:
    they are permutations of the values of [self.tanks]. *)
Theorem tank_orders_are_permutations (self : Waterwork) (w : World) :
  size (tanks self) < 64 ->
  _pour_tank_order Py.listsort self w ≡ₚ (map_to_list (tanks self)).*2
  /\ _pump_tank_order Py.listsort self w ≡ₚ (map_to_list (tanks self)).*2.
Proof.
  intros _. unfold _pour_tank_order, _pump_tank_order. split; by rewrite !listsort_perm.
Qed.

Lemma tank_orders_are_permutations_witness :
  _pour_tank_order Py.listsort three_clones three_clones_world
  ≡ₚ (map_to_list (tanks three_clones)).*2
  /\ _pump_tank_order Py.listsort three_clones three_clones_world
     ≡ₚ (map_to_list (tanks three_clones)).*2.
Proof.
  apply (tank_orders_are_permutations three_clones three_clones_world). vm_compute. lia.
Defined.

Lemma listsort_two {A} (cmp : A -> A -> Z) (a b : A) :
  Py.listsort cmp [a; b] = if Py.islt cmp b a then [b; a] else [a; b].
Proof. unfold Py.listsort, Py.count_run. simpl. by destruct (Py.islt cmp b a). Qed.

(** The order a comparator of the shape the two orders use gives to at most
    two tanks. *)
Lemma order_of_two_topological (deps : tank_id -> gset tank_id) (c : Z) (l : list tank_id) :
  (0 <= c)%Z ->
  length l <= 2 ->
  acyclic_pairs deps l ->
  topological deps
    (Py.listsort (fun a b => if bool_decide (b ∈ deps a) then c else (-1)%Z) l).
Proof.
  intros Hc Hlen Hacyclic. unfold acyclic_pairs in Hacyclic.
  rewrite Forall_forall in Hacyclic.
  assert (Hdeps : forall a b, a ∈ l -> b ∈ deps a -> b ∈ l /\ b <> a /\ a ∉ deps b).
  { intros a b Ha Hb. specialize (Hacyclic a Ha). rewrite Forall_forall in Hacyclic.
    apply Hacyclic. by apply elem_of_elements. }
  clear Hacyclic.
  destruct l as [|x [|y [|z l]]]; [| | |simpl in Hlen; lia].
  - intros i a b Hi. by destruct i.
  - intros i a b Hi Hb. destruct i as [|i]; [|by destruct i]. injection Hi as <-.
    destruct (Hdeps x b) as (Hin & Hne & _); [apply elem_of_cons; by left | done |].
    apply elem_of_cons in Hin as [->|Hin]; [done | by apply elem_of_nil in Hin].
  - rewrite listsort_two. unfold Py.islt.
    assert (Hx : x ∈ [x; y]) by (apply elem_of_cons; by left).
    assert (Hy : y ∈ [x; y]) by (apply elem_of_cons; right; apply elem_of_cons; by left).
    assert (Hpair : forall a b, a ∈ [x; y] -> b ∈ deps a ->
                      (a = x /\ b = y /\ x <> y) \/ (a = y /\ b = x /\ x <> y)).
    { intros a b Ha Hb. destruct (Hdeps a b Ha Hb) as (Hin & Hne & _).
      rewrite !elem_of_cons, elem_of_nil in Ha, Hin.
      destruct Ha as [->|[->|[]]], Hin as [->|[->|[]]]; try done; [left | right]; done. }
    case_bool_decide as Hxy.
    + replace (c <? 0)%Z with false by (symmetry; apply Z.ltb_ge; lia).
      intros i a b Hi Hb. destruct i as [|[|i]]; simpl in Hi; [| |done].
      * injection Hi as <-.
        destruct (Hpair x b Hx Hb) as [(_ & -> & _)|(-> & _ & Hne)]; [|done].
        by destruct (Hdeps y x Hy Hxy) as (_ & _ & Hnot).
      * injection Hi as <-. exists 0. split; [lia|]. simpl.
        by destruct (Hpair y b Hy Hb) as [(-> & _ & Hne)|(_ & -> & _)].
    + simpl. intros i a b Hi Hb. destruct i as [|[|i]]; simpl in Hi; [| |done].
      * injection Hi as <-.
        by destruct (Hpair y b Hy Hb) as [(-> & _ & Hne)|(_ & -> & _)].
      * injection Hi as <-. exists 0. split; [lia|]. simpl.
        by destruct (Hpair x b Hx Hb) as [(_ & -> & _)|(-> & _ & Hne)].
Qed.

(** X8. With at most two tanks, the pour order and the pump order are
    topological orders of the dependencies they sort by, whenever these stay
    among the tanks of the Waterwork and hold no cycle. *)
Theorem orders_of_two_tanks_topological (self : Waterwork) (w : World) :
  size (tanks self) <= 2 ->
  (acyclic_pairs (get_pour_dependencies w) (map_to_list (tanks self)).*2 ->
   topological (get_pour_dependencies w) (_pour_tank_order Py.listsort self w))
  /\ (acyclic_pairs (get_pump_dependencies w) (map_to_list (tanks self)).*2 ->
      topological (get_pump_dependencies w) (_pump_tank_order Py.listsort self w)).
Proof.
  intros Hsize.
  assert (Hlen : length (Py.listsort (tank_cmp w) (map_to_list (tanks self)).*2) <= 2).
  { by rewrite listsort_perm, length_fmap, length_map_to_list. }
  assert (Hperm : forall deps, acyclic_pairs deps (map_to_list (tanks self)).*2 ->
                    acyclic_pairs deps (Py.listsort (tank_cmp w) (map_to_list (tanks self)).*2)).
  { intros deps Hacyclic. unfold acyclic_pairs in *. rewrite listsort_perm.
    eapply Forall_impl; [exact Hacyclic|]. intros a Ha. simpl in Ha.
    eapply Forall_impl; [exact Ha|]. intros b (Hin & Hne & Hnot). simpl.
    split; [|done]. by rewrite listsort_perm. }
  split; intros Hacyclic.
  - unfold _pour_tank_order. apply order_of_two_topological; [lia | done | by apply Hperm].
  - unfold _pump_tank_order. apply order_of_two_topological; [lia | done | by apply Hperm].
Qed.

Lemma orders_of_two_tanks_topological_witness :
  topological (get_pour_dependencies three_clones_world)
    (_pour_tank_order Py.listsort chain_of_two three_clones_world)
  /\ topological (get_pump_dependencies three_clones_world)
       (_pump_tank_order Py.listsort chain_of_two three_clones_world).
Proof.
  destruct (orders_of_two_tanks_topological chain_of_two three_clones_world) as [Hpour Hpump].
  - vm_compute. lia.
  - split.
    + apply Hpour. apply (bool_decide_unpack _). vm_compute. exact I.
    + apply Hpump. apply (bool_decide_unpack _). vm_compute. exact I.
Defined.

(** *** Merging and the default Waterwork *)

Lemma enter_waterwork_spec (name : string) (w : World) :
  enter_waterwork name w
  = let ww := fresh (dom (w_waterworks w)) in
    let w' := with_waterworks (insert ww (new_waterwork name)) w in
    match default_waterwork w with
    | Some _ => (inl ScopeConflict, w')
    | None => (inr ww, with_default (Some ww) w')
    end.
Proof. unfold enter_waterwork, bind, get, modify. simpl. by destruct (default_waterwork w). Qed.

Lemma fresh_waterwork (w : World) (i : ww_id) (o : Waterwork) :
  w_waterworks w !! i = Some o -> fresh (dom (w_waterworks w)) <> i.
Proof.
  intros Hi <-. apply (is_fresh (dom (w_waterworks w))). apply elem_of_dom. by eexists.
Qed.

Lemma untouched_enter (name : string) (w : World) :
  untouched w (with_waterworks (insert (fresh (dom (w_waterworks w))) (new_waterwork name)) w).
Proof.
  repeat split. intros i o Hi. simpl.
  rewrite lookup_insert_ne; [done|]. by eapply fresh_waterwork.
Qed.

Lemma merge_scope_conflict
    (sorted : (tank_id -> tank_id -> Z) -> list tank_id -> list tank_id)
    (self other : ww_id) (join_dict : list (slot_ref * tube_ref)) (name : string)
    (w : World) (d : ww_id) :
  default_waterwork w = Some d ->
  ww_name (get_ww w self) <> ww_name (get_ww w other) ->
  merge sorted self other join_dict name w
  = (inl ScopeConflict,
     with_waterworks (insert (fresh (dom (w_waterworks w))) (new_waterwork name)) w).
Proof.
  intros Hdefault Hnames. unfold merge, bind at 1, get.
  destruct (String.eqb_spec (ww_name (get_ww w self)) (ww_name (get_ww w other))); [done|].
  unfold bind at 1. by rewrite enter_waterwork_spec, Hdefault.
Qed.

Lemma combine_scope_conflict
    (sorted : (tank_id -> tank_id -> Z) -> list tank_id -> list tank_id)
    (new_placeholder : string -> option string -> val -> M ph_id)
    (new_tank : TankClass -> string -> gmap string tube_ref -> M tank_id)
    (self other : ww_id) (join_dict : list (slot_ref * tube_ref)) (name : string)
    (w : World) (d : ww_id) :
  default_waterwork w = Some d ->
  ww_name (get_ww w self) <> ww_name (get_ww w other) ->
  combine sorted new_placeholder new_tank self other join_dict name w
  = (inl ScopeConflict,
     with_waterworks (insert (fresh (dom (w_waterworks w))) (new_waterwork "")) w).
Proof.
  intros Hdefault Hnames. unfold combine, bind at 1, get.
  destruct (String.eqb_spec (ww_name (get_ww w self)) (ww_name (get_ww w other))); [done|].
  unfold bind at 1. by rewrite enter_waterwork_spec, Hdefault.
Qed.

(** X9. [merge] and [combine] cannot be called inside the [with] block of a
    Waterwork: when a default Waterwork is set and the names of the two
    operands differ, both raise [ScopeConflict], and the default Waterwork,
    the parts and the Waterworks of the store are as they were. *)
Theorem merge_inside_with_block_raises
    (sorted : (tank_id -> tank_id -> Z) -> list tank_id -> list tank_id)
    (new_placeholder : string -> option string -> val -> M ph_id)
    (new_tank : TankClass -> string -> gmap string tube_ref -> M tank_id)
    (self other : ww_id) (join_dict : list (slot_ref * tube_ref)) (name : string)
    (w : World) (d : ww_id) :
  default_waterwork w = Some d ->
  ww_name (get_ww w self) <> ww_name (get_ww w other) ->
  (merge sorted self other join_dict name w).1 = inl ScopeConflict
  /\ untouched w (merge sorted self other join_dict name w).2
  /\ (combine sorted new_placeholder new_tank self other join_dict name w).1 = inl ScopeConflict
  /\ untouched w (combine sorted new_placeholder new_tank self other join_dict name w).2.
Proof.
  intros Hdefault Hnames.
  rewrite (merge_scope_conflict _ _ _ _ _ _ d), (combine_scope_conflict _ _ _ _ _ _ _ _ d)
    by done.
  split; [done|]. split; [apply untouched_enter|]. split; [done|]. apply untouched_enter.
Qed.

Lemma merge_inside_with_block_raises_witness :
  (merge Py.listsort 0 1 [((1, "a"), OfTank 0 "a")] "merged"
     (with_default (Some 0) two_waterworks)).1 = inl ScopeConflict
  /\ untouched (with_default (Some 0) two_waterworks)
       (merge Py.listsort 0 1 [((1, "a"), OfTank 0 "a")] "merged"
          (with_default (Some 0) two_waterworks)).2
  /\ (combine Py.listsort (fun _ _ _ => raise TankRaised) (fun _ _ _ => raise TankRaised)
        0 1 [((1, "a"), OfTank 0 "a")] "merged" (with_default (Some 0) two_waterworks)).1
     = inl ScopeConflict
  /\ untouched (with_default (Some 0) two_waterworks)
       (combine Py.listsort (fun _ _ _ => raise TankRaised) (fun _ _ _ => raise TankRaised)
          0 1 [((1, "a"), OfTank 0 "a")] "merged" (with_default (Some 0) two_waterworks)).2.
Proof.
  apply (merge_inside_with_block_raises Py.listsort (fun _ _ _ => raise TankRaised)
           (fun _ _ _ => raise TankRaised) 0 1 [((1, "a"), OfTank 0 "a")] "merged"
           (with_default (Some 0) two_waterworks) 0).
  - reflexivity.
  - vm_compute. discriminate.
Defined.

Lemma merge_default_waterwork
    (sorted : (tank_id -> tank_id -> Z) -> list tank_id -> list tank_id)
    (self other : ww_id) (join_dict : list (slot_ref * tube_ref)) (name : string) (w : World) :
  default_waterwork (merge sorted self other join_dict name w).2 = default_waterwork w.
Proof.
  unfold merge, bind at 1, get.
  destruct (String.eqb_spec (ww_name (get_ww w self)) (ww_name (get_ww w other))); [done|].
  unfold bind at 1. rewrite enter_waterwork_spec.
  destruct (default_waterwork w) as [d|] eqn:Hdefault; simpl; [done|].
  unfold finally. by destruct (bind _ _ _).
Qed.

Lemma combine_default_waterwork
    (sorted : (tank_id -> tank_id -> Z) -> list tank_id -> list tank_id)
    (new_placeholder : string -> option string -> val -> M ph_id)
    (new_tank : TankClass -> string -> gmap string tube_ref -> M tank_id)
    (self other : ww_id) (join_dict : list (slot_ref * tube_ref)) (name : string) (w : World) :
  default_waterwork (combine sorted new_placeholder new_tank self other join_dict name w).2
  = default_waterwork w.
Proof.
  unfold combine, bind at 1, get.
  destruct (String.eqb_spec (ww_name (get_ww w self)) (ww_name (get_ww w other))); [done|].
  unfold bind at 1. rewrite enter_waterwork_spec.
  destruct (default_waterwork w) as [d|] eqn:Hdefault; simpl; [done|].
  unfold finally. by destruct (bind _ _ _).
Qed.

(** X10. [merge] and [combine] never change the default Waterwork: whether they
    return or raise, and wherever they raise, it is afterwards what it was
    before the call. *)
Theorem merge_keeps_the_default_waterwork
    (sorted : (tank_id -> tank_id -> Z) -> list tank_id -> list tank_id)
    (new_placeholder : string -> option string -> val -> M ph_id)
    (new_tank : TankClass -> string -> gmap string tube_ref -> M tank_id)
    (self other : ww_id) (join_dict : list (slot_ref * tube_ref)) (name : string)
    (w : World) :
  default_waterwork (merge sorted self other join_dict name w).2 = default_waterwork w
  /\ default_waterwork (combine sorted new_placeholder new_tank self other join_dict name w).2
     = default_waterwork w.
Proof. split; [apply merge_default_waterwork | apply combine_default_waterwork]. Qed.

(** *** A join that fails *)

Lemma del_item_missing (i : ww_id) (d : part_dict) (key : string) (w : World) :
  getattr d (get_ww w i) !! key = None -> del_item i d key w = (inl KeyError, w).
Proof. intros Hkey. unfold del_item, bind, get. simpl. by rewrite Hkey. Qed.

Lemma tube_ref_name_linked (tube : tube_ref) (slot slot' : slot_ref) (t : option tube_ref)
    (w : World) :
  tube_ref_name (tube_ref_set_slot tube (Some slot) (slot_set_tube slot' t w)) tube
  = tube_ref_name w tube.
Proof.
  destruct tube as [tk key|p]; simpl.
  - unfold tube_name_of. simpl. rewrite lookup_alter_eq. by destruct (w_tubes w !! (tk, key)).
  - unfold ph_name_of. simpl. rewrite lookup_alter_eq. by destruct (w_placeholders w !! p).
Qed.

Lemma slot_tube_of_linked (tube : tube_ref) (slot : slot_ref) (s : option slot_ref) (w : World) :
  is_Some (w_slots w !! slot) ->
  slot_tube_of (tube_ref_set_slot tube s (slot_set_tube slot (Some tube) w)) slot = Some tube.
Proof.
  intros [o Ho]. unfold slot_tube_of.
  replace (w_slots (tube_ref_set_slot tube s (slot_set_tube slot (Some tube) w)))
    with (w_slots (slot_set_tube slot (Some tube) w)) by by destruct tube.
  simpl. by rewrite lookup_alter_eq, Ho.
Qed.

(** X11. [merge] needs the tube of every join to be a tap of [self] under its
    name (a Placeholder is none): when the tube of the first join is not,
    [merge] raises [KeyError], and it has linked the slot to the tube by
    then. The operands are not left as they were. *)
Theorem merge_needs_a_tap_of_self
    (sorted : (tank_id -> tank_id -> Z) -> list tank_id -> list tank_id)
    (self other : ww_id) (slot : slot_ref) (tube : tube_ref)
    (rest : list (slot_ref * tube_ref)) (name : string) (w : World) :
  default_waterwork w = None ->
  ww_name (get_ww w self) <> ww_name (get_ww w other) ->
  taps (get_ww w self) !! tube_ref_name w tube = None ->
  is_Some (w_slots w !! slot) ->
  (merge sorted self other ((slot, tube) :: rest) name w).1 = inl KeyError
  /\ slot_tube_of (merge sorted self other ((slot, tube) :: rest) name w).2 slot = Some tube.
Proof.
  intros Hdefault Hnames Htap Hslot.
  set (ww := fresh (dom (w_waterworks w))).
  set (w1 := with_default (Some ww) (with_waterworks (insert ww (new_waterwork name)) w)).
  set (w3 := tube_ref_set_slot tube (Some slot) (slot_set_tube slot (Some tube) w1)).
  assert (Hmerge : merge sorted self other ((slot, tube) :: rest) name w
                   = (inl KeyError, exit_waterwork w3)).
  { unfold merge, bind at 1, get.
    destruct (String.eqb_spec (ww_name (get_ww w self)) (ww_name (get_ww w other))); [done|].
    unfold bind at 1. rewrite enter_waterwork_spec, Hdefault. cbv zeta. fold ww. fold w1.
    unfold finally. erewrite bind_eq_raise; [reflexivity|].
    cbn [for_each]. apply bind_eq_raise.
    unfold bind, modify. simpl. fold w3.
    rewrite (del_item_missing self Taps (tube_ref_name w3 tube) w3); [done|].
    unfold w3. rewrite tube_ref_name_linked.
    replace (tube_ref_name w1 tube) with (tube_ref_name w tube) by by destruct tube.
    replace (get_ww (tube_ref_set_slot tube (Some slot) (slot_set_tube slot (Some tube) w1)) self)
      with (get_ww w1 self) by by destruct tube.
    unfold get_ww, w1. simpl. destruct (decide (ww = self)) as [<-|Hne].
    - by rewrite lookup_insert_eq.
    - by rewrite lookup_insert_ne. }
  rewrite Hmerge. split; [done|].
  replace (slot_tube_of (exit_waterwork w3, w3).1 slot) with (slot_tube_of w3 slot) by done.
  apply slot_tube_of_linked. done.
Qed.

Lemma merge_needs_a_tap_of_self_witness :
  (merge Py.listsort 0 1 [((1, "a"), OfPlaceholder 0)] "merged" two_waterworks).1 = inl KeyError
  /\ slot_tube_of (merge Py.listsort 0 1 [((1, "a"), OfPlaceholder 0)] "merged" two_waterworks).2
       (1, "a")
     = Some (OfPlaceholder 0).
Proof.
  apply (merge_needs_a_tap_of_self Py.listsort 0 1 (1, "a") (OfPlaceholder 0) [] "merged"
           two_waterworks).
  - reflexivity.
  - vm_compute. discriminate.
  - vm_compute. reflexivity.
  - vm_compute. by eexists.
Defined.


(** *** What a merge does to the dictionaries *)

Lemma keeps_placeholders_ret {A} (a : A) : keeps_placeholders (ret a).
Proof. by intros w i. Qed.

Lemma keeps_placeholders_raise {A} (e : Exn) : keeps_placeholders (@raise A e).
Proof. by intros w i. Qed.

Lemma keeps_placeholders_get : keeps_placeholders get.
Proof. by intros w i. Qed.

Lemma keeps_placeholders_bind {A B} (c : M A) (k : A -> M B) :
  keeps_placeholders c -> (forall a, keeps_placeholders (k a)) -> keeps_placeholders (bind c k).
Proof.
  intros Hc Hk w i. unfold bind. specialize (Hc w i).
  destruct (c w) as [[e|a] w']; simpl in *; [done|]. by rewrite Hk.
Qed.

Lemma keeps_placeholders_for_each {A} (l : list A) (body : A -> M unit) :
  (forall x, keeps_placeholders (body x)) -> keeps_placeholders (for_each l body).
Proof.
  intros Hbody. induction l as [|x l IH]; simpl.
  - apply keeps_placeholders_ret.
  - apply keeps_placeholders_bind; [apply Hbody | intros _; apply IH].
Qed.

(** An assignment to a slot, a tube or a placeholder changes no Waterwork. *)
Lemma keeps_placeholders_modify (f : World -> World) :
  (forall w, w_waterworks (f w) = w_waterworks w) -> keeps_placeholders (modify f).
Proof. intros Hf w i. unfold get_ww. simpl. by rewrite Hf. Qed.

Lemma keeps_placeholders_update_ww (i : ww_id) (f : Waterwork -> Waterwork) :
  (forall x, placeholders (f x) = placeholders x) -> keeps_placeholders (update_ww i f).
Proof.
  intros Hf w j. unfold get_ww. simpl. rewrite lookup_alter.
  case_decide; [subst|done]. destruct (w_waterworks w !! j); simpl; [apply Hf | done].
Qed.

Lemma keeps_placeholders_del_item (i : ww_id) (d : part_dict) (key : string) :
  keeps_placeholders (del_item i d key).
Proof.
  unfold del_item. apply keeps_placeholders_bind; [apply keeps_placeholders_get|].
  intros w. destruct (getattr d (get_ww w i) !! key).
  - by apply keeps_placeholders_update_ww.
  - apply keeps_placeholders_raise.
Qed.

Lemma keeps_placeholders_enter (name : string) : keeps_placeholders (enter_waterwork name).
Proof.
  intros w i. rewrite enter_waterwork_spec. cbv zeta.
  assert (Hnew : placeholders
                   (get_ww (with_waterworks
                              (insert (fresh (dom (w_waterworks w))) (new_waterwork name)) w) i)
                 = placeholders (get_ww w i)).
  { unfold get_ww. simpl. destruct (decide (fresh (dom (w_waterworks w)) = i)) as [<-|Hne].
    - rewrite lookup_insert_eq.
      rewrite (not_elem_of_dom_1 (w_waterworks w) (fresh (dom (w_waterworks w))));
        [done | apply is_fresh].
    - by rewrite lookup_insert_ne. }
  by destruct (default_waterwork w).
Qed.

Lemma keeps_placeholders_finally {A} (body : M A) (cleanup : World -> World) :
  keeps_placeholders body -> (forall w, w_waterworks (cleanup w) = w_waterworks w) ->
  keeps_placeholders (finally body cleanup).
Proof.
  intros Hbody Hcleanup w i. unfold finally. specialize (Hbody w i).
  destruct (body w) as [r w']. simpl in *. unfold get_ww in *. by rewrite Hcleanup.
Qed.

Ltac keeps_placeholders_step :=
  match goal with
  | |- keeps_placeholders (bind _ _) => apply keeps_placeholders_bind
  | |- keeps_placeholders (ret _) => apply keeps_placeholders_ret
  | |- keeps_placeholders (raise _) => apply keeps_placeholders_raise
  | |- keeps_placeholders get => apply keeps_placeholders_get
  | |- keeps_placeholders (for_each _ _) => apply keeps_placeholders_for_each
  | |- keeps_placeholders (del_item _ _ _) => apply keeps_placeholders_del_item
  | |- keeps_placeholders (enter_waterwork _) => apply keeps_placeholders_enter
  | |- keeps_placeholders (update_ww _ _) => by apply keeps_placeholders_update_ww
  | |- keeps_placeholders (finally _ _) => apply keeps_placeholders_finally
  | |- keeps_placeholders (modify (tube_ref_set_slot ?t _)) =>
      apply keeps_placeholders_modify; intros; by destruct t
  | |- keeps_placeholders (modify _) => by apply keeps_placeholders_modify
  | |- keeps_placeholders (match ?x with _ => _ end) => destruct x
  | |- keeps_placeholders (if ?b then _ else _) => destruct b
  | |- forall _, _ => intros
  end.

Lemma keeps_placeholders_merge
    (sorted : (tank_id -> tank_id -> Z) -> list tank_id -> list tank_id)
    (self other : ww_id) (join_dict : list (slot_ref * tube_ref)) (name : string) :
  keeps_placeholders (merge sorted self other join_dict name).
Proof. unfold merge. repeat keeps_placeholders_step. reflexivity. Qed.

(** A call of [merge] that returns: the Waterwork it returns is the one it
    created, and its last step empties the two operands. *)
Lemma merge_returns
    (sorted : (tank_id -> tank_id -> Z) -> list tank_id -> list tank_id)
    (self other : ww_id) (join_dict : list (slot_ref * tube_ref)) (name : string)
    (w wf : World) (ww : ww_id) :
  merge sorted self other join_dict name w = (inr ww, wf) ->
  ww = fresh (dom (w_waterworks w))
  /\ exists w', wf = exit_waterwork
                      (with_waterworks (alter emptied other)
                         (with_waterworks (alter emptied self) w')).
Proof.
  unfold merge, bind at 1, get.
  destruct (String.eqb_spec (ww_name (get_ww w self)) (ww_name (get_ww w other)));
    [discriminate|].
  unfold bind at 1. rewrite enter_waterwork_spec. cbv zeta.
  destruct (default_waterwork w); [discriminate|].
  unfold finally.
  match goal with |- context [bind ?c ?k ?w1] => destruct (bind c k w1) as [r w8] eqn:Hbody end.
  intros [= -> <-].
  apply bind_inr in Hbody as ([] & w2 & _ & Hbody).
  apply bind_inr in Hbody as ([] & w3 & _ & Hbody).
  apply bind_inr in Hbody as (w4 & w5 & _ & Hbody).
  apply bind_inr in Hbody as ([] & w6 & _ & Hbody).
  apply bind_inr in Hbody as ([] & w7 & Hempty & Hbody).
  injection Hbody as <- <-. split; [done|].
  exists w6. unfold for_each, update_ww, bind, modify, ret in Hempty. simpl in Hempty.
  by injection Hempty as <-.
Qed.

(** X12. [merge] never touches a [placeholders] dictionary: whether it returns
    or raises, every Waterwork of the store has afterwards the placeholders
    it had, the operands included, and the Waterwork [merge] returns has
    none. *)
Theorem merge_never_moves_placeholders
    (sorted : (tank_id -> tank_id -> Z) -> list tank_id -> list tank_id)
    (self other : ww_id) (join_dict : list (slot_ref * tube_ref)) (name : string)
    (w : World) :
  (forall i, placeholders (get_ww (merge sorted self other join_dict name w).2 i)
             = placeholders (get_ww w i))
  /\ (forall ww, (merge sorted self other join_dict name w).1 = inr ww ->
        placeholders (get_ww (merge sorted self other join_dict name w).2 ww) = ∅).
Proof.
  pose proof (keeps_placeholders_merge sorted self other join_dict name w) as Hkeeps.
  split; [done|]. intros ww Hww. rewrite Hkeeps.
  apply pair_eta in Hww. apply merge_returns in Hww as [-> _].
  unfold get_ww. by rewrite (not_elem_of_dom_1 (w_waterworks w)) by apply is_fresh.
Qed.

Lemma get_ww_emptied (w : World) (self other i : ww_id) :
  i = self \/ i = other ->
  exists x, get_ww (exit_waterwork
                      (with_waterworks (alter emptied other)
                         (with_waterworks (alter emptied self) w))) i = emptied x.
Proof.
  intros Hi. unfold get_ww. simpl.
  destruct (decide (i = other)) as [->|Hne].
  - rewrite lookup_alter_eq.
    destruct (alter emptied self (w_waterworks w) !! other) as [x|]; simpl.
    + by exists x.
    + by exists (new_waterwork "").
  - destruct Hi as [-> | ->]; [|done]. rewrite lookup_alter_ne by done. rewrite lookup_alter_eq.
    destruct (w_waterworks w !! self) as [x|]; simpl.
    + by exists x.
    + by exists (new_waterwork "").
Qed.

(** X13. When [merge] returns, the dictionaries of funnels, slots, tubes, tanks
    and taps of both operands are empty. *)
Theorem merge_empties_the_operands
    (sorted : (tank_id -> tank_id -> Z) -> list tank_id -> list tank_id)
    (self other : ww_id) (join_dict : list (slot_ref * tube_ref)) (name : string)
    (w : World) (ww : ww_id) :
  (merge sorted self other join_dict name w).1 = inr ww ->
  has_no_parts (get_ww (merge sorted self other join_dict name w).2 self)
  /\ has_no_parts (get_ww (merge sorted self other join_dict name w).2 other).
Proof.
  intros Hww. apply pair_eta in Hww. apply merge_returns in Hww as (_ & w' & ->).
  destruct (get_ww_emptied w' self other self) as [x ->]; [by left|].
  destruct (get_ww_emptied w' self other other) as [y ->]; [by right|].
  by repeat split.
Qed.

Lemma merge_empties_the_operands_witness :
  has_no_parts (get_ww (merge Py.listsort 0 1 [((1, "a"), OfTank 0 "a")] "merged"
                          two_waterworks).2 0)
  /\ has_no_parts (get_ww (merge Py.listsort 0 1 [((1, "a"), OfTank 0 "a")] "merged"
                             two_waterworks).2 1).
Proof.
  apply (merge_empties_the_operands Py.listsort 0 1 [((1, "a"), OfTank 0 "a")] "merged"
           two_waterworks 2).
  vm_compute. reflexivity.
Defined.



(** *** Where a merge puts the tanks *)

Lemma tanks_kept_refl (w : World) : tanks_kept w w.
Proof. by split. Qed.

Lemma tanks_kept_trans (w1 w2 w3 : World) :
  tanks_kept w1 w2 -> tanks_kept w2 w3 -> tanks_kept w1 w3.
Proof.
  intros [Ht1 H1] [Ht2 H2]. split; [congruence|]. intros i.
  destruct (H1 i) as (Ha & Hb & Hc), (H2 i) as (Ha' & Hb' & Hc').
  split; [congruence|]. split; [congruence | auto].
Qed.

Lemma keeps_tanks_ret {A} (a : A) : keeps_tanks (ret a).
Proof. intros w. apply tanks_kept_refl. Qed.

Lemma keeps_tanks_raise {A} (e : Exn) : keeps_tanks (@raise A e).
Proof. intros w. apply tanks_kept_refl. Qed.

Lemma keeps_tanks_get : keeps_tanks get.
Proof. intros w. apply tanks_kept_refl. Qed.

Lemma keeps_tanks_bind {A B} (c : M A) (k : A -> M B) :
  keeps_tanks c -> (forall a, keeps_tanks (k a)) -> keeps_tanks (bind c k).
Proof.
  intros Hc Hk w. unfold bind. specialize (Hc w).
  destruct (c w) as [[e|a] w']; simpl in *; [done|].
  eapply tanks_kept_trans; [exact Hc | apply Hk].
Qed.

Lemma keeps_tanks_for_each {A} (l : list A) (body : A -> M unit) :
  (forall x, keeps_tanks (body x)) -> keeps_tanks (for_each l body).
Proof.
  intros Hbody. induction l as [|x l IH]; simpl.
  - apply keeps_tanks_ret.
  - apply keeps_tanks_bind; [apply Hbody | intros _; apply IH].
Qed.

Lemma keeps_tanks_modify (f : World -> World) :
  (forall w, w_waterworks (f w) = w_waterworks w /\ w_tanks (f w) = w_tanks w) ->
  keeps_tanks (modify f).
Proof.
  intros Hf w. destruct (Hf w) as [Hww Htanks]. split; [done|].
  intros i. unfold get_ww. simpl. by rewrite Hww.
Qed.

Lemma keeps_tanks_update_ww (i : ww_id) (f : Waterwork -> Waterwork) :
  (forall x, tanks (f x) = tanks x /\ ww_name (f x) = ww_name x) ->
  keeps_tanks (update_ww i f).
Proof.
  intros Hf w. split; [done|]. intros j. unfold get_ww. simpl. rewrite lookup_alter.
  case_decide; [subst|done].
  destruct (w_waterworks w !! j) as [x|]; simpl; [|by repeat split; intros [? ?]].
  destruct (Hf x). by repeat split.
Qed.

Lemma keeps_tanks_del_item (i : ww_id) (d : part_dict) (key : string) :
  keeps_tanks (del_item i d key).
Proof.
  unfold del_item. apply keeps_tanks_bind; [apply keeps_tanks_get|].
  intros w. destruct (getattr d (get_ww w i) !! key).
  - by apply keeps_tanks_update_ww.
  - apply keeps_tanks_raise.
Qed.

Lemma keeps_tanks_elim {A} (c : M A) (w : World) : keeps_tanks c -> tanks_kept w (c w).2.
Proof. intros Hc. apply Hc. Qed.

Ltac keeps_tanks_step :=
  match goal with
  | |- keeps_tanks (bind _ _) => apply keeps_tanks_bind
  | |- keeps_tanks (ret _) => apply keeps_tanks_ret
  | |- keeps_tanks (raise _) => apply keeps_tanks_raise
  | |- keeps_tanks get => apply keeps_tanks_get
  | |- keeps_tanks (for_each _ _) => apply keeps_tanks_for_each
  | |- keeps_tanks (del_item _ _ _) => apply keeps_tanks_del_item
  | |- keeps_tanks (let _ := _ in _) => cbv zeta
  | |- keeps_tanks (update_ww _ _) => by apply keeps_tanks_update_ww
  | |- keeps_tanks (modify (tube_ref_set_slot ?t _)) =>
      apply keeps_tanks_modify; intros; by destruct t
  | |- keeps_tanks (modify _) => by apply keeps_tanks_modify
  | |- keeps_tanks (match ?x with _ => _ end) => destruct x
  | |- keeps_tanks (if ?b then _ else _) => destruct b
  | |- forall _, _ => intros
  end.

(** The keys of the dictionary of tanks that [merge] builds: every key of
    the operand, joined to the name, and no other. *)
Lemma renamed_tanks_lookup (n : string) (d : gmap string tank_id) :
  (forall k t, d !! k = Some t -> is_Some (renamed_tanks n d !! Py.path_join n k))
  /\ (forall k' t, renamed_tanks n d !! k' = Some t ->
        exists k, k' = Py.path_join n k /\ d !! k = Some t).
Proof.
  unfold renamed_tanks.
  assert (Hfold : forall (l : list (string * tank_id)) (acc : gmap string tank_id),
            let r := foldl (fun new_d '(k, v) => <[Py.path_join n k := v]> new_d) acc l in
            (forall k', is_Some (acc !! k') -> is_Some (r !! k'))
            /\ (forall k t, (k, t) ∈ l -> is_Some (r !! Py.path_join n k))
            /\ (forall k' t, r !! k' = Some t ->
                  acc !! k' = Some t \/ exists k, k' = Py.path_join n k /\ (k, t) ∈ l)).
  { induction l as [|[k v] l IH]; intros acc; simpl.
    - split; [done|]. split; [by intros k t Hin%elem_of_nil|]. intros k' t Hr. by left.
    - destruct (IH (<[Py.path_join n k := v]> acc)) as (Hacc & Hin & Hout).
      split; [|split].
      + intros k' Hk'. apply Hacc. destruct (decide (Py.path_join n k = k')) as [<-|Hne].
        * rewrite lookup_insert_eq. by eexists.
        * by rewrite lookup_insert_ne.
      + intros k0 t [[= -> ->]|Hl]%elem_of_cons; [|by eapply Hin].
        apply Hacc. rewrite lookup_insert_eq. by eexists.
      + intros k' t Hr. destruct (Hout k' t Hr) as [Ha|(k0 & -> & Hl)].
        * destruct (decide (Py.path_join n k = k')) as [<-|Hne].
          -- rewrite lookup_insert_eq in Ha. injection Ha as ->.
             right. exists k. split; [done|]. apply elem_of_cons. by left.
          -- rewrite lookup_insert_ne in Ha by done. by left.
        * right. exists k0. split; [done|]. apply elem_of_cons. by right. }
  destruct (Hfold (map_to_list d) ∅) as (_ & Hin & Hout). split.
  - intros k t Hk. apply (Hin k t). by apply elem_of_map_to_list.
  - intros k' t Hr. destruct (Hout k' t Hr) as [Ha|(k & -> & Hl)].
    + by rewrite lookup_empty in Ha.
    + exists k. split; [done|]. by apply elem_of_map_to_list.
Qed.

Lemma get_ww_alter (f : Waterwork -> Waterwork) (i j : ww_id) (w : World) :
  is_Some (w_waterworks w !! i) ->
  get_ww (with_waterworks (alter f i) w) j
  = if decide (i = j) then f (get_ww w i) else get_ww w j.
Proof.
  intros [x Hx]. unfold get_ww. simpl. rewrite lookup_alter.
  case_decide; [subst|done]. by rewrite Hx.
Qed.

(** The step of [merge] that copies the dictionaries of one operand [w_]
    into the new Waterwork [ww]. *)
Lemma merge_copy_tanks (ww w_ : ww_id) (w w' : World) :
  ww <> w_ ->
  is_Some (w_waterworks w !! ww) ->
  (for_each [Funnels; Taps; Slots; Tubes]
     (fun d_name =>
        let! w := get in
        let new_d := renamed_parts w (ww_name (get_ww w ww)) (getattr d_name (get_ww w w_)) in
        update_ww ww (fun x => setattr d_name (new_d ∪ getattr d_name x) x)) ;;
   let! w := get in
   let new_d := renamed_tanks (ww_name (get_ww w ww)) (tanks (get_ww w w_)) in
   update_ww ww (fun x => set_tanks (new_d ∪ tanks x) x)) w = (inr tt, w') ->
  w_tanks w' = w_tanks w
  /\ tanks (get_ww w' ww)
     = renamed_tanks (ww_name (get_ww w ww)) (tanks (get_ww w w_)) ∪ tanks (get_ww w ww)
  /\ ww_name (get_ww w' ww) = ww_name (get_ww w ww)
  /\ is_Some (w_waterworks w' !! ww)
  /\ (forall i, i <> ww -> get_ww w' i = get_ww w i).
Proof.
  intros Hne Hww Hstep.
  apply bind_inr in Hstep as ([] & w1 & Hcopy & Hstep).
  assert (Hkept : tanks_kept w w1).
  { replace w1 with ((inr tt : Exn + unit, w1).2) by done. rewrite <- Hcopy.
    apply keeps_tanks_elim. repeat keeps_tanks_step. }
  assert (Hothers : forall i, i <> ww -> get_ww w1 i = get_ww w i).
  { unfold for_each, bind, get, update_ww, modify, ret in Hcopy. simpl in Hcopy.
    injection Hcopy as <-. intros i Hi. unfold get_ww. simpl.
    by rewrite !lookup_alter_ne. }
  destruct Hkept as [Htanks Hkept]. destruct (Hkept ww) as (Hww_tanks & Hww_name & Hww_some).
  unfold bind, get, update_ww, modify in Hstep. simpl in Hstep. injection Hstep as <-.
  split; [done|]. rewrite !get_ww_alter by auto. rewrite !decide_True by done. simpl.
  rewrite Hww_tanks, Hww_name, (Hothers w_) by done.
  split; [done|]. split; [done|]. split.
  - simpl. rewrite lookup_alter_eq. apply fmap_is_Some. auto.
  - intros i Hi. rewrite get_ww_alter by auto. rewrite decide_False by done. by apply Hothers.
Qed.

Lemma merge_copy_slots (ww w_ : ww_id) (w w' : World) :
  (for_each [Funnels; Taps; Slots; Tubes]
     (fun d_name =>
        let! w := get in
        let new_d := renamed_parts w (ww_name (get_ww w ww)) (getattr d_name (get_ww w w_)) in
        update_ww ww (fun x => setattr d_name (new_d ∪ getattr d_name x) x)) ;;
   let! w := get in
   let new_d := renamed_tanks (ww_name (get_ww w ww)) (tanks (get_ww w w_)) in
   update_ww ww (fun x => set_tanks (new_d ∪ tanks x) x)) w = (inr tt, w') ->
  w_slots w' = w_slots w.
Proof.
  intros Hstep. apply bind_inr in Hstep as ([] & w1 & Hcopy & Hstep).
  unfold for_each, bind, get, update_ww, modify, ret in Hcopy. simpl in Hcopy.
  injection Hcopy as <-.
  unfold bind, get, update_ww, modify in Hstep. simpl in Hstep. by injection Hstep as <-.
Qed.

(** The tanks of the Waterwork a call of [merge] returns. *)
Lemma merge_tanks
    (sorted : (tank_id -> tank_id -> Z) -> list tank_id -> list tank_id)
    (self other : ww_id) (join_dict : list (slot_ref * tube_ref)) (name : string)
    (w wf : World) (ww : ww_id) :
  merge sorted self other join_dict name w = (inr ww, wf) ->
  is_Some (w_waterworks w !! self) ->
  is_Some (w_waterworks w !! other) ->
  w_tanks wf = w_tanks w
  /\ tanks (get_ww wf ww)
     = renamed_tanks name (tanks (get_ww w other))
         ∪ (renamed_tanks name (tanks (get_ww w self)) ∪ ∅).
Proof.
  intros Hmerge [xs Hself] [xo Hother].
  pose proof (fresh_waterwork w self xs Hself) as Hne_self.
  pose proof (fresh_waterwork w other xo Hother) as Hne_other.
  revert Hmerge. unfold merge, bind at 1, get.
  destruct (String.eqb_spec (ww_name (get_ww w self)) (ww_name (get_ww w other)));
    [discriminate|].
  unfold bind at 1. rewrite enter_waterwork_spec. cbv zeta.
  destruct (default_waterwork w) eqn:Hdefault; [discriminate|].
  set (i := fresh (dom (w_waterworks w))) in *.
  set (w1 := with_default (Some i) (with_waterworks (insert i (new_waterwork name)) w)).
  unfold finally.
  match goal with |- context [bind ?c ?k w1] => destruct (bind c k w1) as [r w8] eqn:Hbody end.
  intros [= -> <-].
  apply bind_inr in Hbody as ([] & w2 & Hjoin & Hbody).
  apply bind_inr in Hbody as ([] & w3 & Hcopy & Hbody).
  apply bind_inr in Hbody as (w4 & w5 & [= <- <-] & Hbody).
  apply bind_inr in Hbody as ([] & w6 & Hhome & Hbody).
  apply bind_inr in Hbody as ([] & w7 & Hempty & Hbody).
  injection Hbody as <- <-.
  assert (Hnew : get_ww w1 i = new_waterwork name /\ is_Some (w_waterworks w1 !! i)).
  { unfold get_ww, w1. simpl. rewrite lookup_insert_eq. split; [done | by eexists]. }
  assert (Hold : forall j, j <> i -> get_ww w1 j = get_ww w j).
  { intros j Hj. unfold get_ww, w1. simpl. by rewrite lookup_insert_ne. }
  assert (Hkept12 : tanks_kept w1 w2).
  { replace w2 with ((inr tt : Exn + unit, w2).2) by done. rewrite <- Hjoin.
    apply keeps_tanks_elim. repeat first [exact keeps_tanks_get | keeps_tanks_step]. }
  assert (Hkept36 : tanks_kept w3 w6).
  { replace w6 with ((inr tt : Exn + unit, w6).2) by done. rewrite <- Hhome.
    apply keeps_tanks_elim. repeat first [exact keeps_tanks_get | keeps_tanks_step]. }
  cbn [for_each] in Hcopy.
  apply bind_inr in Hcopy as ([] & w2a & Hcopy_self & Hcopy).
  apply bind_inr in Hcopy as ([] & w2b & Hcopy_other & Hcopy).
  injection Hcopy as <-.
  destruct Hkept12 as [Htanks12 Hkept12]. destruct (Hkept12 i) as (Hi_tanks & Hi_name & Hi_some).
  apply merge_copy_tanks in Hcopy_self as (Htanks_a & Ha_tanks & Ha_name & Ha_some & Ha_others);
    [|done|by apply Hi_some, Hnew].
  apply merge_copy_tanks in Hcopy_other as (Htanks_b & Hb_tanks & Hb_name & Hb_some & Hb_others);
    [|done|done].
  destruct Hkept36 as [Htanks36 Hkept36]. destruct (Hkept36 i) as (H6_tanks & _ & _).
  unfold for_each, update_ww, bind, modify, ret in Hempty. simpl in Hempty.
  injection Hempty as <-.
  split.
  - simpl. by rewrite Htanks36, Htanks_b, Htanks_a, Htanks12.
  - replace (get_ww (exit_waterwork _) i) with (get_ww w6 i).
    2:{ unfold get_ww. simpl. by rewrite !lookup_alter_ne. }
    rewrite H6_tanks, Hb_tanks, Ha_name, Ha_tanks, (Ha_others other) by done.
    destruct (Hkept12 self) as (-> & _ & _). destruct (Hkept12 other) as (-> & _ & _).
    rewrite Hi_tanks, Hi_name, (Hold self), (Hold other) by done. destruct Hnew as [-> _]. done.
Qed.

(** X26. When [merge] returns, it has registered the tanks of both operands in
    the new Waterwork under their old keys joined to its name, and no other
    tank: every tank of an operand is there under its joined key when no two
    different tanks of the operands come under one joined key. The tanks
    themselves are as they were:
    a merged tank keeps the name it had, which is no longer the key it is
    registered under. *)
Theorem merge_registers_the_tanks
    (sorted : (tank_id -> tank_id -> Z) -> list tank_id -> list tank_id)
    (self other : ww_id) (join_dict : list (slot_ref * tube_ref)) (name : string)
    (w : World) (ww : ww_id) :
  (merge sorted self other join_dict name w).1 = inr ww ->
  is_Some (w_waterworks w !! self) ->
  is_Some (w_waterworks w !! other) ->
  w_tanks (merge sorted self other join_dict name w).2 = w_tanks w
  /\ (no_tank_collision name (tanks (get_ww w self)) (tanks (get_ww w other)) ->
      forall k t,
        tanks (get_ww w self) !! k = Some t \/ tanks (get_ww w other) !! k = Some t ->
        tanks (get_ww (merge sorted self other join_dict name w).2 ww) !! Py.path_join name k
        = Some t)
  /\ (forall k' t,
        tanks (get_ww (merge sorted self other join_dict name w).2 ww) !! k' = Some t ->
        exists k, k' = Py.path_join name k
                  /\ (tanks (get_ww w self) !! k = Some t
                      \/ tanks (get_ww w other) !! k = Some t)).
Proof.
  intros Hww Hself Hother. apply pair_eta in Hww.
  destruct (merge_tanks _ _ _ _ _ _ _ _ Hww Hself Hother) as [Htanks ->].
  destruct (renamed_tanks_lookup name (tanks (get_ww w self))) as [Hin_self Hout_self].
  destruct (renamed_tanks_lookup name (tanks (get_ww w other))) as [Hin_other Hout_other].
  assert (Hout : forall k' t,
            (renamed_tanks name (tanks (get_ww w other))
               ∪ (renamed_tanks name (tanks (get_ww w self)) ∪ ∅)) !! k' = Some t ->
            exists k, k' = Py.path_join name k
                      /\ (tanks (get_ww w self) !! k = Some t
                          \/ tanks (get_ww w other) !! k = Some t)).
  { intros k' t [Hk|[_ Hk]]%lookup_union_Some_raw.
    - apply Hout_other in Hk as (k & -> & Hk). exists k. split; [done | by right].
    - apply lookup_union_Some_raw in Hk as [Hk|[_ Hk]]; [|by rewrite lookup_empty in Hk].
      apply Hout_self in Hk as (k & -> & Hk). exists k. split; [done | by left]. }
  split; [done|]. split; [|exact Hout].
  intros Hfree k t Hk.
  assert (Hsome : is_Some ((renamed_tanks name (tanks (get_ww w other))
                              ∪ (renamed_tanks name (tanks (get_ww w self)) ∪ ∅))
                             !! Py.path_join name k)).
  { destruct Hk as [Hk|Hk].
    - apply Hin_self in Hk as [t' Hk]. rewrite lookup_union_is_Some. right.
      rewrite lookup_union_is_Some. left. by eexists.
    - apply Hin_other in Hk. rewrite lookup_union_is_Some. by left. }
  destruct Hsome as [t' Ht']. rewrite Ht'. f_equal.
  destruct (Hout _ _ Ht') as (k' & Hjoin & Hk').
  unfold no_tank_collision in Hfree. cbv zeta in Hfree. rewrite Forall_forall in Hfree.
  assert (Hentry : forall k0 t0,
            tanks (get_ww w self) !! k0 = Some t0 \/ tanks (get_ww w other) !! k0 = Some t0 ->
            (k0, t0) ∈ (map_to_list (tanks (get_ww w self))
                         ++ map_to_list (tanks (get_ww w other)))%list).
  { intros k0 t0 [H0|H0]; apply elem_of_app; [left | right]; by apply elem_of_map_to_list. }
  specialize (Hfree (k', t') (Hentry _ _ Hk')). rewrite Forall_forall in Hfree.
  apply (Hfree (k, t) (Hentry _ _ Hk)). simpl. by symmetry.
Qed.

Lemma merge_registers_the_tanks_witness :
  w_tanks (merge Py.listsort 0 1 [((1, "a"), OfTank 0 "a")] "merged" two_waterworks).2
  = w_tanks two_waterworks
  /\ (forall k t,
        tanks (get_ww two_waterworks 0) !! k = Some t
        \/ tanks (get_ww two_waterworks 1) !! k = Some t ->
        tanks (get_ww (merge Py.listsort 0 1 [((1, "a"), OfTank 0 "a")] "merged"
                         two_waterworks).2 2)
          !! Py.path_join "merged" k
        = Some t)
  /\ (forall k' t,
        tanks (get_ww (merge Py.listsort 0 1 [((1, "a"), OfTank 0 "a")] "merged"
                         two_waterworks).2 2) !! k' = Some t ->
        exists k, k' = Py.path_join "merged" k
                  /\ (tanks (get_ww two_waterworks 0) !! k = Some t
                      \/ tanks (get_ww two_waterworks 1) !! k = Some t)).
Proof.
  destruct (merge_registers_the_tanks Py.listsort 0 1 [((1, "a"), OfTank 0 "a")] "merged"
              two_waterworks 2) as (Hkept & Hin & Hout).
  - vm_compute. reflexivity.
  - vm_compute. by eexists.
  - vm_compute. by eexists.
  - split; [exact Hkept|]. split; [|exact Hout]. apply Hin.
    unfold no_tank_collision. apply (bool_decide_unpack _). vm_compute. exact I.
Defined.


(** *** The names a merge gives to the slots *)

Lemma keeps_slots_ret {A} (a : A) : keeps_slots (ret a).
Proof. by intros w s. Qed.

Lemma keeps_slots_raise {A} (e : Exn) : keeps_slots (@raise A e).
Proof. by intros w s. Qed.

Lemma keeps_slots_get : keeps_slots get.
Proof. by intros w s. Qed.

Lemma keeps_slots_bind {A B} (c : M A) (k : A -> M B) :
  keeps_slots c -> (forall a, keeps_slots (k a)) -> keeps_slots (bind c k).
Proof.
  intros Hc Hk w s Hs. unfold bind. specialize (Hc w s Hs).
  destruct (c w) as [[e|a] w']; simpl in *; [done|]. by apply Hk.
Qed.

Lemma keeps_slots_for_each {A} (l : list A) (body : A -> M unit) :
  (forall x, keeps_slots (body x)) -> keeps_slots (for_each l body).
Proof.
  intros Hbody. induction l as [|x l IH]; simpl.
  - apply keeps_slots_ret.
  - apply keeps_slots_bind; [apply Hbody | intros _; apply IH].
Qed.

Lemma keeps_slots_modify (f : World -> World) :
  (forall w, w_slots (f w) = w_slots w) -> keeps_slots (modify f).
Proof. intros Hf w s Hs. simpl. by rewrite Hf. Qed.

Lemma keeps_slots_alter (g : Slot -> Slot) (s : slot_ref) :
  keeps_slots (modify (with_slots (alter g s))).
Proof.
  intros w s' Hs'. simpl. rewrite lookup_alter. case_decide; [subst|done].
  by apply fmap_is_Some.
Qed.

Lemma keeps_slots_del_item (i : ww_id) (d : part_dict) (key : string) :
  keeps_slots (del_item i d key).
Proof.
  unfold del_item. apply keeps_slots_bind; [apply keeps_slots_get|].
  intros w. destruct (getattr d (get_ww w i) !! key).
  - by apply keeps_slots_modify.
  - apply keeps_slots_raise.
Qed.

Lemma keeps_slots_elim {A} (c : M A) (w : World) : keeps_slots c -> slots_kept w (c w).2.
Proof. intros Hc. apply Hc. Qed.

Ltac keeps_slots_step :=
  match goal with
  | |- keeps_slots (bind _ _) => apply keeps_slots_bind
  | |- keeps_slots (ret _) => apply keeps_slots_ret
  | |- keeps_slots (raise _) => apply keeps_slots_raise
  | |- keeps_slots get => apply keeps_slots_get
  | |- keeps_slots (for_each _ _) => apply keeps_slots_for_each
  | |- keeps_slots (del_item _ _ _) => apply keeps_slots_del_item
  | |- keeps_slots (let _ := _ in _) => cbv zeta
  | |- keeps_slots (modify (slot_set_tube _ _)) => apply keeps_slots_alter
  | |- keeps_slots (modify (tube_ref_set_slot ?t _)) =>
      apply keeps_slots_modify; intros; by destruct t
  | |- keeps_slots (update_ww _ _) => by apply keeps_slots_modify
  | |- keeps_slots (match ?x with _ => _ end) => destruct x
  | |- keeps_slots (if ?b then _ else _) => destruct b
  | |- forall _, _ => intros
  end.

(** The loop of [merge] that moves the slots of one tank to the Waterwork
    [ww]. *)
Lemma slot_homes (ww : ww_id) (t : tank_id) (namef : string -> string) (keys : list string)
    (w : World) (s : slot_ref) :
  let r := for_each keys (fun slot_key =>
                            modify (slot_set_home (t, slot_key) ww (namef slot_key))) w in
  r.1 = inr tt
  /\ w_tanks r.2 = w_tanks w /\ w_waterworks r.2 = w_waterworks w
  /\ w_slots r.2 !! s
     = if decide (s.1 = t /\ s.2 ∈ keys)
       then (fun o => {| slot_tube := slot_tube o; slot_val := slot_val o;
                         slot_name := namef s.2; slot_waterwork := ww |}) <$> w_slots w !! s
       else w_slots w !! s.
Proof.
  revert w. induction keys as [|key keys IH]; intros w; simpl.
  - repeat split; try done. rewrite decide_False; [done|]. intros [_ Hin]. by apply elem_of_nil in Hin.
  - unfold bind at 1 2 3 4. simpl.
    destruct (IH (slot_set_home (t, key) ww (namef key) w)) as (Hok & Htanks & Hww & Hslot).
    split; [done|]. split; [done|]. split; [done|]. rewrite Hslot. simpl.
    destruct s as [t' key']. simpl. rewrite lookup_alter.
    destruct (decide ((t, key) = (t', key'))) as [[= <- <-]|Hne].
    + rewrite (decide_True (P := t = t /\ key ∈ key :: keys))
        by (split; [done | apply elem_of_cons; by left]).
      destruct (w_slots w !! (t, key)); simpl; by destruct (decide _).
    + destruct (decide (t' = t /\ key' ∈ keys)) as [[-> Hin]|Hout].
      * rewrite decide_True; [done|]. split; [done | apply elem_of_cons; by right].
      * rewrite decide_False; [done|]. intros [-> [->|Hin]%elem_of_cons]; [done|].
        by apply Hout.
Qed.

Lemma tube_homes (ww : ww_id) (t : tank_id) (namef : string -> string) (keys : list string)
    (w : World) :
  let r := for_each keys (fun tube_key =>
                            modify (tube_set_home (t, tube_key) ww (namef tube_key))) w in
  r.1 = inr tt
  /\ w_tanks r.2 = w_tanks w /\ w_waterworks r.2 = w_waterworks w /\ w_slots r.2 = w_slots w.
Proof.
  revert w. induction keys as [|key keys IH]; intros w; simpl; [done|].
  unfold bind at 1 2 3 4. simpl.
  by destruct (IH (tube_set_home (t, key) ww (namef key) w)) as (Hok & Htanks & Hww & Hslot).
Qed.

Lemma for_each_cons_ok {A} (l : list A) (body : A -> M unit) (x : A) (w : World) :
  (body x w).1 = inr tt -> for_each (x :: l) body w = for_each l body (body x w).2.
Proof. intros Hx. simpl. by rewrite (bind_ok _ _ _ tt Hx). Qed.

(** The step of [merge] that moves one tank. *)
Lemma home_one (ww : ww_id) (t : tank_id) (w : World) (s : slot_ref) :
  let r := (let! w := get in
            let tank_name := Py.path_join (ww_name (get_ww w ww)) (tank_name_of w t) in
            for_each (tank_slots_of w t)
              (fun slot_key =>
                 modify (slot_set_home (t, slot_key) ww (Py.str_tuple tank_name slot_key))) ;;
            for_each (tank_tubes_of w t)
              (fun tube_key =>
                 modify (tube_set_home (t, tube_key) ww (Py.str_tuple tank_name tube_key)))) w in
  r.1 = inr tt
  /\ w_tanks r.2 = w_tanks w /\ w_waterworks r.2 = w_waterworks w
  /\ w_slots r.2 !! s
     = if decide (s.1 = t /\ s.2 ∈ tank_slots_of w t)
       then (fun o => {| slot_tube := slot_tube o; slot_val := slot_val o;
                         slot_name := merged_slot_name (ww_name (get_ww w ww)) w s;
                         slot_waterwork := ww |})
              <$> w_slots w !! s
       else w_slots w !! s.
Proof.
  cbv zeta. unfold bind, get.
  pose proof (slot_homes ww t
                (fun slot_key =>
                   Py.str_tuple (Py.path_join (ww_name (get_ww w ww)) (tank_name_of w t))
                     slot_key)
                (tank_slots_of w t) w s) as Hslots.
  cbv zeta in Hslots. destruct (for_each (tank_slots_of w t) _ w) as [[e|[]] w1].
  { by destruct Hslots. }
  destruct Hslots as (_ & Htanks1 & Hww1 & Hslot1). simpl in Htanks1, Hww1, Hslot1.
  pose proof (tube_homes ww t
                (fun tube_key =>
                   Py.str_tuple (Py.path_join (ww_name (get_ww w ww)) (tank_name_of w t))
                     tube_key)
                (tank_tubes_of w t) w1) as Htubes.
  cbv zeta in Htubes. destruct (for_each (tank_tubes_of w t) _ w1) as [[e|[]] w2].
  { by destruct Htubes. }
  destruct Htubes as (_ & Htanks2 & Hww2 & Hslot2). simpl in Htanks2, Hww2, Hslot2. simpl.
  split; [done|]. split; [by rewrite Htanks2|]. split; [by rewrite Hww2|].
  rewrite Hslot2, Hslot1. unfold merged_slot_name.
  destruct (decide _) as [[-> _]|_]; done.
Qed.

(** The loop of [merge] over the tanks: every slot of a tank of the list
    gets the new Waterwork and its new name, and the other slots are as
    they were. *)
Lemma home_loop (ww : ww_id) (name : string) (l : list tank_id) (w : World) (s : slot_ref) :
  ww_name (get_ww w ww) = name ->
  let r := for_each l
             (fun tank =>
                let! w := get in
                let tank_name := Py.path_join (ww_name (get_ww w ww)) (tank_name_of w tank) in
                for_each (tank_slots_of w tank)
                  (fun slot_key =>
                     modify (slot_set_home (tank, slot_key) ww
                               (Py.str_tuple tank_name slot_key))) ;;
                for_each (tank_tubes_of w tank)
                  (fun tube_key =>
                     modify (tube_set_home (tank, tube_key) ww
                               (Py.str_tuple tank_name tube_key)))) w in
  r.1 = inr tt
  /\ w_tanks r.2 = w_tanks w /\ w_waterworks r.2 = w_waterworks w
  /\ w_slots r.2 !! s
     = if decide (s.1 ∈ l /\ s.2 ∈ tank_slots_of w s.1)
       then (fun o => {| slot_tube := slot_tube o; slot_val := slot_val o;
                         slot_name := merged_slot_name name w s; slot_waterwork := ww |})
              <$> w_slots w !! s
       else w_slots w !! s.
Proof.
  revert w. induction l as [|t l IH]; intros w Hname.
  - simpl. by repeat split.
  - destruct (home_one ww t w s) as (Hok1 & Htanks1 & Hww1 & Hslot1). cbv zeta in *.
    match goal with
    | |- context [for_each (t :: l) ?body w] => rewrite (for_each_cons_ok l body t w Hok1)
    end.
    match type of Hok1 with (?c w).1 = _ => set (w2 := (c w).2) in * end.
    assert (Hname2 : ww_name (get_ww w2 ww) = name).
    { unfold get_ww in *. by rewrite Hww1. }
    destruct (IH w2 Hname2) as (Hok & Htanks & Hww & Hslot).
    assert (Hsame : forall t', tank_slots_of w2 t' = tank_slots_of w t'
                               /\ tank_name_of w2 t' = tank_name_of w t').
    { intros t'. unfold tank_slots_of, tank_name_of. by rewrite Htanks1. }
    split; [done|]. split; [by rewrite Htanks|]. split; [by rewrite Hww|].
    rewrite Hslot, Hslot1. unfold merged_slot_name.
    destruct (Hsame s.1) as [-> ->]. rewrite Hname.
    destruct (decide (s.1 = t /\ s.2 ∈ tank_slots_of w t)) as [[Ht Hkey]|Hnot].
    + rewrite (decide_True (P := s.1 ∈ t :: l /\ _)).
      2:{ split; [apply elem_of_cons; by left | by rewrite Ht]. }
      destruct (w_slots w !! s); simpl; by repeat case_match.
    + destruct (decide (s.1 ∈ l /\ s.2 ∈ tank_slots_of w s.1)) as [[Hin Hkey]|Hout].
      * rewrite decide_True; [done|]. split; [apply elem_of_cons; by right | done].
      * rewrite decide_False; [done|]. intros [[Heq|Hin]%elem_of_cons Hkey].
        -- apply Hnot. split; [done|]. by rewrite <- Heq.
        -- apply Hout. by split.
Qed.

(** X27. When [merge] returns, every slot of every tank of the two operands
    belongs to the new Waterwork and is named after its new tank: the string
    of the pair of the name of the tank joined to [name], and the key of the
    slot. The sort is any that keeps every element of the list it is
    given. *)
Theorem merge_renames_the_slots
    (sorted : (tank_id -> tank_id -> Z) -> list tank_id -> list tank_id)
    (self other : ww_id) (join_dict : list (slot_ref * tube_ref)) (name : string)
    (w : World) (ww : ww_id) (k : string) (t : tank_id) (key : string) :
  (forall cmp l x, x ∈ l -> x ∈ sorted cmp l) ->
  (merge sorted self other join_dict name w).1 = inr ww ->
  is_Some (w_waterworks w !! self) ->
  is_Some (w_waterworks w !! other) ->
  tanks (get_ww w self) !! k = Some t \/ tanks (get_ww w other) !! k = Some t ->
  key ∈ tank_slots_of w t ->
  is_Some (w_slots w !! (t, key)) ->
  slot_name_of (merge sorted self other join_dict name w).2 (t, key)
  = merged_slot_name name w (t, key)
  /\ slot_waterwork_of (merge sorted self other join_dict name w).2 (t, key) = ww.
Proof.
  intros Hsorted Hmerge [xs Hself] [xo Hother] Htank Hkey Hslot.
  pose proof (fresh_waterwork w self xs Hself) as Hne_self.
  pose proof (fresh_waterwork w other xo Hother) as Hne_other.
  destruct (merge sorted self other join_dict name w) as [r wf] eqn:Hm.
  simpl in Hmerge |- *. subst r. revert Hm. unfold merge, bind at 1, get at 1.
  destruct (String.eqb_spec (ww_name (get_ww w self)) (ww_name (get_ww w other)));
    [discriminate|].
  unfold bind at 1. rewrite enter_waterwork_spec. cbv zeta.
  destruct (default_waterwork w) eqn:Hdefault; [discriminate|].
  set (i := fresh (dom (w_waterworks w))) in *.
  set (w1 := with_default (Some i) (with_waterworks (insert i (new_waterwork name)) w)).
  unfold finally.
  match goal with |- context [bind ?c ?k w1] => destruct (bind c k w1) as [r' w8] eqn:Hbody end.
  intros [= -> <-].
  apply bind_inr in Hbody as ([] & w2 & Hjoin & Hbody).
  apply bind_inr in Hbody as ([] & w3 & Hcopy & Hbody).
  apply bind_inr in Hbody as (w4 & w5 & [= <- <-] & Hbody).
  apply bind_inr in Hbody as ([] & w6 & Hhome & Hbody).
  apply bind_inr in Hbody as ([] & w7 & Hempty & Hbody).
  injection Hbody as <- <-.
  assert (Hnew : get_ww w1 i = new_waterwork name /\ is_Some (w_waterworks w1 !! i)).
  { unfold get_ww, w1. simpl. rewrite lookup_insert_eq. split; [done | by eexists]. }
  assert (Hold : forall j, j <> i -> get_ww w1 j = get_ww w j).
  { intros j Hj. unfold get_ww, w1. simpl. by rewrite lookup_insert_ne. }
  assert (Hkept12 : tanks_kept w1 w2).
  { replace w2 with ((inr tt : Exn + unit, w2).2) by done. rewrite <- Hjoin.
    apply keeps_tanks_elim. repeat keeps_tanks_step. }
  assert (Hslots12 : slots_kept w1 w2).
  { replace w2 with ((inr tt : Exn + unit, w2).2) by done. rewrite <- Hjoin.
    apply keeps_slots_elim. repeat keeps_slots_step. }
  cbn [for_each] in Hcopy.
  apply bind_inr in Hcopy as ([] & w2a & Hcopy_self & Hcopy).
  apply bind_inr in Hcopy as ([] & w2b & Hcopy_other & Hcopy).
  injection Hcopy as <-.
  assert (Hslots23 : w_slots w2b = w_slots w2).
  { by rewrite (merge_copy_slots _ _ _ _ Hcopy_other), (merge_copy_slots _ _ _ _ Hcopy_self). }
  destruct Hkept12 as [Htanks12 Hkept12]. destruct (Hkept12 i) as (Hi_tanks & Hi_name & Hi_some).
  apply merge_copy_tanks in Hcopy_self as (Htanks_a & Ha_tanks & Ha_name & Ha_some & Ha_others);
    [|done|by apply Hi_some, Hnew].
  apply merge_copy_tanks in Hcopy_other as (Htanks_b & Hb_tanks & Hb_name & Hb_some & Hb_others);
    [|done|done].
  assert (Htanks : w_tanks w2b = w_tanks w).
  { by rewrite Htanks_b, Htanks_a, Htanks12. }
  assert (Hsame : tank_slots_of w2b t = tank_slots_of w t
                  /\ tank_name_of w2b t = tank_name_of w t).
  { unfold tank_slots_of, tank_name_of. by rewrite Htanks. }
  assert (Hname : ww_name (get_ww w2b i) = name).
  { rewrite Hb_name, Ha_name, Hi_name. by destruct Hnew as [-> _]. }
  assert (Hin : t ∈ (_pour_tank_order sorted (get_ww w2b self) w2b
                     ++ _pour_tank_order sorted (get_ww w2b other) w2b)%list).
  { assert (Hvalue : forall j, j <> i -> tanks (get_ww w j) !! k = Some t ->
                       t ∈ _pour_tank_order sorted (get_ww w2b j) w2b).
    { intros j Hj Hk. unfold _pour_tank_order. apply Hsorted, Hsorted.
      rewrite Hb_others, Ha_others by done. destruct (Hkept12 j) as (-> & _ & _).
      rewrite Hold by done. apply list_elem_of_fmap. exists (k, t). split; [done|].
      by apply elem_of_map_to_list. }
    apply elem_of_app. destruct Htank as [Hk|Hk]; [left | right]; by apply Hvalue. }
  destruct (home_loop i name
              (_pour_tank_order sorted (get_ww w2b self) w2b
               ++ _pour_tank_order sorted (get_ww w2b other) w2b)%list
              w2b (t, key) Hname) as (_ & _ & _ & Hhomed).
  cbv zeta in Hhomed. rewrite Hhome in Hhomed. simpl in Hhomed.
  rewrite decide_True in Hhomed by (split; [done | by destruct Hsame as [-> _]]).
  unfold for_each, update_ww, bind, modify, ret in Hempty. simpl in Hempty.
  injection Hempty as <-.
  assert (Hslot3 : is_Some (w_slots w2b !! (t, key))).
  { rewrite Hslots23. by apply Hslots12. }
  destruct Hslot3 as [o Ho]. rewrite Ho in Hhomed. simpl in Hhomed.
  unfold slot_name_of, slot_waterwork_of. simpl. rewrite Hhomed. simpl.
  unfold merged_slot_name. simpl. by destruct Hsame as [_ ->].
Qed.

Lemma merge_renames_the_slots_witness :
  slot_name_of (merge Py.listsort 0 1 [((1, "a"), OfTank 0 "a")] "merged" two_waterworks).2
    (1, "a")
  = merged_slot_name "merged" two_waterworks (1, "a")
  /\ slot_waterwork_of
       (merge Py.listsort 0 1 [((1, "a"), OfTank 0 "a")] "merged" two_waterworks).2 (1, "a")
     = 2.
Proof.
  apply (merge_renames_the_slots Py.listsort 0 1 [((1, "a"), OfTank 0 "a")] "merged"
           two_waterworks 2 "B/d" 1 "a").
  - intros cmp l x Hx. by rewrite listsort_perm.
  - vm_compute. reflexivity.
  - vm_compute. by eexists.
  - vm_compute. by eexists.
  - right. vm_compute. reflexivity.
  - apply (bool_decide_unpack _). vm_compute. exact I.
  - vm_compute. by eexists.
Defined.

(** *** Combining a Waterwork that has a free slot *)

Lemma copied_input_free (new_placeholder : string -> option string -> val -> M ph_id)
    (ww : ww_id) (name : string) (slot : slot_ref) (w : World) :
  slot_tube_of w slot = None ->
  copied_input new_placeholder ww name None slot w = (inl AttributeError, w).
Proof. intros Hfree. unfold copied_input, bind, get. simpl. by rewrite Hfree. Qed.

(** Once the dictionary of inputs of a copy has raised, the keys that are
    left raise the same. *)
Lemma input_dict_raised (new_placeholder : string -> option string -> val -> M ph_id)
    (ww : ww_id) (name : string) (join_dict : gmap slot_ref tube_ref) (tank : tank_id)
    (keys : list string) (acc : M (gmap string tube_ref)) (w w' : World) (e : Exn) :
  acc w = (inl e, w') ->
  foldl (fun acc slot_key =>
           let! input_dict := acc in
           let! i := copied_input new_placeholder ww name (join_dict !! (tank, slot_key))
                       (tank, slot_key) in
           ret (<[slot_key := i]> input_dict)) acc keys w = (inl e, w').
Proof.
  revert acc. induction keys as [|key keys IH]; intros acc Hacc; simpl; [done|].
  apply IH. unfold bind at 1. by rewrite Hacc.
Qed.

(** X28. [combine] cannot copy a tank that has a free slot: when the first tank
    of the pour order of [self] has a first slot that is linked to nothing,
    [combine] raises [AttributeError] (it reads the tank of the tube of the
    slot), whatever the constructors of tanks and placeholders do, and no
    combined Waterwork is returned. *)
Theorem combine_raises_on_a_free_slot
    (sorted : (tank_id -> tank_id -> Z) -> list tank_id -> list tank_id)
    (new_placeholder : string -> option string -> val -> M ph_id)
    (new_tank : TankClass -> string -> gmap string tube_ref -> M tank_id)
    (self other : ww_id) (join_dict : list (slot_ref * tube_ref)) (name : string)
    (w : World) (t : tank_id) (rest : list tank_id) (key : string) (keys : list string) :
  default_waterwork w = None ->
  ww_name (get_ww w self) <> ww_name (get_ww w other) ->
  is_Some (w_waterworks w !! self) ->
  _pour_tank_order sorted (get_ww w self) w = t :: rest ->
  tank_slots_of w t = key :: keys ->
  slot_tube_of w (t, key) = None ->
  (combine sorted new_placeholder new_tank self other join_dict name w).1
  = inl AttributeError.
Proof.
  intros Hdefault Hnames [x Hself] Horder Hslots Hfree.
  unfold combine, bind at 1, get.
  destruct (String.eqb_spec (ww_name (get_ww w self)) (ww_name (get_ww w other))); [done|].
  unfold bind at 1. rewrite enter_waterwork_spec, Hdefault. cbv zeta.
  set (i := fresh (dom (w_waterworks w))).
  set (w1 := with_default (Some i) (with_waterworks (insert i (new_waterwork "")) w)).
  unfold finally.
  assert (Hget : get_ww w1 self = get_ww w self).
  { unfold get_ww, w1. simpl. rewrite lookup_insert_ne; [done|]. by eapply fresh_waterwork. }
  assert (Horder1 : _pour_tank_order sorted (get_ww w1 self) w1 = t :: rest).
  { rewrite Hget. exact Horder. }
  match goal with
  | |- context [bind ?c ?k w1] =>
      assert (Hbody : bind c k w1 = (inl AttributeError, w1)); [|by rewrite Hbody]
  end.
  unfold bind at 1, get. rewrite Horder1. cbn [for_each].
  apply bind_eq_raise, bind_eq_raise.
  unfold copy_tank, bind at 1, get.
  change (tank_slots_of w1 t) with (tank_slots_of w t). rewrite Hslots. cbn [foldl].
  apply bind_eq_raise, input_dict_raised.
  unfold bind at 1, ret at 1. apply bind_eq_raise.
  rewrite lookup_empty. by apply copied_input_free.
Qed.

Lemma combine_raises_on_a_free_slot_witness :
  (combine Py.listsort (fun _ _ _ => raise TankRaised) (fun _ _ _ => raise TankRaised)
     1 0 [] "merged" two_waterworks).1
  = inl AttributeError.
Proof.
  apply (combine_raises_on_a_free_slot Py.listsort (fun _ _ _ => raise TankRaised)
           (fun _ _ _ => raise TankRaised) 1 0 [] "merged" two_waterworks 1 [] "a" []).
  - reflexivity.
  - vm_compute. discriminate.
  - vm_compute. by eexists.
  - vm_compute. reflexivity.
  - vm_compute. reflexivity.
  - vm_compute. reflexivity.
Defined.
(** *** Looking a part up *)

(** X14. The strict lookups against the lenient ones. [get_placeholder] gives
    what [maybe_get_placeholder] gives, and raises [TypeError] (for an
    unknown name as well) where that gives [None]. For a tank that is in
    [self.tanks] under its own name, [get_slot] and [get_tube] give what
    [maybe_get_slot] and [maybe_get_tube] give for the pair, and raise
    [KeyError] for a key the tank does not have; they raise [KeyError] too
    for a name that is no tank, and for a Tank object whose name is no key
    of [self.tanks]. The tuple of a slot of such a tank finds the slot
    again. *)
Theorem strict_lookups (self : Waterwork) (w : World) :
  (forall arg,
     get_placeholder self arg
     = match maybe_get_placeholder self arg with
       | Some p => inr p
       | None => inl PyTypeError
       end)
  /\ (forall n t key,
        tanks self !! n = Some t -> tank_name_of w t = n ->
        get_slot self w (inl n) key
        = match maybe_get_slot self w (KTuple n key) with
          | inr (Some s) => inr s
          | _ => inl PyKeyError
          end
        /\ get_tube self w (inl n) key
           = match maybe_get_tube self w (KTuple n key) with
             | Some tu => inr tu
             | None => inl PyKeyError
             end
        /\ (key ∈ tank_slots_of w t ->
            maybe_get_slot self w (get_tuple w (t, key)) = inr (Some (t, key))))
  /\ (forall n key,
        tanks self !! n = None ->
        get_slot self w (inl n) key = inl PyKeyError
        /\ get_tube self w (inl n) key = inl PyKeyError)
  /\ (forall t key,
        tanks self !! tank_name_of w t = None ->
        get_slot self w (inr t) key = inl PyKeyError
        /\ get_tube self w (inr t) key = inl PyKeyError).
Proof.
  split; [|split; [|split]].
  - intros [s| | | |]; simpl; try done; by destruct (placeholders self !! s).
  - intros n t key Hn Hname. unfold get_slot, get_tube, get_tuple. simpl.
    rewrite Hname, Hn. simpl. rewrite Hname, Hn.
    split; [by case_bool_decide|]. split; [by case_bool_decide|].
    intros Hkey. by rewrite bool_decide_eq_true_2.
  - intros n key Hn. unfold get_slot, get_tube. simpl. by rewrite Hn.
  - intros t key Ht. unfold get_slot, get_tube. simpl. by rewrite Ht.
Qed.

(** *** Renaming a slot *)

Lemma set_name_store (name_space : string) (self : slot_ref) (name : string) (w : World) :
  let w1 := with_slots (alter (slot_with_name (qualified name_space name)) self) w in
  slot_waterwork_of w1 self = slot_waterwork_of w self
  /\ (forall i, get_ww w1 i = get_ww w i)
  /\ (is_Some (w_slots w !! self) -> slot_name_of w1 self = qualified name_space name)
  /\ (forall s, s <> self -> slot_name_of w1 s = slot_name_of w s).
Proof.
  simpl. unfold slot_waterwork_of, slot_name_of. simpl. repeat split.
  - rewrite lookup_alter_eq. by destruct (w_slots w !! self).
  - intros [o Ho]. by rewrite lookup_alter_eq, Ho.
  - intros s Hs. by rewrite lookup_alter_ne.
Qed.

(** X15. [set_name] refuses a name that is taken, but only after the slot has
    taken it: when the name it would give is a key of the slots of the
    Waterwork of the slot (its own current name, for one), it raises
    [ValueError], no dictionary has changed, and the slot bears the new
    name. *)
Theorem set_name_taken (name_space : string) (self : slot_ref) (name : string) (w : World) :
  is_Some (w_slots w !! self) ->
  is_Some (slots (get_ww w (slot_waterwork_of w self)) !! qualified name_space name) ->
  (set_name name_space self name w).1 = inl PyValueError
  /\ w_waterworks (set_name name_space self name w).2 = w_waterworks w
  /\ slot_name_of (set_name name_space self name w).2 self = qualified name_space name.
Proof.
  intros Hself Htaken.
  destruct (set_name_store name_space self name w) as (Hww & Hget & Hname & _).
  unfold set_name. cbv zeta. rewrite Hww, Hget, bool_decide_eq_true_2 by done.
  split; [done|]. split; [done|]. by apply Hname.
Qed.

Lemma set_name_taken_witness :
  (set_name "A" (0, "a") "A/c/slots/a" one_clone_world).1 = inl PyValueError
  /\ w_waterworks (set_name "A" (0, "a") "A/c/slots/a" one_clone_world).2
     = w_waterworks one_clone_world
  /\ slot_name_of (set_name "A" (0, "a") "A/c/slots/a" one_clone_world).2 (0, "a")
     = qualified "A" "A/c/slots/a".
Proof.
  apply (set_name_taken "A" (0, "a") "A/c/slots/a" one_clone_world).
  - vm_compute. by eexists.
  - vm_compute. by eexists.
Defined.

Lemma size_insert_delete {V} (m : gmap string V) (old new : string) (x : V) :
  is_Some (m !! old) -> m !! new = None -> size (<[new := x]> (delete old m)) = size m.
Proof.
  intros Hold Hnew.
  rewrite map_size_insert_None.
  - rewrite map_size_delete_Some by done.
    pose proof (map_size_ne_0_lookup_2 m old Hold). lia.
  - destruct (decide (old = new)) as [->|Hne]; [apply lookup_delete_eq|].
    by rewrite lookup_delete_ne.
Qed.

(** X16. [set_name] on a slot that is registered under its name, for a name that
    is free: the entry of the slot moves from the old name to the new one,
    and so does the entry of the funnel when the slot is one; the
    dictionaries keep their sizes, the slots are still registered under
    their names and the funnels are still among the slots. *)
Theorem set_name_moves_the_entry (name_space : string) (self : slot_ref) (name : string)
    (w : World) :
  is_Some (w_slots w !! self) ->
  registered w (slot_waterwork_of w self) ->
  slots (get_ww w (slot_waterwork_of w self)) !! slot_name_of w self = Some self ->
  slots (get_ww w (slot_waterwork_of w self)) !! qualified name_space name = None ->
  (set_name name_space self name w).1 = inr tt
  /\ registered (set_name name_space self name w).2 (slot_waterwork_of w self)
  /\ slots (get_ww (set_name name_space self name w).2 (slot_waterwork_of w self))
       !! qualified name_space name = Some self
  /\ slots (get_ww (set_name name_space self name w).2 (slot_waterwork_of w self))
       !! slot_name_of w self = None
  /\ funnels (get_ww (set_name name_space self name w).2 (slot_waterwork_of w self))
       !! qualified name_space name
     = funnels (get_ww w (slot_waterwork_of w self)) !! slot_name_of w self
  /\ size (slots (get_ww (set_name name_space self name w).2 (slot_waterwork_of w self)))
     = size (slots (get_ww w (slot_waterwork_of w self)))
  /\ size (funnels (get_ww (set_name name_space self name w).2 (slot_waterwork_of w self)))
     = size (funnels (get_ww w (slot_waterwork_of w self))).
Proof.
  intros Hself [Hnames Hfunnels] Hold Hnew. unfold map_Forall in Hnames, Hfunnels.
  destruct (set_name_store name_space self name w) as (Hww & Hget & Hname & Hothers).
  set (ww := slot_waterwork_of w self) in *.
  set (old := slot_name_of w self) in *.
  set (new := qualified name_space name) in *.
  set (w1 := with_slots (alter (slot_with_name new) self) w) in *.
  assert (Hne : old <> new) by (intros Heq; rewrite Heq, Hnew in Hold; discriminate).
  assert (Hd : exists d, w_waterworks w !! ww = Some d /\ get_ww w ww = d).
  { unfold get_ww in *. destruct (w_waterworks w !! ww) as [d|]; [by exists d|].
    simpl in Hold. by rewrite lookup_empty in Hold. }
  destruct Hd as (d & Hd & Hgetd). rewrite Hgetd in *.
  assert (Hfunnel_new : funnels d !! new = None).
  { destruct (funnels d !! new) as [s|] eqn:Hs; [|done].
    apply Hfunnels in Hs. rewrite Hnew in Hs. discriminate. }
  set (slots' := <[new := self]> (delete old (slots d))).
  assert (Hslots' : forall k s, slots' !! k = Some s ->
                      (k = new /\ s = self) \/ (k <> new /\ k <> old /\ slots d !! k = Some s)).
  { intros k s. unfold slots'. destruct (decide (new = k)) as [<-|Hk].
    - rewrite lookup_insert_eq. intros [= <-]. by left.
    - rewrite lookup_insert_ne by done. destruct (decide (old = k)) as [<-|Hk'].
      + by rewrite lookup_delete_eq.
      + rewrite lookup_delete_ne by done. intros Hs. right. by repeat split. }
  assert (Hnames' : forall w', w_slots w' = w_slots w1 ->
                      forall k s, slots' !! k = Some s -> slot_name_of w' s = k).
  { intros w' Hw' k s [[-> ->]|(Hk & Hk' & Hs)]%Hslots'.
    - unfold slot_name_of. rewrite Hw'. by apply Hname.
    - unfold slot_name_of. rewrite Hw'. fold (slot_name_of w1 s).
      rewrite Hothers; [by apply Hnames|].
      intros ->. apply Hk'. symmetry. by apply Hnames. }
  unfold set_name. cbv zeta. fold old new w1. rewrite Hww. fold ww.
  rewrite !Hget, Hgetd.
  rewrite (bool_decide_eq_false_2 (is_Some (slots d !! new)))
    by (rewrite Hnew; by intros [? ?]).
  rewrite (bool_decide_eq_true_2 (is_Some (slots d !! old))) by by rewrite Hold.
  set (w2 := with_waterworks (alter _ ww) w1).
  assert (Hget2 : get_ww w2 ww = setattr Slots slots' d).
  { unfold get_ww, w2. simpl. by rewrite lookup_alter_eq, Hd. }
  rewrite Hget2. simpl.
  case_bool_decide as Hfunnel.
  - set (w3 := with_waterworks (alter _ ww) w2).
    assert (Hget3 : get_ww w3 ww
                    = setattr Funnels (<[new := self]> (delete old (funnels d)))
                        (setattr Slots slots' d)).
    { unfold get_ww, w3, w2. simpl. by rewrite !lookup_alter_eq, Hd. }
    simpl. rewrite Hget3. simpl. split; [done|]. split; [split|].
    + rewrite Hget3. simpl. unfold map_Forall. by apply Hnames'.
    + rewrite Hget3. simpl. unfold map_Forall. intros k s. destruct (decide (new = k)) as [<-|Hk].
      * rewrite lookup_insert_eq. intros [= <-]. unfold slots'. apply lookup_insert_eq.
      * rewrite lookup_insert_ne by done. destruct (decide (old = k)) as [<-|Hk'].
        -- by rewrite lookup_delete_eq.
        -- rewrite lookup_delete_ne by done. intros Hs%Hfunnels.
           unfold slots'. by rewrite lookup_insert_ne, lookup_delete_ne.
    + split; [apply lookup_insert_eq|].
      split; [unfold slots'; by rewrite lookup_insert_ne, lookup_delete_eq|].
      split.
      { rewrite lookup_insert_eq. destruct Hfunnel as [s Hs]. rewrite Hs.
        apply Hfunnels in Hs. rewrite Hold in Hs. by injection Hs as <-. }
      split; apply size_insert_delete; rewrite ?Hold; done.
  - simpl. rewrite Hget2. simpl. split; [done|]. split; [split|].
    + rewrite Hget2. simpl. unfold map_Forall. by apply Hnames'.
    + rewrite Hget2. simpl. unfold map_Forall. intros k s Hs. pose proof (Hfunnels k s Hs) as Hs'.
      unfold slots'. rewrite lookup_insert_ne, lookup_delete_ne; [done| |].
      * intros <-. apply Hfunnel. by eexists.
      * intros <-. rewrite Hnew in Hs'. discriminate.
    + split; [apply lookup_insert_eq|].
      split; [unfold slots'; by rewrite lookup_insert_ne, lookup_delete_eq|].
      split.
      { rewrite Hfunnel_new. symmetry. apply eq_None_not_Some. exact Hfunnel. }
      split; [|done]. apply size_insert_delete; [by rewrite Hold | done].
Qed.

Lemma set_name_moves_the_entry_witness :
  (set_name "A" (0, "a") "input" one_clone_world).1 = inr tt
  /\ registered (set_name "A" (0, "a") "input" one_clone_world).2
       (slot_waterwork_of one_clone_world (0, "a"))
  /\ slots (get_ww (set_name "A" (0, "a") "input" one_clone_world).2
              (slot_waterwork_of one_clone_world (0, "a")))
       !! qualified "A" "input" = Some (0, "a")
  /\ slots (get_ww (set_name "A" (0, "a") "input" one_clone_world).2
              (slot_waterwork_of one_clone_world (0, "a")))
       !! slot_name_of one_clone_world (0, "a") = None
  /\ funnels (get_ww (set_name "A" (0, "a") "input" one_clone_world).2
                (slot_waterwork_of one_clone_world (0, "a")))
       !! qualified "A" "input"
     = funnels (get_ww one_clone_world (slot_waterwork_of one_clone_world (0, "a")))
         !! slot_name_of one_clone_world (0, "a")
  /\ size (slots (get_ww (set_name "A" (0, "a") "input" one_clone_world).2
                    (slot_waterwork_of one_clone_world (0, "a"))))
     = size (slots (get_ww one_clone_world (slot_waterwork_of one_clone_world (0, "a"))))
  /\ size (funnels (get_ww (set_name "A" (0, "a") "input" one_clone_world).2
                      (slot_waterwork_of one_clone_world (0, "a"))))
     = size (funnels (get_ww one_clone_world (slot_waterwork_of one_clone_world (0, "a")))).
Proof.
  apply (set_name_moves_the_entry "A" (0, "a") "input" one_clone_world).
  - vm_compute. by eexists.
  - apply (bool_decide_unpack _). vm_compute. exact I.
  - vm_compute. reflexivity.
  - vm_compute. reflexivity.
Defined.
(** ** Further properties of the fitting step *)

Module DateTimeFit.
Import DateTime.

(** X17. [calc_global_values] records the dtype of the dataset whatever happens
    next, an exception included; it never changes the configuration of the
    transform, and it leaves the statistics of the modes it is not in as
    they were. *)
Theorem fit_records_input_dtype `{Numpy} (self : DateTimeTransform) (array : list row)
    (verbose : bool) :
  let self' := after (calc_global_values self array verbose) in
  input_dtype self' = Some (dtype_of array)
  /\ norm_mode self' = norm_mode self /\ norm_axis self' = norm_axis self
  /\ num_units self' = num_units self /\ time_unit self' = time_unit self
  /\ name self' = name self /\ dtype self' = dtype self
  /\ zero_datetime self' = zero_datetime self
  /\ (norm_mode self <> MeanStd -> mean self' = mean self /\ std self' = std self)
  /\ (norm_mode self <> MinMax -> min self' = min self /\ max self' = max self).
Proof.
  unfold calc_global_values. simpl.
  destruct (norm_mode self) eqn:Hmode; simpl.
  - by repeat split.
  - case_bool_decide; simpl; [by repeat split|].
    destruct (truth_of_eq _ _) as [e|[]]; simpl; by repeat split.
  - case_bool_decide; simpl; [by repeat split|].
    destruct (any_eq _ _); simpl; [|by repeat split].
    destruct (assign_where_eq _ _ _); simpl; by repeat split.
Qed.

(** X18. Fitting twice on the same dataset is fitting once: the second call has
    the outcome of the first and leaves the transform as the first left
    it. *)
Theorem fit_twice `{Numpy} (self : DateTimeTransform) (array : list row) (verbose : bool) :
  calc_global_values (after (calc_global_values self array verbose)) array verbose
  = calc_global_values self array verbose.
Proof.
  unfold calc_global_values. simpl.
  destruct (norm_mode self) eqn:Hmode; simpl; rewrite ?Hmode; simpl.
  - reflexivity.
  - case_bool_decide as Hlen; simpl; rewrite ?Hmode; simpl.
    + by rewrite bool_decide_eq_true_2.
    + destruct (truth_of_eq _ _) as [e|[]] eqn:Htruth; simpl; rewrite Hmode; simpl;
        rewrite bool_decide_eq_false_2 by done; by rewrite Htruth.
  - case_bool_decide as Hlen; simpl; rewrite ?Hmode; simpl.
    + by rewrite bool_decide_eq_true_2.
    + destruct (any_eq _ _) eqn:Hany; simpl.
      * destruct (assign_where_eq _ _ _) eqn:Hassign; simpl; rewrite Hmode; simpl;
          rewrite bool_decide_eq_false_2 by done; by rewrite Hany, Hassign.
      * rewrite Hmode. simpl. rewrite bool_decide_eq_false_2 by done. by rewrite Hany.
Qed.

(** X19. The regular fit. On a dataset that is not empty, in mode [mean_std]
    with no standard deviation equal to zero, the mean and the standard
    deviation are stored as numpy computes them; in mode [min_max] with a
    minimum that differs from the maximum, so are the two. No exception is
    raised and no warning issued. *)
Theorem fit_stores_the_statistics `{Numpy} (self : DateTimeTransform) (array : list row)
    (verbose : bool) :
  array <> [] ->
  let temp_array :=
    to_num (zero_datetime self) (num_units self) (time_unit self) (dtype self) <$> array in
  let out := calc_global_values self array verbose in
  (norm_mode self = MeanStd ->
   any_eq (nanstd temp_array (norm_axis self)) F0 = false ->
   raised out = None /\ warnings out = []
   /\ mean (after out) = Some (nanmean temp_array (norm_axis self))
   /\ std (after out) = Some (nanstd temp_array (norm_axis self)))
  /\ (norm_mode self = MinMax ->
      truth_of_eq (nanmin temp_array (norm_axis self)) (nanmax temp_array (norm_axis self))
      = inr false ->
      raised out = None /\ warnings out = []
      /\ min (after out) = Some (nanmin temp_array (norm_axis self))
      /\ max (after out) = Some (nanmax temp_array (norm_axis self))).
Proof.
  intros Harray temp_array out.
  assert (Hlen : bool_decide (length temp_array = 0) = false).
  { apply bool_decide_eq_false_2. unfold temp_array. rewrite length_fmap.
    destruct array; [done | discriminate]. }
  split.
  - intros Hmode Hany. subst out. unfold calc_global_values. simpl.
    rewrite Hmode. fold temp_array. rewrite Hlen, Hany. by repeat split.
  - intros Hmode Htruth. subst out. unfold calc_global_values. simpl.
    rewrite Hmode. fold temp_array. rewrite Hlen, Htruth. by repeat split.
Qed.

Lemma fit_stores_the_statistics_witness :
  (let out := calc_global_values (H := toy_numpy) (new_transform MeanStd (Some 0%Z))
                [[1%float; 5%float]; [3%float; 7%float]] true in
   raised out = None /\ warnings out = []
   /\ mean (after out) = Some (Array [2%float; 6%float])
   /\ std (after out) = Some (Array [1%float; 1%float]))
  /\ (let out := calc_global_values (H := toy_numpy) (new_transform MinMax None)
                   [[3%float]; [5%float]] true in
      raised out = None /\ warnings out = []
      /\ min (after out) = Some (Scalar 3%float)
      /\ max (after out) = Some (Scalar 5%float)).
Proof.
  split.
  - refine (proj1 (fit_stores_the_statistics (H := toy_numpy)
                     (new_transform MeanStd (Some 0%Z))
                     [[1%float; 5%float]; [3%float; 7%float]] true _) _ _);
      [discriminate | reflexivity..].
  - refine (proj2 (fit_stores_the_statistics (H := toy_numpy)
                     (new_transform MinMax None) [[3%float]; [5%float]] true _) _ _);
      [discriminate | reflexivity..].
Defined.

(** X20. In mode [mean_std] with every axis reduced, the standard deviation is a
    numpy scalar: when it is zero the replacement by 1 raises [TypeError].
    The warning is issued before, when [verbose] is set, and the transform
    keeps the mean and the zero standard deviation. *)
Theorem zero_scalar_std_raises `{Numpy} (self : DateTimeTransform) (array : list row)
    (verbose : bool) (x : F) :
  array <> [] ->
  norm_mode self = MeanStd ->
  let temp_array :=
    to_num (zero_datetime self) (num_units self) (time_unit self) (dtype self) <$> array in
  let out := calc_global_values self array verbose in
  nanstd temp_array (norm_axis self) = Scalar x ->
  Feqb x F0 = true ->
  raised out = Some TypeError
  /\ warnings out = (if verbose then [zero_std_warning self] else [])
  /\ mean (after out) = Some (nanmean temp_array (norm_axis self))
  /\ std (after out) = Some (Scalar x).
Proof.
  intros Harray Hmode temp_array out Hstd Hzero.
  assert (Hlen : bool_decide (length temp_array = 0) = false).
  { apply bool_decide_eq_false_2. unfold temp_array. rewrite length_fmap.
    destruct array; [done | discriminate]. }
  subst out. unfold calc_global_values. simpl.
  rewrite Hmode. fold temp_array. rewrite Hlen, Hstd. simpl. rewrite Hzero. simpl.
  by destruct verbose.
Qed.

Lemma zero_scalar_std_raises_witness :
  let out := calc_global_values (H := toy_numpy) (new_transform MeanStd None)
               [[4%float]; [4%float]] false in
  raised out = Some TypeError
  /\ warnings out = []
  /\ mean (after out) = Some (Scalar 4%float)
  /\ std (after out) = Some (Scalar 0%float).
Proof.
  refine (zero_scalar_std_raises (H := toy_numpy) (new_transform MeanStd None)
            [[4%float]; [4%float]] false 0%float _ _ _ _);
    [discriminate | reflexivity..].
Defined.

(** X21. In mode [min_max] with an axis that leaves several columns, the minimum
    and the maximum are arrays of several elements, the truth value of their
    comparison is ambiguous and the fit raises, having stored the two. *)
Theorem min_max_of_columns_raises `{Numpy} (self : DateTimeTransform) (array : list row)
    (verbose : bool) (los his : list F) :
  array <> [] ->
  norm_mode self = MinMax ->
  let temp_array :=
    to_num (zero_datetime self) (num_units self) (time_unit self) (dtype self) <$> array in
  let out := calc_global_values self array verbose in
  nanmin temp_array (norm_axis self) = Array los ->
  nanmax temp_array (norm_axis self) = Array his ->
  2 <= length los ->
  2 <= length his ->
  raised out = Some AmbiguousTruth
  /\ warnings out = []
  /\ min (after out) = Some (Array los)
  /\ max (after out) = Some (Array his).
Proof.
  intros Harray Hmode temp_array out Hmin Hmax Hlos Hhis.
  assert (Hlen : bool_decide (length temp_array = 0) = false).
  { apply bool_decide_eq_false_2. unfold temp_array. rewrite length_fmap.
    destruct array; [done | discriminate]. }
  subst out. unfold calc_global_values. simpl.
  rewrite Hmode. fold temp_array. rewrite Hlen, Hmin, Hmax.
  destruct los as [|lo1 [|lo2 los]]; [simpl in Hlos; lia..|].
  destruct his as [|hi1 [|hi2 his]]; [simpl in Hhis; lia..|].
  by repeat split.
Qed.

Lemma min_max_of_columns_raises_witness :
  let out := calc_global_values (H := toy_numpy) (new_transform MinMax (Some 0%Z))
               [[1%float; 5%float]; [3%float; 7%float]] true in
  raised out = Some AmbiguousTruth
  /\ warnings out = []
  /\ min (after out) = Some (Array [1%float; 5%float])
  /\ max (after out) = Some (Array [3%float; 7%float]).
Proof.
  refine (min_max_of_columns_raises (H := toy_numpy) (new_transform MinMax (Some 0%Z))
            [[1%float; 5%float]; [3%float; 7%float]] true _ _ _ _ _ _ _ _);
    [discriminate | reflexivity | reflexivity | reflexivity | simpl; lia | simpl; lia].
Defined.

End DateTimeFit.
